(** * py-lattix: the benchmark harness [analysis/benchmark.py]

    The harness times five operations (construction, nested key read,
    nested dot read, nested key write, nested dot write) on a family of
    nested-mapping containers and prints one table row per container.

    The development embeds the script as it is written:
    - the module body (import guards, [raw_data], the [instances] dict) as a
      computation over an explicit object heap that may stop on an uncaught
      exception;
    - [run] and [format_res] as functions; [timeit.Timer.timeit] as the loop
      of its code template;
    - the [__main__] block as a loop over the registry [libs];
    - the statement texts handed to [timeit] as syntax trees, executed by a
      small interpreter for the fragment of Python they are written in. *)

From Stdlib Require Import ZArith NArith QArith String Ascii List Lia.
From Stdlib Require Import DecimalString.
From stdpp Require Import base option list gmap strings.

Close Scope Q_scope.
Open Scope string_scope.
Open Scope list_scope.

(** ** Exceptions *)

(** The exception classes that occur.  [SystemExit], [KeyboardInterrupt] and
    [GeneratorExit] derive from [BaseException] only; all the others derive
    from [Exception]. *)
Inductive exn : Type :=
| ImportError
| NameError
| TypeError
| KeyError
| AttributeError
| ValueError
| RecursionError
| RuntimeError
| SystemExit
| KeyboardInterrupt
| GeneratorExit.

(** [isinstance(e, Exception)]: what an [except Exception] clause catches. *)
Definition is_Exception (e : exn) : bool :=
  match e with
  | SystemExit | KeyboardInterrupt | GeneratorExit => false
  | _ => true
  end.

Inductive outcome (A : Type) : Type :=
| Ok (a : A)
| Raise (e : exn).
Arguments Ok {A} a.
Arguments Raise {A} e.

(** ** State and exception monad

    A computation reads and writes a state of type [S] and either returns
    or raises; the state reached when it raises is kept, as Python keeps
    every mutation done before the exception. *)
Module Comp.

Definition t (S A : Type) : Type := S -> outcome A * S.

Definition ret {S A} (a : A) : t S A := fun s => (Ok a, s).

Definition raise {S A} (e : exn) : t S A := fun s => (Raise e, s).

Definition bind {S A B} (c : t S A) (k : A -> t S B) : t S B :=
  fun s =>
    match c s with
    | (Ok a, s') => k a s'
    | (Raise e, s') => (Raise e, s')
    end.

Definition get {S} : t S S := fun s => (Ok s, s).

Definition modify {S} (f : S -> S) : t S unit := fun s => (Ok tt, f s).

End Comp.

Declare Scope comp_scope.
Delimit Scope comp_scope with comp.
Notation "x <- c ;; k" := (Comp.bind c (fun x => k))
  (at level 100, c at next level, right associativity) : comp_scope.
Notation "c ;;; k" := (Comp.bind c (fun _ => k))
  (at level 100, right associativity) : comp_scope.
Open Scope comp_scope.

(** ** Objects *)

(** Modelled from the spec: the collaborator interface of section 6, for the
    container classes whose code is not part of the benchmark script
    ([lattix.Lattix] of this repository, and [easydict], [addict], [box],
    [treedict], [dotted_dict]): a constructor accepting the fixed nested
    document and producing the collaborator's own instance, optionally
    [__getitem__]/[__setitem__], optionally attribute get/set.  A
    collaborator is described by whether its constructor always raises (and
    what), and by the access styles its instances really implement, which
    need not agree with the flags of the registry. *)
Record collaborator : Type := {
  ctor_raises : option exn;
  has_getitem : bool;
  has_getattr : bool
}.

Inductive class_id : Type :=
| DictCls                                      (* the built-in [dict] *)
| AttrsL3                                      (* the three [@define] classes *)
| AttrsL2
| AttrsL1
| LibCls (name : string) (impl : collaborator).  (* a collaborator's class *)

Inductive value : Type :=
| VNone
| VBool (b : bool)
| VInt (n : Z)
| VRef (l : nat)          (* reference to a heap object *)
| VClass (c : class_id)
| VOpaque (what : string). (* a module or function object *)

(** A heap object: its class and its items (for a mapping) or attributes
    (for an instance), in insertion order. *)
Record object : Type := {
  o_class : class_id;
  o_slots : list (string * value)
}.

Abbreviation heap := (list object).
Abbreviation namespace := (gmap string value).

Fixpoint alist_get {A} (k : string) (l : list (string * A)) : option A :=
  match l with
  | [] => None
  | (k', v) :: l' => if String.eqb k k' then Some v else alist_get k l'
  end.

(** [d[k] = v] on an insertion-ordered mapping: an existing key keeps its
    place, a new key goes last. *)
Fixpoint alist_set {A} (k : string) (v : A) (l : list (string * A))
  : list (string * A) :=
  match l with
  | [] => [(k, v)]
  | (k', v') :: l' =>
      if String.eqb k k' then (k', v) :: l' else (k', v') :: alist_set k v l'
  end.

Abbreviation H := (Comp.t heap).

Definition alloc (o : object) : H value :=
  fun h => (Ok (VRef (length h)), h ++ [o]).

(** Following a reference.  No Python value is a dangling reference; that
    case gets an exception only to keep the function total. *)
Definition deref (v : value) : H (nat * object) :=
  fun h =>
    match v with
    | VRef l => match h !! l with
                | Some o => (Ok (l, o), h)
                | None => (Raise RuntimeError, h)
                end
    | _ => (Raise TypeError, h)
    end.

Definition store (l : nat) (o : object) : H unit :=
  fun h => (Ok tt, <[l := o]> h).

(** Which classes answer to [obj[k]] and to [obj.a]. *)
Definition subscriptable (c : class_id) : bool :=
  match c with
  | DictCls => true
  | LibCls _ impl => has_getitem impl
  | _ => false
  end.

Definition dotted (c : class_id) : bool :=
  match c with
  | AttrsL3 | AttrsL2 | AttrsL1 => true
  | LibCls _ impl => has_getattr impl
  | DictCls => false
  end.

(** [v[k]] *)
Definition getitem (v : value) (k : string) : H value :=
  lo <- deref v ;;
  let '(l, o) := lo in
  if subscriptable (o_class o) then
    match alist_get k (o_slots o) with
    | Some x => Comp.ret x
    | None => Comp.raise KeyError
    end
  else Comp.raise TypeError.

(** [v[k] = x] *)
Definition setitem (v : value) (k : string) (x : value) : H unit :=
  lo <- deref v ;;
  let '(l, o) := lo in
  if subscriptable (o_class o) then
    store l {| o_class := o_class o; o_slots := alist_set k x (o_slots o) |}
  else Comp.raise TypeError.

(** [v.a] *)
Definition getattr (v : value) (a : string) : H value :=
  match v with
  | VRef _ =>
      lo <- deref v ;;
  let '(l, o) := lo in
      if dotted (o_class o) then
        match alist_get a (o_slots o) with
        | Some x => Comp.ret x
        | None => Comp.raise AttributeError
        end
      else Comp.raise AttributeError
  | _ => Comp.raise AttributeError
  end.

(** [v.a = x].  The [@define] classes are slotted: only a declared field
    can be assigned. *)
Definition setattr (v : value) (a : string) (x : value) : H unit :=
  match v with
  | VRef _ =>
      lo <- deref v ;;
  let '(l, o) := lo in
      match o_class o with
      | DictCls => Comp.raise AttributeError
      | AttrsL3 | AttrsL2 | AttrsL1 =>
          match alist_get a (o_slots o) with
          | Some _ =>
              store l {| o_class := o_class o;
                         o_slots := alist_set a x (o_slots o) |}
          | None => Comp.raise AttributeError
          end
      | LibCls _ impl =>
          if has_getattr impl then
            store l {| o_class := o_class o;
                       o_slots := alist_set a x (o_slots o) |}
          else Comp.raise AttributeError
      end
  | _ => Comp.raise AttributeError
  end.

(** ** Calling a class *)

Definition recursion_limit : nat := 1000.

(** [dict(x, k=v, ...)]: a new dict holding the items of the mapping [x] (the
    values are shared, not copied), then the keyword items. *)
Definition dict_new (args : list value) (kw : list (string * value))
  : H value :=
  match args with
  | [] => alloc {| o_class := DictCls; o_slots := kw |}
  | [x] =>
      lo <- deref x ;;
      let '(_, o) := lo in
      if subscriptable (o_class o) then
        alloc {| o_class := DictCls;
                 o_slots := fold_left (fun s kv => alist_set kv.1 kv.2 s)
                                      kw (o_slots o) |}
      else Comp.raise TypeError
  | _ => Comp.raise TypeError
  end.

(** The [__init__] that [@define] generates for a class with the single
    field [field]: the field is given positionally or by keyword, or takes
    its default (a constant or a factory call). *)
Definition attrs_new (c : class_id) (field : string) (default : H value)
    (args : list value) (kw : list (string * value)) : H value :=
  match args, kw with
  | [], [] =>
      v <- default ;; alloc {| o_class := c; o_slots := [(field, v)] |}
  | [v], [] => alloc {| o_class := c; o_slots := [(field, v)] |}
  | [], [(k, v)] =>
      if String.eqb k field
      then alloc {| o_class := c; o_slots := [(field, v)] |}
      else Comp.raise TypeError
  | _, _ => Comp.raise TypeError
  end.

Definition is_dict (c : class_id) : bool :=
  match c with DictCls => true | _ => false end.

(** Modelled from the spec: a collaborator's constructor turns the nested
    document into its own instance, every nested dict becoming a new object
    of the collaborator's class ("each gets its own constructed instance,
    isolated from all others"); the input is left as it was.  The depth of
    the recursion is bounded as the interpreter bounds it. *)
Fixpoint convert (fuel : nat) (c : class_id) (v : value) : H value :=
  match fuel with
  | O => Comp.raise RecursionError
  | S fuel' =>
      match v with
      | VRef _ =>
          lo <- deref v ;;
          let '(_, o) := lo in
          if is_dict (o_class o) then
            slots <-
              (fix items (kvs : list (string * value))
                 : H (list (string * value)) :=
                 match kvs with
                 | [] => Comp.ret []
                 | (k, x) :: rest =>
                     x' <- convert fuel' c x ;;
                     rest' <- items rest ;;
                     Comp.ret ((k, x') :: rest')
                 end) (o_slots o) ;;
            alloc {| o_class := c; o_slots := slots |}
          else Comp.ret v
      | _ => Comp.ret v
      end
  end.

(** Modelled from the spec: calling a collaborator's class on the document;
    keyword options (such as [lazy_create=True]) do not change what is
    stored. *)
Definition lib_new (c : class_id) (impl : collaborator)
    (args : list value) (kw : list (string * value)) : H value :=
  match ctor_raises impl with
  | Some e => Comp.raise e
  | None =>
      match args with
      | [v] =>
          lo <- deref v ;;
          let '(_, o) := lo in
          if is_dict (o_class o) then convert recursion_limit c v
          else Comp.raise TypeError
      | _ => Comp.raise TypeError
      end
  end.

Definition new_AttrsL3 := attrs_new AttrsL3 "level3" (Comp.ret (VInt 100)).
Definition new_AttrsL2 := attrs_new AttrsL2 "level2" (new_AttrsL3 [] []).
Definition new_AttrsL1 := attrs_new AttrsL1 "level1" (new_AttrsL2 [] []).

(** Calling [f] on positional and keyword arguments. *)
Definition call (f : value) (args : list value) (kw : list (string * value))
  : H value :=
  match f with
  | VClass DictCls => dict_new args kw
  | VClass AttrsL3 => new_AttrsL3 args kw
  | VClass AttrsL2 => new_AttrsL2 args kw
  | VClass AttrsL1 => new_AttrsL1 args kw
  | VClass (LibCls n impl) => lib_new (LibCls n impl) impl args kw
  | _ => Comp.raise TypeError
  end.

(** ** The statements handed to [timeit] *)

#[local] Set Warnings "-register-all".

Inductive expr : Type :=
| Const (v : value)
| Name (x : string)
| Subscript (e : expr) (k : string)
| Attribute (e : expr) (a : string)
| Call (f : expr) (args : list expr) (kw : list (string * expr)).

Inductive stmt : Type :=
| Pass
| Expr (e : expr)
| AssignItem (target : expr) (k : string) (rhs : expr)
| AssignAttr (target : expr) (a : string) (rhs : expr)
| RaiseStmt (e : exn).

Definition builtins : namespace := {[ "dict" := VClass DictCls ]}.

(** A name is looked up in the globals handed to [timeit], then in the
    built-ins. *)
Definition lookup_name (ns : namespace) (x : string) : H value :=
  match ns !! x with
  | Some v => Comp.ret v
  | None =>
      match builtins !! x with
      | Some v => Comp.ret v
      | None => Comp.raise NameError
      end
  end.

Fixpoint eval (ns : namespace) (e : expr) : H value :=
  match e with
  | Const v => Comp.ret v
  | Name x => lookup_name ns x
  | Subscript e k => v <- eval ns e ;; getitem v k
  | Attribute e a => v <- eval ns e ;; getattr v a
  | Call f args kw =>
      c <- eval ns f ;;
      vs <- (fix evs (l : list expr) : H (list value) :=
               match l with
               | [] => Comp.ret []
               | a :: l' =>
                   v <- eval ns a ;; vs <- evs l' ;; Comp.ret (v :: vs)
               end) args ;;
      kvs <- (fix evs (l : list (string * expr))
                : H (list (string * value)) :=
                match l with
                | [] => Comp.ret []
                | (k, a) :: l' =>
                    v <- eval ns a ;; kvs <- evs l' ;; Comp.ret ((k, v) :: kvs)
                end) kw ;;
      call c vs kvs
  end.

(** Executing a statement; the value is that of an expression statement,
    [None] otherwise.  In an assignment the right-hand side is evaluated
    first. *)
Definition exec (ns : namespace) (s : stmt) : H value :=
  match s with
  | Pass => Comp.ret VNone
  | Expr e => eval ns e
  | AssignItem target k rhs =>
      x <- eval ns rhs ;; t <- eval ns target ;; setitem t k x ;;;
      Comp.ret VNone
  | AssignAttr target a rhs =>
      x <- eval ns rhs ;; t <- eval ns target ;; setattr t a x ;;;
      Comp.ret VNone
  | RaiseStmt e => Comp.raise e
  end.

(** ** Formatting *)

Definition digits (n : N) : string := NilZero.string_of_uint (N.to_uint n).

Definition digit_char (d : N) : ascii := ascii_of_N (48 + d mod 10).

(** The last [k] decimal digits of [n], padded with zeros. *)
Fixpoint last_digits (k : nat) (n : N) : string :=
  match k with
  | O => EmptyString
  | S k' => last_digits k' (n / 10) ++ String (digit_char n) EmptyString
  end.

(** The integer nearest to [num / den], ties to even, for [0 <= num]. *)
Definition round_half_even (num : Z) (den : positive) : N :=
  let q := (num / Zpos den)%Z in
  let r := (num mod Zpos den)%Z in
  Z.to_N
    match (2 * r ?= Zpos den)%Z with
    | Lt => q
    | Gt => (q + 1)%Z
    | Eq => if Z.even q then q else (q + 1)%Z
    end.

(** [f"{val:.5f}"].  A timing is a finite float, hence a rational number,
    and the conversion rounds its exact value to five decimals, ties to
    even; a negative value keeps its sign. *)
Definition format_5f (val : Q) : string :=
  let n := round_half_even (Z.abs (Qnum val) * 100000) (Qden val) in
  (if (Qnum val <? 0)%Z then "-" else EmptyString)
  ++ digits (n / 100000) ++ "." ++ last_digits 5 n.

Definition format_res (val : option Q) : string :=
  match val with
  | Some v => format_5f v
  | None => "N/A"
  end.

Fixpoint spaces (n : nat) : string :=
  match n with
  | O => EmptyString
  | S n' => String " " (spaces n')
  end.

(** [f"{s:<w}"]: left-justified in a field of width [w]. *)
Definition ljust (w : nat) (s : string) : string :=
  s ++ spaces (w - String.length s).

Fixpoint dashes (n : nat) : string :=
  match n with
  | O => EmptyString
  | S n' => String "-" (dashes n')
  end.

Definition header : string :=
  ljust 12 "Library" ++ " | " ++ ljust 8 "Init" ++ " | "
  ++ ljust 8 "Read(K)" ++ " | " ++ ljust 8 "Read(D)" ++ " | "
  ++ ljust 8 "Write(K)" ++ " | " ++ ljust 8 "Write(D)".

(** ** The harness *)

(** What the script does not determine: which collaborator libraries the
    interpreter can import and how their classes behave, whether [attrs]
    is installed, the readings of the clock, and the version string. *)
Record world : Type := {
  site_packages : gmap string collaborator;
  attrs_installed : bool;
  perf_counter : nat -> Q;
  sys_version : string
}.

(** An observable step of the run: [run] is called on a statement, or the
    timing loop has executed the statement once and it produced a value.
    Both record what the name [obj] is bound to in the statement's globals. *)
Inductive event : Type :=
| EvRun (s : stmt) (obj : option value)
| EvExec (s : stmt) (obj : option value) (v : value).

Record state : Type := {
  st_heap : heap;
  st_ticks : nat;              (* how many times the clock was read *)
  st_trace : list event;
  st_stdout : list string      (* one entry per [print] *)
}.

Abbreviation M := (Comp.t state).

Definition lift {A} (c : H A) : M A :=
  fun st =>
    let '(r, h) := c (st_heap st) in
    (r, {| st_heap := h; st_ticks := st_ticks st;
           st_trace := st_trace st; st_stdout := st_stdout st |}).

Definition log (ev : event) : M unit :=
  Comp.modify (fun st =>
    {| st_heap := st_heap st; st_ticks := st_ticks st;
       st_trace := st_trace st ++ [ev]; st_stdout := st_stdout st |}).

Definition print (line : string) : M unit :=
  Comp.modify (fun st =>
    {| st_heap := st_heap st; st_ticks := st_ticks st;
       st_trace := st_trace st; st_stdout := st_stdout st ++ [line] |}).

Definition ITER_N : N := 100000.

(** The statements of the [__main__] block. *)
Definition obj_level2 : expr :=
  Subscript (Subscript (Name "obj") "level1") "level2".
Definition obj_dot_level2 : expr :=
  Attribute (Attribute (Name "obj") "level1") "level2".

(** ['obj["level1"]["level2"]["level3"]'] *)
Definition READ_K : stmt := Expr (Subscript obj_level2 "level3").
(** ["obj.level1.level2.level3"] *)
Definition READ_D : stmt := Expr (Attribute obj_dot_level2 "level3").
(** ['obj["level1"]["level2"]["level3"] = 200'] *)
Definition WRITE_K : stmt := AssignItem obj_level2 "level3" (Const (VInt 200)).
(** ["obj.level1.level2.level3 = 300"] *)
Definition WRITE_D : stmt :=
  AssignAttr obj_dot_level2 "level3" (Const (VInt 300)).

(** ["X(raw_data)"] *)
Definition construct (cls : string) : expr :=
  Call (Name cls) [Name "raw_data"] [].

(** ["AttrsL1(level1=AttrsL2(level2=AttrsL3(level3=100)))"] *)
Definition construct_attrs : expr :=
  Call (Name "AttrsL1") []
    [("level1",
      Call (Name "AttrsL2") []
        [("level2",
          Call (Name "AttrsL3") [] [("level3", Const (VInt 100))])])].

Definition libs : list (string * stmt * bool * bool) :=
  (* (class name, init statement, support key, support dot) *)
  [ ("dict", Expr (construct "dict"), true, false);
    ("Lattix",
     Expr (Call (Name "Lattix") [Name "raw_data"]
             [("lazy_create", Const (VBool true))]), true, true);
    ("EasyDict", Expr (construct "EasyDict"), true, true);
    ("Addict", Expr (construct "Addict"), true, true);
    ("Box", Expr (construct "Box"), true, true);
    ("TreeDict", Expr (construct "TreeDict"), true, false);
    ("Attrs", Expr construct_attrs, false, true);
    ("DottedDict", Expr (construct "DottedDict"), true, true) ].

(** The dict display [{"level1": {"level2": {"level3": 100}}}]: three new
    dicts, the innermost built first. *)
Definition new_document : H value :=
  d3 <- alloc {| o_class := DictCls; o_slots := [("level3", VInt 100)] |} ;;
  d2 <- alloc {| o_class := DictCls; o_slots := [("level2", d3)] |} ;;
  alloc {| o_class := DictCls; o_slots := [("level1", d2)] |}.

(** Truth value of an object in an [if]. *)
Definition truthy (v : value) : bool :=
  match v with
  | VNone => false
  | VBool b => b
  | VInt n => negb (n =? 0)%Z
  | _ => true
  end.

Definition is_not_None (v : value) : bool :=
  match v with VNone => false | _ => true end.

Section Harness.

Variable w : world.

(** [try: from m import X / except ImportError: X = None] *)
Definition import_guard (m X : string) (g : namespace) : namespace :=
  match site_packages w !! m with
  | Some impl => <[X := VClass (LibCls X impl)]> g
  | None => <[X := VNone]> g
  end.

(** The [attrs] guard: on success it binds [define], [field] and the three
    classes; on [ImportError] it binds [define] alone. *)
Definition import_attrs (g : namespace) : namespace :=
  if attrs_installed w then
    <["AttrsL1" := VClass AttrsL1]>
      (<["AttrsL2" := VClass AttrsL2]>
         (<["AttrsL3" := VClass AttrsL3]>
            (<["field" := VOpaque "attrs.field"]>
               (<["define" := VOpaque "attrs.define"]> g))))
  else <["define" := VNone]> g.

(** [if X: instances[name] = <e>], at module level: an exception raised
    by the test or by the constructor is not caught. *)
Definition register (g : namespace) (X name : string) (e : expr)
    (instances : gmap string value) : H (gmap string value) :=
  c <- lookup_name g X ;;
  if truthy c then v <- eval g e ;; Comp.ret (<[name := v]> instances)
  else Comp.ret instances.

(** The block of import guards, in the order of the script ([treedict]
    is guarded twice). *)
Definition imports : namespace :=
  let g : namespace := ∅ in
  let g := import_guard "lattix" "Lattix" g in
  let g := import_guard "easydict" "EasyDict" g in
  let g := import_guard "addict" "Addict" g in
  let g := import_guard "box" "Box" g in
  let g := import_guard "treedict" "TreeDict" g in
  let g := import_guard "dotted_dict" "DottedDict" g in
  let g := import_guard "treedict" "TreeDict" g in
  import_attrs g.

(** The module body down to [libs].  Of the names it binds, the globals
    keep those a statement of the registry can mention: the imported
    classes, [ITER_N] and [raw_data]. *)
Definition module_init : H (namespace * gmap string value) :=
  let g := imports in
  let g := <["ITER_N" := VInt (Z.of_N ITER_N)]> g in
  rd <- new_document ;;
  let g := <["raw_data" := rd]> g in
  d <- new_document ;;
  let instances : gmap string value := <["dict" := d]> ∅ in
  instances <- register g "Lattix" "Lattix" (construct "Lattix") instances ;;
  instances <-
    register g "EasyDict" "EasyDict" (construct "EasyDict") instances ;;
  instances <- register g "Addict" "Addict" (construct "Addict") instances ;;
  instances <- register g "Box" "Box" (construct "Box") instances ;;
  instances <-
    register g "TreeDict" "TreeDict" (construct "TreeDict") instances ;;
  instances <- register g "AttrsL1" "Attrs" construct_attrs instances ;;
  instances <-
    register g "DottedDict" "DottedDict" (construct "DottedDict") instances ;;
  Comp.ret (g, instances).

(** *** The timing primitive *)

Definition timer : M Q :=
  fun st =>
    (Ok (perf_counter w (st_ticks st)),
     {| st_heap := st_heap st; st_ticks := S (st_ticks st);
        st_trace := st_trace st; st_stdout := st_stdout st |}).

(** The module namespace of [timeit], which [Timer] uses when it is given
    no globals; it binds none of the names of the script. *)
Definition timeit_globals : namespace := ∅.

(** [Timer(stmt, setup, globals).timeit(number)], that is the function
    [inner] of [timeit]'s template: the setup once, a clock reading, the
    statement [number] times, a clock reading. *)
Definition timeit (s setup : stmt) (ns : namespace) (number : N) : M Q :=
  lift (exec ns setup) ;;;
  t0 <- timer ;;
  N.iter number
    (fun loop =>
       loop ;;; v <- lift (exec ns s) ;; log (EvExec s (ns !! "obj") v))
    (Comp.ret tt) ;;;
  t1 <- timer ;;
  Comp.ret (t1 - t0)%Q.

Definition run (s setup : stmt) (globals : option namespace)
  : M (option Q) :=
  let ns := default timeit_globals globals in
  fun st =>
    match (log (EvRun s (ns !! "obj")) ;;; timeit s setup ns ITER_N) st with
    | (Ok res, st') => (Ok (Some res), st')
    | (Raise e, st') =>
        if is_Exception e then (Ok None, st') else (Raise e, st')
    end.

(** *** The [__main__] block *)

(** [results[k]] *)
Definition results_get (k : string) (results : list (string * option Q))
  : M (option Q) :=
  match alist_get k results with
  | Some v => Comp.ret v
  | None => Comp.raise KeyError
  end.

(** The body of the loop after the [continue] test, down to [print]. *)
Definition measure (g : namespace) (instances : gmap string value)
    (entry : string * stmt * bool * bool)
  : M (list (string * option Q)) :=
  let '(name, init_stmt, support_key, support_dot) := entry in
  let results : list (string * option Q) :=
    [("init", None); ("read_k", None); ("read_d", None);
     ("write_k", None); ("write_d", None)] in
  r <- run init_stmt Pass (Some g) ;;
  let results := alist_set "init" r results in
  let obj := default VNone (instances !! name) in
  let setup_env : namespace := {[ "obj" := obj ]} in
  results <-
    (if support_key && is_not_None obj then
       r <- run READ_K Pass (Some setup_env) ;;
       Comp.ret (alist_set "read_k" r results)
     else Comp.ret results) ;;
  results <-
    (if support_dot && is_not_None obj then
       r <- run READ_D Pass (Some setup_env) ;;
       Comp.ret (alist_set "read_d" r results)
     else Comp.ret results) ;;
  results <-
    (if support_key && is_not_None obj then
       r <- run WRITE_K Pass (Some setup_env) ;;
       Comp.ret (alist_set "write_k" r results)
     else Comp.ret results) ;;
  results <-
    (if support_dot && is_not_None obj then
       r <- run WRITE_D Pass (Some setup_env) ;;
       Comp.ret (alist_set "write_d" r results)
     else Comp.ret results) ;;
  Comp.ret results.

Definition render_row (name : string) (results : list (string * option Q))
  : M string :=
  init <- results_get "init" results ;;
  read_k <- results_get "read_k" results ;;
  read_d <- results_get "read_d" results ;;
  write_k <- results_get "write_k" results ;;
  write_d <- results_get "write_d" results ;;
  Comp.ret
    (ljust 12 name ++ " | " ++ ljust 8 (format_res init) ++ " | "
     ++ ljust 8 (format_res read_k) ++ " | "
     ++ ljust 8 (format_res read_d) ++ " | "
     ++ ljust 8 (format_res write_k) ++ " | "
     ++ ljust 8 (format_res write_d))%string.

(** [name not in instances and name != "dict" and name != "Attrs"] *)
Definition skipped (instances : gmap string value) (name : string) : bool :=
  bool_decide (instances !! name = None)
  && negb (String.eqb name "dict") && negb (String.eqb name "Attrs").

Definition iteration (g : namespace) (instances : gmap string value)
    (entry : string * stmt * bool * bool) : M unit :=
  let name := entry.1.1.1 in
  if skipped instances name then Comp.ret tt
  else
    results <- measure g instances entry ;;
    row <- render_row name results ;;
    print row.

Fixpoint for_each {A} (body : A -> M unit) (l : list A) : M unit :=
  match l with
  | [] => Comp.ret tt
  | x :: l' => body x ;;; for_each body l'
  end.

Definition main (g : namespace) (instances : gmap string value) : M unit :=
  print ("Python Ver.: " ++ sys_version w) ;;;
  print ("Epoch: " ++ digits ITER_N) ;;;
  print header ;;;
  print (dashes 70) ;;;
  for_each (iteration g instances) libs.

Definition program : M unit :=
  gi <- lift module_init ;;
  main gi.1 gi.2.

End Harness.

Definition initial_state : state :=
  {| st_heap := []; st_ticks := 0; st_trace := []; st_stdout := [] |}.

(** ** The timing loop on the heap alone

    [exec_times ns s n] executes the statement up to [n] times and gives
    the values produced, the exception that stopped the repetition if one
    did, and the heap reached. *)
Definition exec_times (ns : namespace) (s : stmt) (n : N)
  : heap -> list value * option exn * heap :=
  N.iter n
    (fun loop h =>
       match loop h with
       | (vs, None, h') =>
           match exec ns s h' with
           | (Ok v, h'') => (vs ++ [v], None, h'')
           | (Raise e, h'') => (vs, Some e, h'')
           end
       | r => r
       end)
    (fun h => ([], None, h)).

(** One more turn of the loop of [timeit]: the statement is executed once
    more, and the execution logged. *)
Definition loop_body (ns : namespace) (s : stmt) (loop : M unit) : M unit :=
  loop ;;; v <- lift (exec ns s) ;; log (EvExec s (ns !! "obj") v).

Definition outcome_of (err : option exn) : outcome unit :=
  match err with None => Ok tt | Some e => Raise e end.

(** What [except Exception: return None] makes of an exception. *)
Definition catch (e : exn) : outcome (option Q) :=
  if is_Exception e then Ok None else Raise e.

Definition upd (st : state) (h : heap) (ticks : nat) (evs : list event)
  : state :=
  {| st_heap := h; st_ticks := ticks + st_ticks st;
     st_trace := st_trace st ++ evs; st_stdout := st_stdout st |}.

(** ** Reading the trace *)

Definition ev_stmt (ev : event) : stmt :=
  match ev with EvRun s _ | EvExec s _ _ => s end.

Definition ev_obj (ev : event) : option value :=
  match ev with EvRun _ o | EvExec _ o _ => o end.

(** The statements [run] was called on, in the order of the calls. *)
Definition runs_of (tr : list event) : list stmt :=
  omap (fun ev => match ev with EvRun s _ => Some s | EvExec _ _ _ => None end)
       tr.

(** The five cells of a row, in the order of the [results] dict. *)
Definition cells (r0 r1 r2 r3 r4 : option Q) : list (string * option Q) :=
  [("init", r0); ("read_k", r1); ("read_d", r2);
   ("write_k", r3); ("write_d", r4)].

(** The statements the loop body hands to [run] for an entry, given
    whether the key-style and the dot-style measurements are due. *)
Definition planned (init_stmt : stmt) (k d : bool) : list stmt :=
  init_stmt :: (if k then [READ_K] else []) ++ (if d then [READ_D] else [])
  ++ (if k then [WRITE_K] else []) ++ (if d then [WRITE_D] else []).

Definition row_text (name : string) (r0 r1 r2 r3 r4 : option Q) : string :=
  (ljust 12 name ++ " | " ++ ljust 8 (format_res r0) ++ " | "
   ++ ljust 8 (format_res r1) ++ " | " ++ ljust 8 (format_res r2) ++ " | "
   ++ ljust 8 (format_res r3) ++ " | " ++ ljust 8 (format_res r4))%string.

(** A computation of the harness that only times statements: from any
    state it extends the trace, prints nothing, raises at most an exception
    outside [Exception], and when it returns [a] after calling [run] on the
    statements [rs], [Q a rs] holds. *)
Definition traced {A} (c : M A) (Q : A -> list stmt -> Prop) : Prop :=
  forall st, exists r st' seg,
    c st = (r, st')
    /\ st_trace st' = st_trace st ++ seg
    /\ st_stdout st' = st_stdout st
    /\ match r with
       | Raise e => is_Exception e = false
       | Ok a => Q a (runs_of seg)
       end.

(** ** The nested document on the heap *)

Definition leaf_obj (c : class_id) (v : value) : object :=
  {| o_class := c; o_slots := [("level3", v)] |}.
Definition mid_obj (c : class_id) (b : nat) : object :=
  {| o_class := c; o_slots := [("level2", VRef b)] |}.
Definition top_obj (c : class_id) (b : nat) : object :=
  {| o_class := c; o_slots := [("level1", VRef (S b))] |}.

(** The three objects of a document whose innermost object is at [b]. *)
Definition doc_objs (c3 c2 c1 : class_id) (leaf : value) (b : nat) : heap :=
  [leaf_obj c3 leaf; mid_obj c2 b; top_obj c1 b].

(** The heap holds, from location [b] on, a document of the given classes
    whose ["level3"] is [leaf]; the document is referred to as
    [VRef (S (S b))]. *)
Definition doc_at (c3 c2 c1 : class_id) (leaf : value) (b : nat) (h : heap)
  : Prop :=
  h !! b = Some (leaf_obj c3 leaf)
  /\ h !! S b = Some (mid_obj c2 b)
  /\ h !! S (S b) = Some (top_obj c1 b).

Definition keyed (c3 c2 c1 : class_id) : bool :=
  subscriptable c1 && subscriptable c2 && subscriptable c3.

Definition dotted3 (c3 c2 c1 : class_id) : bool :=
  dotted c1 && dotted c2 && dotted c3.

Definition obj_env (o : value) : namespace := {[ "obj" := o ]}.

Definition raw_doc (h : heap) : Prop :=
  doc_at DictCls DictCls DictCls (VInt 100) 0 h.

Definition is_read (s : stmt) : Prop := s = READ_K \/ s = READ_D.
Definition is_write (s : stmt) : Prop := s = WRITE_K \/ s = WRITE_D.

(** An Init statement of the registry: not one of the four access
    statements, and wherever the input document is in place it succeeds and
    only allocates. *)
Definition init_good (g : namespace) (s : stmt) : Prop :=
  ~ is_read s /\ ~ is_write s /\
  forall h, raw_doc h -> exists v junk, exec g s h = (Ok v, h ++ junk).

Definition observes_100 (ev : event) : Prop :=
  match ev with
  | EvExec _ _ v => v = VInt 100
  | EvRun _ _ => True
  end.

(** The events of one loop body on the instance [o]: those of the Init
    measurement, then those of the reads, all on [o] and all yielding 100,
    then those of the writes, all on [o]. *)
Definition seg_ok (o : value) (seg : list event) : Prop :=
  exists inits reads writes,
    seg = inits ++ reads ++ writes
    /\ Forall (fun ev => ~ is_read (ev_stmt ev) /\ ~ is_write (ev_stmt ev))
              inits
    /\ Forall (fun ev => ev_obj ev = Some o /\ is_read (ev_stmt ev)
                         /\ observes_100 ev) reads
    /\ Forall (fun ev => ev_obj ev = Some o /\ is_write (ev_stmt ev)) writes.

(** ** Invariants of the run *)

(** The globals the module body leaves: the first object it allocates is
    the innermost dict of [raw_data], so [raw_data] is at location 2. *)
Definition module_globals (w : world) : namespace :=
  <["raw_data" := VRef 2]> (<["ITER_N" := VInt (Z.of_N ITER_N)]> (imports w)).

(** The import guards of the collaborator classes: module and class name. *)
Definition guards : list (string * string) :=
  [("lattix", "Lattix"); ("easydict", "EasyDict"); ("addict", "Addict");
   ("box", "Box"); ("treedict", "TreeDict"); ("dotted_dict", "DottedDict")].

(** Every instance is a document of its own on the heap, above the input
    document; its leaf is one of the three values the script stores, and
    100 as long as the entry is [fresh], that is not yet measured. *)
Definition inst_docs (fresh : string -> Prop) (inst : gmap string value)
    (h : heap) : Prop :=
  forall name v, inst !! name = Some v ->
    exists b c3 c2 c1 leaf,
      v = VRef (S (S b)) /\ 3 <= b /\ doc_at c3 c2 c1 leaf b h
      /\ (leaf = VInt 100 \/ leaf = VInt 200 \/ leaf = VInt 300)
      /\ (fresh name -> leaf = VInt 100).

Definition heap_ok (fresh : string -> Prop) (inst : gmap string value)
    (h : heap) : Prop :=
  raw_doc h /\ inst_docs fresh inst h.

Definition inst_inj (inst : gmap string value) : Prop :=
  forall n1 n2 v, inst !! n1 = Some v -> inst !! n2 = Some v -> n1 = n2.

(** What the main block relies on about the globals and the instances. *)
Definition env_ok (g : namespace) (inst : gmap string value) : Prop :=
  (forall name init_stmt sk sd,
      In (name, init_stmt, sk, sd) libs -> is_Some (inst !! name) ->
      init_good g init_stmt)
  /\ inst_inj inst
  /\ is_Some (inst !! "dict") /\ is_Some (inst !! "Attrs").

(** Where the instances come from. *)
Definition provenance (w : world) (inst : gmap string value) : Prop :=
  forall name, is_Some (inst !! name) ->
    name = "dict"
    \/ (exists m impl, In (m, name) guards /\ site_packages w !! m = Some impl
                       /\ ctor_raises impl = None)
    \/ (name = "Attrs" /\ attrs_installed w = true).

(** The state of the module body while the instances are being built. *)
Definition built (w : world) (inst : gmap string value) (h : heap) : Prop :=
  heap_ok (fun _ => True) inst h /\ inst_inj inst /\ provenance w inst
  /\ is_Some (inst !! "dict").

(** No read of an object comes after a write of the same object. *)
Definition reads_before_writes (tr : list event) : Prop :=
  forall i j evw evr,
    tr !! i = Some evw -> tr !! j = Some evr ->
    is_write (ev_stmt evw) -> is_read (ev_stmt evr) ->
    ev_obj evw = ev_obj evr -> j < i.

(** A trace of the main loop, [done] being the instances measured so far:
    every read yielded 100, every write was on a measured instance, and
    reads come before writes. *)
Definition trace_ok (done : value -> Prop) (tr : list event) : Prop :=
  (forall ev, ev ∈ tr -> is_read (ev_stmt ev) -> observes_100 ev)
  /\ (forall ev, ev ∈ tr -> is_write (ev_stmt ev) ->
      exists o, ev_obj ev = Some o /\ done o)
  /\ reads_before_writes tr.

Definition entry_name (entry : string * stmt * bool * bool) : string :=
  entry.1.1.1.

(** The statements timed for an entry in a run where every processed entry
    has an instance. *)
Definition plan (inst : gmap string value)
    (entry : string * stmt * bool * bool) : list stmt :=
  let '(name, init_stmt, sk, sd) := entry in
  match inst !! name with
  | Some _ => planned init_stmt sk sd
  | None => []
  end.

(** The entries of the registry the loop does not skip. *)
Definition active (inst : gmap string value)
    (l : list (string * stmt * bool * bool))
  : list (string * stmt * bool * bool) :=
  List.filter (fun e => negb (skipped inst (entry_name e))) l.

(** A printed row of an entry: its name and five cells, those of an
    unsupported access style being [None]. *)
Definition row_of (entry : string * stmt * bool * bool) (row : string)
  : Prop :=
  let '(name, _, sk, sd) := entry in
  exists r0 r1 r2 r3 r4,
    row = row_text name r0 r1 r2 r3 r4
    /\ (sk = false -> r1 = None /\ r3 = None)
    /\ (sd = false -> r2 = None /\ r4 = None).

(** ** The run as a whole *)

(** The four lines printed before the table rows. *)
Definition banner (w : world) : list string :=
  [("Python Ver.: " ++ sys_version w)%string;
   ("Epoch: " ++ digits ITER_N)%string; header; dashes 70].

(** The state in which the loop over [libs] starts, the module body having
    left the heap [h]. *)
Definition loop_start (w : world) (h : heap) : state :=
  {| st_heap := h; st_ticks := 0; st_trace := []; st_stdout := banner w |}.

(** What can be seen of a value by following references, to a depth. *)
Inductive tree : Type :=
| Leaf (v : value)
| Node (c : class_id) (items : list (string * tree)).

Fixpoint snapshot (depth : nat) (h : heap) (v : value) : tree :=
  match depth with
  | O => Leaf v
  | S depth' =>
      match v with
      | VRef l =>
          match h !! l with
          | Some o =>
              Node (o_class o)
                   (map (fun kv => (kv.1, snapshot depth' h kv.2)) (o_slots o))
          | None => Leaf v
          end
      | _ => Leaf v
      end
  end.

(** ** Sample environments *)

(** A clock that advances by an eighth of a second per reading. *)
Definition clock (n : nat) : Q := Z.of_nat n # 8.

(** A collaborator that implements both access styles. *)
Definition both_styles : collaborator :=
  {| ctor_raises := None; has_getitem := true; has_getattr := true |}.

(** A collaborator whose constructor always raises [TypeError]. *)
Definition failing_ctor : collaborator :=
  {| ctor_raises := Some TypeError; has_getitem := true; has_getattr := true |}.

(** [lattix] and [attrs] can be imported, the other libraries cannot. *)
Definition world_lattix : world :=
  {| site_packages := {[ "lattix" := both_styles ]};
     attrs_installed := true;
     perf_counter := clock;
     sys_version := "3.12.0" |}.

(** As [world_lattix], without [attrs]. *)
Definition world_no_attrs : world :=
  {| site_packages := {[ "lattix" := both_styles ]};
     attrs_installed := false;
     perf_counter := clock;
     sys_version := "3.12.0" |}.

(** As [world_lattix], the constructor of [Lattix] raising. *)
Definition world_failing_ctor : world :=
  {| site_packages := {[ "lattix" := failing_ctor ]};
     attrs_installed := true;
     perf_counter := clock;
     sys_version := "3.12.0" |}.

(** The globals, the instances and the heap the module body leaves; empty
    when it raises. *)
Definition globals_of (w : world) : namespace :=
  match module_init w [] with
  | (Ok (g, _), _) => g
  | _ => ∅
  end.

Definition instances_of (w : world) : gmap string value :=
  match module_init w [] with
  | (Ok (_, inst), _) => inst
  | _ => ∅
  end.

Definition heap_of (w : world) : heap := (module_init w []).2.

(** ** Reading a rendered cell *)

Definition is_digit (c : ascii) : bool :=
  ((48 <=? N_of_ascii c) && (N_of_ascii c <=? 57))%N.

Fixpoint all_digits (s : string) : bool :=
  match s with
  | EmptyString => true
  | String c s' => is_digit c && all_digits s'
  end.

(** A fixed-precision decimal: an optional sign, at least one digit, a
    point, and exactly five digits. *)
Definition five_decimals (s : string) : Prop :=
  exists sign int frac,
    s = (sign ++ int ++ "." ++ frac)%string
    /\ (sign = EmptyString \/ sign = "-")
    /\ int <> EmptyString /\ all_digits int = true
    /\ all_digits frac = true /\ String.length frac = 5.

(** The keys of the [results] dict, in insertion order. *)
Definition result_keys : list string :=
  ["init"; "read_k"; "read_d"; "write_k"; "write_d"].

(** A printed row with the name of its entry and five cells. *)
Definition five_cells (entry : string * stmt * bool * bool) (row : string)
  : Prop :=
  exists r0 r1 r2 r3 r4, row = row_text (entry_name entry) r0 r1 r2 r3 r4.

(** ** Notions for the further properties *)

(** A timing: the difference of two consecutive readings of the clock. *)
Definition reading (w : world) (d : Q) : Prop :=
  exists t, d = (perf_counter w (S t) - perf_counter w t)%Q.

(** A cell that holds the timing [d] when the measurement is [due] and
    succeeds, and nothing otherwise. *)
Definition cell (due : bool) (d : Q) : option Q :=
  if due then Some d else None.

(** The value under ["level3"] once the writes of a turn are over: the dot
    write, when it is done, comes last. *)
Definition final_leaf (key_written dot_written : bool) : value :=
  if dot_written then VInt 300
  else if key_written then VInt 200 else VInt 100.

(** No importable collaborator has a constructor that raises. *)
Definition ctors_ok (w : world) : Prop :=
  forall m X impl,
    In (m, X) guards -> site_packages w !! m = Some impl ->
    ctor_raises impl = None.

(** The block of import guards with [treedict] guarded once. *)
Definition imports_once (w : world) : namespace :=
  let g : namespace := ∅ in
  let g := import_guard w "lattix" "Lattix" g in
  let g := import_guard w "easydict" "EasyDict" g in
  let g := import_guard w "addict" "Addict" g in
  let g := import_guard w "box" "Box" g in
  let g := import_guard w "treedict" "TreeDict" g in
  let g := import_guard w "dotted_dict" "DottedDict" g in
  import_attrs w g.

(** A result that its column of width 8 can hold: none, or a timing from 0
    to 99 seconds. *)
Definition cell_fits (r : option Q) : Prop :=
  match r with
  | None => True
  | Some v => (0 <= v)%Q /\ (v < 99)%Q
  end.

(** The instance of [dict]: the second document that the module body
    builds, after [raw_data]. *)
Definition dict_at (inst : gmap string value) (h : heap) : Prop :=
  inst !! "dict" = Some (VRef 5)
  /\ doc_at DictCls DictCls DictCls (VInt 100) 3 h.

(** * Properties *)

(** ** The monad *)

Lemma bind_Ok {S A B} (c : Comp.t S A) (k : A -> Comp.t S B) s a s' :
  c s = (Ok a, s') -> Comp.bind c k s = k a s'.
Proof. unfold Comp.bind. now intros ->. Qed.

Lemma bind_Raise {S A B} (c : Comp.t S A) (k : A -> Comp.t S B) s e s' :
  c s = (Raise e, s') -> Comp.bind c k s = (Raise e, s').
Proof. unfold Comp.bind. now intros ->. Qed.

Lemma upd_upd st h1 t1 evs1 h2 t2 evs2 :
  upd (upd st h1 t1 evs1) h2 t2 evs2 = upd st h2 (t2 + t1) (evs1 ++ evs2).
Proof.
  unfold upd; cbn. f_equal; [lia | now rewrite <- app_assoc].
Qed.

Lemma upd_id st : upd st (st_heap st) 0 [] = st.
Proof. destruct st; unfold upd; cbn. now rewrite app_nil_r. Qed.

Lemma lift_eq {A} (c : H A) st r h :
  c (st_heap st) = (r, h) -> lift c st = (r, upd st h 0 []).
Proof.
  unfold lift, upd. intros ->. cbn. now rewrite app_nil_r.
Qed.

Lemma log_eq ev st : log ev st = (Ok tt, upd st (st_heap st) 0 [ev]).
Proof. reflexivity. Qed.

Lemma timer_eq w st :
  timer w st = (Ok (perf_counter w (st_ticks st)), upd st (st_heap st) 1 []).
Proof. unfold timer, upd; cbn. now rewrite app_nil_r. Qed.

(** ** The timing primitive *)

Section Timing.

Variable w : world.
Variables (ns : namespace) (s : stmt).

Local Abbreviation body := (loop_body ns s).

Lemma exec_times_succ n h :
  exec_times ns s (N.succ n) h =
  match exec_times ns s n h with
  | (vs, None, h') =>
      match exec ns s h' with
      | (Ok v, h'') => (vs ++ [v], None, h'')
      | (Raise e, h'') => (vs, Some e, h'')
      end
  | r => r
  end.
Proof. unfold exec_times. now rewrite N.iter_succ. Qed.

(** The loop of [timeit] does on the state what [exec_times] does on the
    heap, and logs one event per value. *)
Lemma loop_char n st :
  N.iter n body (Comp.ret tt) st =
  let '(vs, err, h) := exec_times ns s n (st_heap st) in
  (outcome_of err, upd st h 0 (map (EvExec s (ns !! "obj")) vs)).
Proof.
  induction n as [|n IH] using N.peano_ind.
  - cbn. now rewrite upd_id.
  - rewrite N.iter_succ, exec_times_succ. unfold loop_body at 1.
    unfold Comp.bind at 1. rewrite IH.
    destruct (exec_times ns s n (st_heap st)) as [[vs [e|]] h]; cbn [outcome_of].
    + reflexivity.
    + unfold Comp.bind.
      destruct (exec ns s h) as [[v|e] h'] eqn:E.
      * erewrite lift_eq by (cbn; exact E). cbv iota beta.
        rewrite log_eq. cbn [st_heap upd].
        rewrite !upd_upd. cbn. now rewrite map_app.
      * erewrite lift_eq by (cbn; exact E). cbv iota beta.
        rewrite upd_upd. cbn. now rewrite app_nil_r.
Qed.

Lemma exec_times_length n h vs h' :
  exec_times ns s n h = (vs, None, h') -> length vs = N.to_nat n.
Proof.
  revert vs h'. induction n as [|n IH] using N.peano_ind; intros vs h'.
  - cbn. now intros [= <- _].
  - rewrite exec_times_succ, N2Nat.inj_succ.
    destruct (exec_times ns s n h) as [[vs0 [e|]] h0]; [discriminate|].
    destruct (exec ns s h0) as [[v|e] h1]; [|discriminate].
    intros [= <- _]. rewrite length_app. cbn. rewrite (IH _ _ eq_refl). lia.
Qed.

Lemma exec_times_le n h vs err h' :
  exec_times ns s n h = (vs, err, h') -> length vs <= N.to_nat n.
Proof.
  revert vs err h'. induction n as [|n IH] using N.peano_ind; intros vs err h'.
  - cbn. intros [= <- _ _]. cbn. lia.
  - rewrite exec_times_succ, N2Nat.inj_succ.
    destruct (exec_times ns s n h) as [[vs0 [e|]] h0] eqn:E.
    + intros [= <- _ _]. specialize (IH _ _ _ eq_refl). lia.
    + specialize (IH _ _ _ eq_refl).
      destruct (exec ns s h0) as [[v|e] h1]; intros [= <- _ _];
        rewrite ?length_app; cbn; lia.
Qed.

(** [timeit] in terms of the heap. *)
Lemma timeit_char setup number st :
  timeit w s setup ns number st =
  match exec ns setup (st_heap st) with
  | (Raise e, h) => (Raise e, upd st h 0 [])
  | (Ok _, h) =>
      match exec_times ns s number h with
      | (vs, None, h') =>
          (Ok (perf_counter w (S (st_ticks st))
               - perf_counter w (st_ticks st))%Q,
           upd st h' 2 (map (EvExec s (ns !! "obj")) vs))
      | (vs, Some e, h') =>
          (Raise e, upd st h' 1 (map (EvExec s (ns !! "obj")) vs))
      end
  end.
Proof.
  unfold timeit. unfold Comp.bind at 1.
  destruct (exec ns setup (st_heap st)) as [[v|e] h] eqn:E;
    erewrite lift_eq by exact E; cbv iota beta; [|reflexivity].
  unfold Comp.bind at 1. rewrite timer_eq. cbv iota beta.
  unfold Comp.bind at 1.
  change (N.iter number _ (Comp.ret tt)) with (N.iter number body (Comp.ret tt)).
  rewrite loop_char. cbn [st_heap upd].
  destruct (exec_times ns s number h) as [[vs [e|]] h']; cbn [outcome_of].
  - cbv iota beta. unfold upd; cbn. now rewrite !app_nil_r.
  - cbv iota beta. unfold Comp.bind. rewrite timer_eq. cbn.
    unfold upd; cbn. now rewrite !app_nil_r.
Qed.

End Timing.

(** [run] in terms of the heap: the elapsed time of [ITER_N] executions
    when none raises, [None] for an exception that derives from
    [Exception], and the exception itself otherwise. *)
Lemma run_char w s setup globals st :
  let ns := default (timeit_globals) globals in
  let o := ns !! "obj" in
  run w s setup globals st =
  match exec ns setup (st_heap st) with
  | (Raise e, h) => (catch e, upd st h 0 [EvRun s o])
  | (Ok _, h) =>
      match exec_times ns s ITER_N h with
      | (vs, None, h') =>
          (Ok (Some (perf_counter w (S (st_ticks st))
                     - perf_counter w (st_ticks st))%Q),
           upd st h' 2 (EvRun s o :: map (EvExec s o) vs))
      | (vs, Some e, h') =>
          (catch e, upd st h' 1 (EvRun s o :: map (EvExec s o) vs))
      end
  end.
Proof.
  intros ns o. unfold run. fold ns. unfold Comp.bind at 1.
  rewrite log_eq, timeit_char. cbn [st_heap upd st_ticks]. fold o.
  destruct (exec ns setup (st_heap st)) as [[v|e] h].
  - destruct (exec_times ns s ITER_N h) as [[vs [e|]] h'];
      rewrite upd_upd; cbn [app]; unfold catch;
      try destruct (is_Exception e); reflexivity.
  - rewrite upd_upd. cbn. unfold catch. destruct (is_Exception e); reflexivity.
Qed.

(** ** The loop body, for any registry entry *)

Lemma runs_of_app tr1 tr2 : runs_of (tr1 ++ tr2) = runs_of tr1 ++ runs_of tr2.
Proof. apply omap_app. Qed.

Lemma runs_of_execs s o vs : runs_of (map (EvExec s o) vs) = [].
Proof. induction vs; [reflexivity | exact IHvs]. Qed.

Lemma runs_of_run s o vs : runs_of (EvRun s o :: map (EvExec s o) vs) = [s].
Proof. unfold runs_of. cbn. fold (runs_of (map (EvExec s o) vs)).
  now rewrite runs_of_execs. Qed.

(** Whatever the statement does, [run] appends its call and the executions
    to the trace, prints nothing, and lets only an exception outside
    [Exception] through. *)
Lemma run_shape w s setup globals st :
  exists r st' seg,
    run w s setup globals st = (r, st')
    /\ st_trace st' = st_trace st ++ seg
    /\ runs_of seg = [s]
    /\ st_stdout st' = st_stdout st
    /\ match r with Raise e => is_Exception e = false | Ok _ => True end.
Proof.
  rewrite run_char. cbv zeta.
  set (ns := default timeit_globals globals). set (o := ns !! "obj").
  assert (Hc : forall e, match catch e with
                         | Raise e' => is_Exception e' = false
                         | Ok _ => True end).
  { intros e. unfold catch. destruct (is_Exception e) eqn:E; [exact I|exact E]. }
  destruct (exec ns setup (st_heap st)) as [[v|e] h];
    [destruct (exec_times ns s ITER_N h) as [[vs [e|]] h']|];
    eexists _, _, _; (split; [reflexivity|]); cbn;
    (split; [reflexivity|]); (split; [|split; [reflexivity|]]);
    try apply runs_of_run; try apply (runs_of_run s o []);
    try apply Hc; exact I.
Qed.

#[global] Opaque run.

Lemma traced_ret {A} (a : A) (Q : A -> list stmt -> Prop) :
  Q a [] -> traced (Comp.ret a) Q.
Proof.
  intros HQ st. exists (Ok a), st, []. rewrite app_nil_r. now repeat split.
Qed.

Lemma traced_pair {A} (a : A) (Q : A -> list stmt -> Prop) :
  Q a [] -> traced (pair (Ok a)) Q.
Proof. exact (traced_ret a Q). Qed.

Lemma traced_bind {A B} (c : M A) (k : A -> M B) Q1 Q :
  traced c Q1 ->
  (forall a, traced (k a) (fun b rs2 => forall rs1, Q1 a rs1 -> Q b (rs1 ++ rs2))) ->
  traced (Comp.bind c k) Q.
Proof.
  intros Hc Hk st. destruct (Hc st) as (r & st1 & seg1 & E & Ht & Ho & HQ).
  unfold Comp.bind. rewrite E. destruct r as [a|e].
  - destruct (Hk a st1) as (r2 & st2 & seg2 & E2 & Ht2 & Ho2 & HQ2).
    exists r2, st2, (seg1 ++ seg2). rewrite E2, Ht2, Ht, Ho2, Ho, <- app_assoc.
    repeat split. destruct r2; [|exact HQ2].
    rewrite runs_of_app. now apply HQ2.
  - exists (Raise e), st1, seg1. now repeat split.
Qed.

Lemma traced_run_bind {B} w s setup globals (k : option Q -> M B) Q :
  (forall r, traced (k r) (fun b rs => Q b (s :: rs))) ->
  traced (Comp.bind (run w s setup globals) k) Q.
Proof.
  intros Hk. apply traced_bind with (Q1 := fun _ rs => rs = [s]).
  - intros st. destruct (run_shape w s setup globals st)
      as (r & st' & seg & E & Ht & Hr & Ho & He).
    exists r, st', seg. repeat split; try assumption. now destruct r.
  - intros r st. destruct (Hk r st) as (r2 & st2 & seg2 & E2 & Ht2 & Ho2 & HQ2).
    exists r2, st2, seg2. repeat split; try assumption.
    destruct r2; [|assumption]. now intros rs1 ->.
Qed.

Lemma traced_assoc {A B C} (c : M A) (k1 : A -> M B) (k2 : B -> M C) Q :
  traced (Comp.bind c (fun a => Comp.bind (k1 a) k2)) Q ->
  traced (Comp.bind (Comp.bind c k1) k2) Q.
Proof.
  intros Hc st. destruct (Hc st) as (r & st' & seg & E & H).
  exists r, st', seg. split; [|exact H]. rewrite <- E. unfold Comp.bind.
  now destruct (c st) as [[a|e] st1].
Qed.

Lemma traced_ret_bind {A B} (a : A) (k : A -> M B) Q :
  traced (k a) Q -> traced (Comp.bind (Comp.ret a) k) Q.
Proof. intros Hc st. exact (Hc st). Qed.

Ltac traced_steps :=
  repeat first
    [ simple apply traced_assoc
    | simple apply traced_ret_bind
    | simple apply traced_run_bind; intros ?
    | simple apply traced_pair
    | simple apply traced_ret ].

(** The loop body on any entry: which statements it times and in what
    order, and the five cells it fills. *)
Lemma measure_generic w g inst name init_stmt sk sd :
  let obj := default VNone (inst !! name) in
  let k := sk && is_not_None obj in
  let d := sd && is_not_None obj in
  traced (measure w g inst (name, init_stmt, sk, sd))
    (fun results rs =>
       rs = planned init_stmt k d
       /\ exists r0 r1 r2 r3 r4,
           results = cells r0 r1 r2 r3 r4
           /\ (k = false -> r1 = None /\ r3 = None)
           /\ (d = false -> r2 = None /\ r4 = None)).
Proof.
  intros obj k d. unfold measure. fold obj. fold k. fold d.
  destruct k, d; traced_steps; cbv beta; (split; [reflexivity|]);
    eexists _, _, _, _, _; (split; [reflexivity|]);
    split; intros; try discriminate; now split.
Qed.

(** ** Executing the statements on the heap *)

Lemma getitem_ref h l o k :
  h !! l = Some o ->
  getitem (VRef l) k h =
  (if subscriptable (o_class o) then
     match alist_get k (o_slots o) with
     | Some x => Ok x
     | None => Raise KeyError
     end
   else Raise TypeError, h).
Proof.
  intros Hl. unfold getitem, Comp.bind, deref. rewrite Hl.
  destruct (subscriptable (o_class o)); [|reflexivity].
  now destruct (alist_get k (o_slots o)).
Qed.

Lemma getattr_ref h l o a :
  h !! l = Some o ->
  getattr (VRef l) a h =
  (if dotted (o_class o) then
     match alist_get a (o_slots o) with
     | Some x => Ok x
     | None => Raise AttributeError
     end
   else Raise AttributeError, h).
Proof.
  intros Hl. unfold getattr, Comp.bind, deref. rewrite Hl.
  destruct (dotted (o_class o)); [|reflexivity].
  now destruct (alist_get a (o_slots o)).
Qed.

Lemma setitem_ref h l o k x :
  h !! l = Some o ->
  setitem (VRef l) k x h =
  if subscriptable (o_class o) then
    (Ok tt, <[l := {| o_class := o_class o;
                      o_slots := alist_set k x (o_slots o) |}]> h)
  else (Raise TypeError, h).
Proof.
  intros Hl. unfold setitem, Comp.bind, deref. rewrite Hl.
  now destruct (subscriptable (o_class o)).
Qed.

Lemma setattr_ref h l o a x y :
  h !! l = Some o -> alist_get a (o_slots o) = Some y ->
  setattr (VRef l) a x h =
  if dotted (o_class o) then
    (Ok tt, <[l := {| o_class := o_class o;
                      o_slots := alist_set a x (o_slots o) |}]> h)
  else (Raise AttributeError, h).
Proof.
  intros Hl Ha. unfold setattr, Comp.bind, deref. rewrite Hl.
  destruct o as [c slots]; cbn in *. destruct c; cbn; rewrite ?Ha; try reflexivity.
  now destruct (has_getattr impl).
Qed.

Lemma lookup_name_obj o x h :
  lookup_name (obj_env o) x h =
  if String.eqb x "obj" then (Ok o, h)
  else match builtins !! x with
       | Some v => (Ok v, h)
       | None => (Raise NameError, h)
       end.
Proof.
  unfold lookup_name, obj_env. destruct (String.eqb_spec x "obj") as [->|Hne].
  - now rewrite lookup_singleton_eq.
  - rewrite lookup_singleton_ne by congruence.
    now destruct (builtins !! x).
Qed.

Ltac red_doc :=
  cbn [alist_get alist_set String.eqb Ascii.eqb Bool.eqb o_class o_slots
       top_obj mid_obj leaf_obj andb fst snd].

Section Document.

Variables (c3 c2 c1 : class_id) (leaf : value) (b : nat) (h : heap).
Hypothesis Hdoc : doc_at c3 c2 c1 leaf b h.

Local Abbreviation o := (VRef (S (S b))).

Lemma eval_obj_level2 :
  eval (obj_env o) obj_level2 h =
  (if subscriptable c1 && subscriptable c2 then Ok (VRef b)
   else Raise TypeError, h).
Proof.
  destruct Hdoc as (H3 & H2 & H1).
  unfold obj_level2. cbn [eval]. unfold Comp.bind.
  rewrite lookup_name_obj. cbn [String.eqb Ascii.eqb Bool.eqb].
  rewrite (getitem_ref _ _ _ _ H1). red_doc.
  destruct (subscriptable c1); [|reflexivity]. red_doc.
  rewrite (getitem_ref _ _ _ _ H2). red_doc.
  now destruct (subscriptable c2).
Qed.

Lemma eval_obj_dot_level2 :
  eval (obj_env o) obj_dot_level2 h =
  (if dotted c1 && dotted c2 then Ok (VRef b)
   else Raise AttributeError, h).
Proof.
  destruct Hdoc as (H3 & H2 & H1).
  unfold obj_dot_level2. cbn [eval]. unfold Comp.bind.
  rewrite lookup_name_obj. cbn [String.eqb Ascii.eqb Bool.eqb].
  rewrite (getattr_ref _ _ _ _ H1). red_doc.
  destruct (dotted c1); [|reflexivity]. red_doc.
  rewrite (getattr_ref _ _ _ _ H2). red_doc.
  now destruct (dotted c2).
Qed.

Lemma exec_READ_K :
  exec (obj_env o) READ_K h =
  (if keyed c3 c2 c1 then Ok leaf else Raise TypeError, h).
Proof.
  unfold READ_K, keyed. cbn [exec eval]. unfold Comp.bind.
  rewrite eval_obj_level2.
  destruct (subscriptable c1 && subscriptable c2); [|reflexivity]. red_doc.
  destruct Hdoc as (H3 & _). rewrite (getitem_ref _ _ _ _ H3). red_doc.
  now destruct (subscriptable c3).
Qed.

Lemma exec_READ_D :
  exec (obj_env o) READ_D h =
  (if dotted3 c3 c2 c1 then Ok leaf else Raise AttributeError, h).
Proof.
  unfold READ_D, dotted3. cbn [exec eval]. unfold Comp.bind.
  rewrite eval_obj_dot_level2.
  destruct (dotted c1 && dotted c2); [|reflexivity]. red_doc.
  destruct Hdoc as (H3 & _). rewrite (getattr_ref _ _ _ _ H3). red_doc.
  now destruct (dotted c3).
Qed.

Lemma exec_WRITE_K :
  exec (obj_env o) WRITE_K h =
  if keyed c3 c2 c1 then (Ok VNone, <[b := leaf_obj c3 (VInt 200)]> h)
  else (Raise TypeError, h).
Proof.
  unfold WRITE_K, keyed. cbn [exec eval]. unfold Comp.bind at 1 2. cbn [Comp.ret].
  unfold Comp.bind at 1. rewrite eval_obj_level2.
  destruct (subscriptable c1 && subscriptable c2); [|reflexivity]. red_doc.
  destruct Hdoc as (H3 & _). unfold Comp.bind.
  rewrite (setitem_ref _ _ _ _ _ H3). red_doc.
  now destruct (subscriptable c3).
Qed.

Lemma exec_WRITE_D :
  exec (obj_env o) WRITE_D h =
  if dotted3 c3 c2 c1 then (Ok VNone, <[b := leaf_obj c3 (VInt 300)]> h)
  else (Raise AttributeError, h).
Proof.
  unfold WRITE_D, dotted3. cbn [exec eval]. unfold Comp.bind at 1 2. cbn [Comp.ret].
  unfold Comp.bind at 1. rewrite eval_obj_dot_level2.
  destruct (dotted c1 && dotted c2); [|reflexivity]. red_doc.
  destruct Hdoc as (H3 & _). unfold Comp.bind.
  rewrite (setattr_ref _ _ _ _ _ leaf H3) by reflexivity. red_doc.
  now destruct (dotted c3).
Qed.

(** Writing the leaf keeps the document in place. *)
Lemma doc_at_write v : doc_at c3 c2 c1 v b (<[b := leaf_obj c3 v]> h).
Proof.
  destruct Hdoc as (H3 & H2 & H1). unfold doc_at.
  rewrite list_lookup_insert_eq by (eapply lookup_lt_Some; eassumption).
  rewrite !list_lookup_insert_ne by lia. auto.
Qed.

Lemma doc_at_app junk : doc_at c3 c2 c1 leaf b (h ++ junk).
Proof.
  destruct Hdoc as (H3 & H2 & H1). unfold doc_at.
  rewrite !lookup_app_l by (eapply lookup_lt_Some; eassumption). auto.
Qed.

Lemma doc_at_length : S (S b) < length h.
Proof. destruct Hdoc as (_ & _ & H1). eapply lookup_lt_Some; eassumption. Qed.

End Document.

(** ** Repeating a statement *)

Section Repeating.

Variables (ns : namespace) (s : stmt).

(** A statement that leaves the heap as it is yields the same value each
    time. *)
Lemma exec_times_pure n h v :
  exec ns s h = (Ok v, h) ->
  exec_times ns s n h = (replicate (N.to_nat n) v, None, h).
Proof.
  intros E. induction n as [|n IH] using N.peano_ind; [reflexivity|].
  rewrite exec_times_succ, IH, E, N2Nat.inj_succ.
  f_equal. f_equal. change (replicate (S (N.to_nat n)) v)
    with (v :: replicate (N.to_nat n) v).
  now rewrite replicate_cons_app.
Qed.

(** A statement that raises the first time is not executed again. *)
Lemma exec_times_fail n h e h' :
  exec ns s h = (Raise e, h') -> (0 < n)%N ->
  exec_times ns s n h = ([], Some e, h').
Proof.
  intros E. induction n as [|n IH] using N.peano_ind; [lia|]. intros _.
  rewrite exec_times_succ. destruct (N.eq_dec n 0%N) as [->|Hn].
  - cbn. now rewrite E.
  - rewrite IH by lia. reflexivity.
Qed.

(** A statement whose effect is the same from the heap it produces. *)
Lemma exec_times_idem n h v h' :
  exec ns s h = (Ok v, h') -> exec ns s h' = (Ok v, h') -> (0 < n)%N ->
  exec_times ns s n h = (replicate (N.to_nat n) v, None, h').
Proof.
  intros E E'. induction n as [|n IH] using N.peano_ind; [lia|]. intros _.
  rewrite exec_times_succ, N2Nat.inj_succ.
  change (replicate (S (N.to_nat n)) v) with (v :: replicate (N.to_nat n) v).
  rewrite replicate_cons_app.
  destruct (N.eq_dec n 0%N) as [->|Hn].
  - cbn. now rewrite E.
  - rewrite IH by lia. now rewrite E'.
Qed.

(** A statement that succeeds from every heap satisfying [P] and keeps
    [P]. *)
Lemma exec_times_inv (P : heap -> Prop) n h :
  (forall h0, P h0 -> exists v h1, exec ns s h0 = (Ok v, h1) /\ P h1) ->
  P h ->
  exists vs h', exec_times ns s n h = (vs, None, h') /\ P h'.
Proof.
  intros Hstep HP. induction n as [|n IH] using N.peano_ind.
  - exists [], h. now split.
  - destruct IH as (vs & h' & E & HP'). rewrite exec_times_succ, E.
    destruct (Hstep h' HP') as (v & h1 & E1 & HP1). rewrite E1.
    now exists (vs ++ [v]), h1.
Qed.

End Repeating.

Lemma ITER_N_pos : (0 < ITER_N)%N.
Proof. reflexivity. Qed.

Lemma exec_Pass ns h : exec ns Pass h = (Ok VNone, h).
Proof. reflexivity. Qed.

Lemma obj_env_obj o : obj_env o !! "obj" = Some o.
Proof. apply lookup_singleton_eq. Qed.

#[global] Opaque ITER_N.

(** ** The four measurements on a document *)

Section Measurements.

Variable w : world.
Variables (c3 c2 c1 : class_id) (leaf : value) (b : nat).

Local Abbreviation o := (VRef (S (S b))).

(** A read is timed on the heap as it is: each execution yields the
    leaf, or the first one raises and the cell is [None]. *)
Lemma run_read s st :
  doc_at c3 c2 c1 leaf b (st_heap st) ->
  s = READ_K \/ s = READ_D ->
  exists r t vs,
    run w s Pass (Some (obj_env o)) st =
    (Ok r, upd st (st_heap st) t (EvRun s (Some o) :: map (EvExec s (Some o)) vs))
    /\ Forall (eq leaf) vs.
Proof.
  intros Hdoc Hs. rewrite run_char. cbv zeta. cbn [from_option id].
  rewrite obj_env_obj, exec_Pass.
  assert (E : exists e (ok : bool), exec (obj_env o) s (st_heap st) =
            (if ok then Ok leaf else Raise e, st_heap st)
            /\ is_Exception e = true).
  { destruct Hs as [-> | ->].
    - exists TypeError, (keyed c3 c2 c1).
      split; [|reflexivity]. erewrite exec_READ_K; eauto.
    - exists AttributeError, (dotted3 c3 c2 c1).
      split; [|reflexivity]. erewrite exec_READ_D; eauto. }
  destruct E as (e & ok & E & He). destruct ok.
  - rewrite (exec_times_pure _ _ _ _ _ E).
    eexists _, _, _. split; [reflexivity|]. apply Forall_replicate_eq.
  - rewrite (exec_times_fail _ _ _ _ _ _ E ITER_N_pos).
    unfold catch. rewrite He. eexists _, _, []. split; [reflexivity|]. constructor.
Qed.

(** A write is timed: the leaf becomes the written value, or the first
    execution raises, the heap is unchanged and the cell is [None]. *)
Lemma run_write s v st :
  doc_at c3 c2 c1 leaf b (st_heap st) ->
  (s = WRITE_K /\ v = VInt 200) \/ (s = WRITE_D /\ v = VInt 300) ->
  exists r t vs leaf',
    run w s Pass (Some (obj_env o)) st =
    (Ok r, upd st (<[b := leaf_obj c3 leaf']> (st_heap st)) t
             (EvRun s (Some o) :: map (EvExec s (Some o)) vs))
    /\ (leaf' = leaf \/ leaf' = v).
Proof.
  intros Hdoc Hs. rewrite run_char. cbv zeta. cbn [from_option id].
  rewrite obj_env_obj, exec_Pass.
  pose proof (doc_at_write _ _ _ _ _ _ Hdoc v) as Hdoc'.
  assert (E : exists e (ok : bool),
            exec (obj_env o) s (st_heap st) =
            (if ok then (Ok VNone, <[b := leaf_obj c3 v]> (st_heap st))
             else (Raise e, st_heap st))
            /\ exec (obj_env o) s (<[b := leaf_obj c3 v]> (st_heap st)) =
               (if ok then (Ok VNone, <[b := leaf_obj c3 v]> (st_heap st))
                else (Raise e, <[b := leaf_obj c3 v]> (st_heap st)))
            /\ is_Exception e = true).
  { destruct Hs as [[-> ->] | [-> ->]].
    - exists TypeError, (keyed c3 c2 c1).
      rewrite (exec_WRITE_K _ _ _ _ _ _ Hdoc), (exec_WRITE_K _ _ _ _ _ _ Hdoc').
      rewrite list_insert_insert_eq. now destruct (keyed c3 c2 c1).
    - exists AttributeError, (dotted3 c3 c2 c1).
      rewrite (exec_WRITE_D _ _ _ _ _ _ Hdoc), (exec_WRITE_D _ _ _ _ _ _ Hdoc').
      rewrite list_insert_insert_eq. now destruct (dotted3 c3 c2 c1). }
  destruct E as (e & ok & E & E' & He). destruct ok.
  - rewrite (exec_times_idem _ _ _ _ _ _ E E' ITER_N_pos).
    eexists _, _, _, v. split; [reflexivity|]. now right.
  - rewrite (exec_times_fail _ _ _ _ _ _ E ITER_N_pos).
    unfold catch. rewrite He. eexists _, _, [], leaf.
    split; [|now left].
    rewrite (list_insert_id (st_heap st) b (leaf_obj c3 leaf)) by apply Hdoc.
    reflexivity.
Qed.

End Measurements.

(** ** The constructions *)

Lemma doc_at_0_inv c3 c2 c1 leaf h :
  doc_at c3 c2 c1 leaf 0 h ->
  exists rest, h = leaf_obj c3 leaf :: mid_obj c2 0 :: top_obj c1 0 :: rest.
Proof.
  intros (H3 & H2 & H1). destruct h as [|o0 [|o1 [|o2 rest]]]; try discriminate.
  cbn in H3, H2, H1. exists rest. congruence.
Qed.

Lemma heap_snoc3 (h : heap) (x y z : object) :
  ((h ++ [x]) ++ [y]) ++ [z] = h ++ [x; y; z].
Proof. now rewrite <- !app_assoc. Qed.

Lemma length_snoc (h : heap) (x : object) : length (h ++ [x]) = S (length h).
Proof. rewrite length_app. cbn. lia. Qed.

Lemma eval_construct_dict g h :
  g !! "dict" = None -> g !! "raw_data" = Some (VRef 2) -> raw_doc h ->
  eval g (construct "dict") h =
  (Ok (VRef (length h)), h ++ [top_obj DictCls 0]).
Proof.
  intros Hd Hr Hdoc. destruct (doc_at_0_inv _ _ _ _ _ Hdoc) as (rest & ->).
  unfold construct. cbn [eval]. unfold Comp.bind, lookup_name.
  rewrite Hd, Hr. reflexivity.
Qed.

Lemma eval_construct_lib g X impl kw h :
  g !! X = Some (VClass (LibCls X impl)) -> ctor_raises impl = None ->
  g !! "raw_data" = Some (VRef 2) -> raw_doc h ->
  kw = [] \/ kw = [("lazy_create", Const (VBool true))] ->
  eval g (Call (Name X) [Name "raw_data"] kw) h =
  (Ok (VRef (S (S (length h)))),
   h ++ doc_objs (LibCls X impl) (LibCls X impl) (LibCls X impl)
          (VInt 100) (length h)).
Proof.
  intros HX Hc Hr Hdoc Hkw. destruct (doc_at_0_inv _ _ _ _ _ Hdoc) as (rest & ->).
  cbn [eval]. unfold Comp.bind at 1 2, lookup_name at 1 2. rewrite HX, Hr.
  cbn [Comp.ret].
  assert (E : forall h0 : heap, exists kvs,
             (fix evs (l : list (string * expr)) : H (list (string * value)) :=
                match l with
                | [] => Comp.ret []
                | (k, a) :: l' =>
                    v <- eval g a;; kvs <- evs l';; Comp.ret ((k, v) :: kvs)
                end) kw h0 = (Ok kvs, h0)).
  { intros h0. destruct Hkw as [-> | ->]; eexists; reflexivity. }
  unfold Comp.bind at 1. unfold Comp.bind at 1. cbn [Comp.ret].
  unfold Comp.bind at 1.
  match goal with |- context [?f kw ?h0] =>
    destruct (E h0) as (kvs & ->) end.
  unfold call, lib_new. rewrite Hc. unfold doc_objs, recursion_limit.
  cbn. unfold alloc. cbn. rewrite !length_app. cbn. rewrite <- !app_assoc. cbn.
  unfold leaf_obj, mid_obj, top_obj.
  replace (length rest + 1 + 1) with (S (S (length rest))) by lia.
  replace (length rest + 1) with (S (length rest)) by lia.
  reflexivity.
Qed.

Lemma eval_construct_raises g X impl e h :
  g !! X = Some (VClass (LibCls X impl)) -> ctor_raises impl = Some e ->
  g !! "raw_data" = Some (VRef 2) ->
  eval g (construct X) h = (Raise e, h).
Proof.
  intros HX Hc Hr. unfold construct.
  cbn [eval]. unfold Comp.bind, lookup_name. rewrite HX, Hr. cbn.
  unfold lib_new. now rewrite Hc.
Qed.

Lemma eval_construct_attrs g h :
  g !! "AttrsL1" = Some (VClass AttrsL1) ->
  g !! "AttrsL2" = Some (VClass AttrsL2) ->
  g !! "AttrsL3" = Some (VClass AttrsL3) ->
  eval g construct_attrs h =
  (Ok (VRef (S (S (length h)))),
   h ++ doc_objs AttrsL3 AttrsL2 AttrsL1 (VInt 100) (length h)).
Proof.
  intros H1 H2 H3. unfold construct_attrs. cbn [eval].
  unfold Comp.bind, lookup_name. rewrite H1. cbn [Comp.ret].
  rewrite H2. cbn [Comp.ret]. rewrite H3. cbn.
  unfold alloc. cbn. rewrite !length_app. cbn. rewrite <- !app_assoc. cbn.
  unfold doc_objs, leaf_obj, mid_obj, top_obj.
  replace (length h + 1 + 1) with (S (S (length h))) by lia.
  replace (length h + 1) with (S (length h)) by lia.
  reflexivity.
Qed.

Lemma not_access_Call f args kw :
  ~ is_read (Expr (Call f args kw)) /\ ~ is_write (Expr (Call f args kw)).
Proof. split; intros [H | H]; discriminate H. Qed.

Lemma init_good_dict g :
  g !! "dict" = None -> g !! "raw_data" = Some (VRef 2) ->
  init_good g (Expr (construct "dict")).
Proof.
  intros Hd Hr. destruct (not_access_Call (Name "dict") [Name "raw_data"] []).
  repeat split; try assumption. intros h Hdoc. eexists _, _. cbn [exec].
  now apply eval_construct_dict.
Qed.

Lemma init_good_lib g X impl kw :
  g !! X = Some (VClass (LibCls X impl)) -> ctor_raises impl = None ->
  g !! "raw_data" = Some (VRef 2) ->
  kw = [] \/ kw = [("lazy_create", Const (VBool true))] ->
  init_good g (Expr (Call (Name X) [Name "raw_data"] kw)).
Proof.
  intros HX Hc Hr Hkw. destruct (not_access_Call (Name X) [Name "raw_data"] kw).
  repeat split; try assumption. intros h Hdoc. eexists _, _. cbn [exec].
  eapply eval_construct_lib; eassumption.
Qed.

Lemma init_good_attrs g :
  g !! "AttrsL1" = Some (VClass AttrsL1) ->
  g !! "AttrsL2" = Some (VClass AttrsL2) ->
  g !! "AttrsL3" = Some (VClass AttrsL3) ->
  init_good g (Expr construct_attrs).
Proof.
  intros H1 H2 H3. repeat split.
  - intros [H | H]; discriminate H.
  - intros [H | H]; discriminate H.
  - intros h _. eexists _, _. cbn [exec]. now apply eval_construct_attrs.
Qed.

Lemma docs_disjoint c3 c2 c1 l b c3' c2' c1' l' b' (h : heap) :
  doc_at c3 c2 c1 l b h -> doc_at c3' c2' c1' l' b' h -> b <> b' ->
  b + 3 <= b' \/ b' + 3 <= b.
Proof.
  intros (H3 & H2 & H1) (H3' & H2' & H1') Hne.
  destruct (decide (b' = S b)) as [->|]; [rewrite H2 in H3'; discriminate|].
  destruct (decide (b' = S (S b))) as [->|]; [rewrite H1 in H3'; discriminate|].
  destruct (decide (b = S b')) as [->|]; [rewrite H2' in H3; discriminate|].
  destruct (decide (b = S (S b'))) as [->|]; [rewrite H1' in H3; discriminate|].
  lia.
Qed.

(** ** The loop body on an entry whose instance is in place *)

Section Body.

Variable w : world.
Variables (g : namespace) (c3 c2 c1 : class_id) (b : nat).

Local Abbreviation o := (VRef (S (S b))).

Lemma run_init init_stmt st :
  init_good g init_stmt -> raw_doc (st_heap st) ->
  exists r junk evs,
    run w init_stmt Pass (Some g) st =
    (Ok r, upd st (st_heap st ++ junk) 2 evs)
    /\ Forall (fun ev => ~ is_read (ev_stmt ev) /\ ~ is_write (ev_stmt ev))
              evs.
Proof.
  intros (Hnr & Hnw & Hex) Hraw. rewrite run_char. cbv zeta.
  cbn [from_option id]. rewrite exec_Pass.
  destruct (exec_times_inv g init_stmt
              (fun h' => exists junk, h' = st_heap st ++ junk)
              ITER_N (st_heap st)) as (vs & h' & E & junk & ->).
  - intros h0 (junk & ->).
    destruct (Hex (st_heap st ++ junk)) as (v & junk' & E).
    { now apply doc_at_app. }
    exists v, ((st_heap st ++ junk) ++ junk'). split; [exact E|].
    exists (junk ++ junk'). now rewrite app_assoc.
  - exists []. now rewrite app_nil_r.
  - rewrite E. eexists _, junk, _. split; [reflexivity|].
    constructor; [now split|]. apply Forall_map, Forall_forall.
    intros v _. now split.
Qed.

Lemma phase_read (flag : bool) s key leaf results st :
  doc_at c3 c2 c1 leaf b (st_heap st) -> is_read s ->
  exists res t evs,
    (if flag then
       r <- run w s Pass (Some (obj_env o)) ;;
       Comp.ret (alist_set key r results)
     else Comp.ret results) st =
    (Ok res, upd st (st_heap st) t evs)
    /\ (res = results \/ exists r, res = alist_set key r results)
    /\ Forall (fun ev => ev_obj ev = Some o /\ is_read (ev_stmt ev)
                         /\ match ev with
                            | EvExec _ _ v => v = leaf
                            | EvRun _ _ => True
                            end) evs.
Proof.
  intros Hdoc Hs. destruct flag.
  - destruct (run_read w c3 c2 c1 leaf b s st Hdoc Hs) as (r & t & vs & E & Hvs).
    unfold Comp.bind. rewrite E. eexists _, t, _.
    split; [reflexivity|]. split; [eauto|].
    constructor; [now repeat split|].
    apply Forall_map. eapply Forall_impl; [exact Hvs|].
    intros v <-. now repeat split.
  - exists results, 0, []. rewrite upd_id. repeat split; auto.
Qed.

Lemma phase_write (flag : bool) s v key leaf results st :
  doc_at c3 c2 c1 leaf b (st_heap st) ->
  (s = WRITE_K /\ v = VInt 200) \/ (s = WRITE_D /\ v = VInt 300) ->
  exists res t evs leaf',
    (if flag then
       r <- run w s Pass (Some (obj_env o)) ;;
       Comp.ret (alist_set key r results)
     else Comp.ret results) st =
    (Ok res, upd st (<[b := leaf_obj c3 leaf']> (st_heap st)) t evs)
    /\ (res = results \/ exists r, res = alist_set key r results)
    /\ (leaf' = leaf \/ leaf' = v)
    /\ Forall (fun ev => ev_obj ev = Some o /\ is_write (ev_stmt ev)) evs.
Proof.
  intros Hdoc Hs.
  assert (Hw : is_write s) by (destruct Hs as [[-> _]|[-> _]]; [now left|now right]).
  destruct flag.
  - destruct (run_write w c3 c2 c1 leaf b s v st Hdoc Hs)
      as (r & t & vs & leaf' & E & Hl).
    unfold Comp.bind. rewrite E. eexists _, t, _, leaf'.
    split; [reflexivity|]. split; [eauto|]. split; [exact Hl|].
    constructor; [now split|].
    apply Forall_map, Forall_forall. intros x _. now split.
  - exists results, 0, [], leaf.
    rewrite (list_insert_id (st_heap st) b (leaf_obj c3 leaf)) by apply Hdoc.
    rewrite upd_id. repeat split; auto.
Qed.

End Body.

Lemma is_read_not_write s : is_read s -> ~ is_write s.
Proof. intros [-> | ->] [H | H]; discriminate H. Qed.

(** The loop body on an entry of the kind the registry holds, when the
    instance is a document that no measurement has written yet: all five
    measurements return, only the leaf of the instance can change (and the
    heap grow), and the events come Init first, then the reads, which all
    yield 100, then the writes. *)
Lemma measure_good w g inst name init_stmt sk sd c3 c2 c1 b st :
  init_good g init_stmt ->
  inst !! name = Some (VRef (S (S b))) ->
  raw_doc (st_heap st) ->
  doc_at c3 c2 c1 (VInt 100) b (st_heap st) ->
  exists results st' seg junk leaf',
    measure w g inst (name, init_stmt, sk, sd) st = (Ok results, st')
    /\ st_heap st' = <[b := leaf_obj c3 leaf']> (st_heap st ++ junk)
    /\ (leaf' = VInt 100 \/ leaf' = VInt 200 \/ leaf' = VInt 300)
    /\ st_trace st' = st_trace st ++ seg
    /\ st_stdout st' = st_stdout st
    /\ seg_ok (VRef (S (S b))) seg.
Proof.
  intros Hinit Hinst Hraw Hdoc. unfold measure. rewrite Hinst.
  cbn [from_option id is_not_None]. rewrite !andb_true_r.
  destruct (run_init w g init_stmt st Hinit Hraw) as (r0 & junk & evs0 & E0 & F0).
  unfold Comp.bind at 1. rewrite E0. cbv iota beta zeta.
  set (st1 := upd st (st_heap st ++ junk) 2 evs0).
  assert (Hdoc1 : doc_at c3 c2 c1 (VInt 100) b (st_heap st1))
    by (apply doc_at_app; exact Hdoc).
  set (res0 := alist_set "init" r0 _).
  destruct (phase_read w c3 c2 c1 b sk READ_K "read_k" (VInt 100) res0 st1 Hdoc1)
    as (res1 & t1 & evs1 & E1 & _ & F1); [left; reflexivity|].
  unfold obj_env in E1. unfold Comp.bind at 1. rewrite E1. cbv iota beta.
  set (st2 := upd st1 (st_heap st1) t1 evs1).
  destruct (phase_read w c3 c2 c1 b sd READ_D "read_d" (VInt 100) res1 st2 Hdoc1)
    as (res2 & t2 & evs2 & E2 & _ & F2); [right; reflexivity|].
  unfold obj_env in E2. unfold Comp.bind at 1. rewrite E2. cbv iota beta.
  set (st3 := upd st2 (st_heap st2) t2 evs2).
  destruct (phase_write w c3 c2 c1 b sk WRITE_K (VInt 200) "write_k" (VInt 100)
              res2 st3 Hdoc1)
    as (res3 & t3 & evs3 & leaf3 & E3 & _ & Hl3 & F3); [left; split; reflexivity|].
  unfold obj_env in E3. unfold Comp.bind at 1. rewrite E3. cbv iota beta.
  set (st4 := upd st3 (<[b := leaf_obj c3 leaf3]> (st_heap st3)) t3 evs3).
  assert (Hdoc4 : doc_at c3 c2 c1 leaf3 b (st_heap st4))
    by (eapply doc_at_write; exact Hdoc1).
  destruct (phase_write w c3 c2 c1 b sd WRITE_D (VInt 300) "write_d" leaf3
              res3 st4 Hdoc4)
    as (res4 & t4 & evs4 & leaf4 & E4 & _ & Hl4 & F4); [right; split; reflexivity|].
  unfold obj_env in E4. unfold Comp.bind at 1. rewrite E4. cbv iota beta.
  exists res4, (upd st4 (<[b := leaf_obj c3 leaf4]> (st_heap st4)) t4 evs4),
    (evs0 ++ (evs1 ++ evs2) ++ (evs3 ++ evs4)), junk, leaf4.
  split; [reflexivity|]. split.
  { cbn. now rewrite list_insert_insert_eq. }
  split. { destruct Hl3 as [-> | ->], Hl4 as [-> | ->]; auto. }
  split. { cbn. now rewrite <- !app_assoc. }
  split; [reflexivity|].
  exists evs0, (evs1 ++ evs2), (evs3 ++ evs4). split; [reflexivity|].
  split; [exact F0|]. split.
  - apply Forall_app. split; (eapply Forall_impl; [eassumption|]);
      intros [s o|s o v] (Ho & Hs & Hv); repeat split; auto.
  - apply Forall_app. now split.
Qed.

(** ** The module body *)

Section ModuleBody.

Variable w : world.

Lemma register_lib g m X inst h :
  g !! X = Some (match site_packages w !! m with
                 | Some impl => VClass (LibCls X impl)
                 | None => VNone
                 end) ->
  g !! "raw_data" = Some (VRef 2) -> raw_doc h ->
  register g X X (construct X) inst h =
  match site_packages w !! m with
  | None => (Ok inst, h)
  | Some impl =>
      match ctor_raises impl with
      | Some e => (Raise e, h)
      | None =>
          (Ok (<[X := VRef (S (S (length h)))]> inst),
           h ++ doc_objs (LibCls X impl) (LibCls X impl) (LibCls X impl)
                  (VInt 100) (length h))
      end
  end.
Proof.
  intros HX Hr Hraw. unfold register, Comp.bind at 1, lookup_name. rewrite HX.
  destruct (site_packages w !! m) as [impl|]; [|reflexivity].
  cbn [truthy Comp.ret]. unfold Comp.bind.
  destruct (ctor_raises impl) as [e|] eqn:Hc.
  - now rewrite (eval_construct_raises g X impl e h HX Hc Hr).
  - unfold construct.
    rewrite (eval_construct_lib g X impl [] h HX Hc Hr Hraw) by now left.
    reflexivity.
Qed.

Lemma register_attrs g inst h :
  g !! "AttrsL1" = (if attrs_installed w then Some (VClass AttrsL1) else None) ->
  g !! "AttrsL2" = (if attrs_installed w then Some (VClass AttrsL2) else None) ->
  g !! "AttrsL3" = (if attrs_installed w then Some (VClass AttrsL3) else None) ->
  register g "AttrsL1" "Attrs" construct_attrs inst h =
  if attrs_installed w then
    (Ok (<["Attrs" := VRef (S (S (length h)))]> inst),
     h ++ doc_objs AttrsL3 AttrsL2 AttrsL1 (VInt 100) (length h))
  else (Raise NameError, h).
Proof.
  intros H1 H2 H3. unfold register, Comp.bind at 1, lookup_name. rewrite H1.
  destruct (attrs_installed w); [|reflexivity].
  cbn [truthy Comp.ret]. unfold Comp.bind.
  now rewrite (eval_construct_attrs g h H1 H2 H3).
Qed.

Lemma lookup_import_guard m X g Y :
  import_guard w m X g !! Y =
  if decide (X = Y)
  then Some (match site_packages w !! m with
             | Some impl => VClass (LibCls X impl)
             | None => VNone
             end)
  else g !! Y.
Proof.
  unfold import_guard.
  destruct (site_packages w !! m); rewrite lookup_insert; now case_decide.
Qed.

Lemma built_insert inst h X c3 c2 c1 :
  built w inst h ->
  (X = "dict"
   \/ (exists m impl, In (m, X) guards /\ site_packages w !! m = Some impl
                      /\ ctor_raises impl = None)
   \/ (X = "Attrs" /\ attrs_installed w = true)) ->
  built w (<[X := VRef (S (S (length h)))]> inst)
        (h ++ doc_objs c3 c2 c1 (VInt 100) (length h)).
Proof.
  intros ((Hraw & Hdocs) & Hinj & Hprov & Hdict) HX.
  assert (Hlen : 3 <= length h).
  { pose proof (doc_at_length _ _ _ _ _ _ Hraw). lia. }
  assert (Hold : forall n v, inst !! n = Some v ->
                             v <> VRef (S (S (length h)))).
  { intros n v Hn ->. destruct (Hdocs n _ Hn) as (b & ? & ? & ? & ? & E & _ & D & _).
    injection E as E. subst b. pose proof (doc_at_length _ _ _ _ _ _ D). lia. }
  split; [split|split; [|split]].
  - now apply doc_at_app.
  - intros name v. rewrite lookup_insert. case_decide as Hn.
    + intros [= <-]. exists (length h), c3, c2, c1, (VInt 100).
      split; [reflexivity|]. split; [exact Hlen|].
      split; [|split; [now left|reflexivity]].
      unfold doc_at, doc_objs. split; [|split].
      * rewrite lookup_app_r by lia. now rewrite Nat.sub_diag.
      * rewrite lookup_app_r by lia.
        now replace (S (length h) - length h) with 1 by lia.
      * rewrite lookup_app_r by lia.
        now replace (S (S (length h)) - length h) with 2 by lia.
    + intros Hv. destruct (Hdocs name v Hv) as (b & d3 & d2 & d1 & leaf & ? & ? & D & ? & ?).
      exists b, d3, d2, d1, leaf.
      split; [assumption|]. split; [assumption|].
      split; [now apply doc_at_app|]. now split.
  - intros n1 n2 v. rewrite !lookup_insert.
    repeat case_decide; subst; intros H1 H2; try congruence.
    + injection H1 as <-. now destruct (Hold _ _ H2).
    + injection H2 as <-. now destruct (Hold _ _ H1).
    + eapply Hinj; eassumption.
  - intros name. rewrite lookup_insert. case_decide as Hn.
    + subst. intros _. exact HX.
    + apply Hprov.
  - rewrite lookup_insert. case_decide; [eauto | exact Hdict].
Qed.

End ModuleBody.

Lemma new_document_eq h :
  new_document h =
  (Ok (VRef (S (S (length h)))),
   h ++ doc_objs DictCls DictCls DictCls (VInt 100) (length h)).
Proof.
  unfold new_document, Comp.bind, alloc. rewrite !length_app. cbn.
  rewrite <- !app_assoc. cbn. unfold doc_objs, leaf_obj, mid_obj, top_obj.
  replace (length h + 1 + 1) with (S (S (length h))) by lia.
  replace (length h + 1) with (S (length h)) by lia.
  reflexivity.
Qed.

Section Globals.

Variable w : world.

Local Abbreviation g := (module_globals w).

Ltac glookup :=
  unfold module_globals, imports, import_attrs; cbv zeta;
  destruct (attrs_installed w);
  repeat (rewrite lookup_insert || rewrite lookup_import_guard);
  repeat case_decide; try congruence; try reflexivity;
  try apply lookup_empty.

Lemma globals_raw_data : g !! "raw_data" = Some (VRef 2).
Proof. glookup. Qed.

Lemma globals_dict : g !! "dict" = None.
Proof. glookup. Qed.

Lemma globals_guard m X :
  In (m, X) guards ->
  g !! X = Some (match site_packages w !! m with
                 | Some impl => VClass (LibCls X impl)
                 | None => VNone
                 end).
Proof.
  intros Hin. unfold guards in Hin. cbn in Hin.
  repeat (destruct Hin as [[= <- <-] | Hin]); [glookup .. | destruct Hin].
Qed.

Lemma globals_attrs :
  g !! "AttrsL1" = (if attrs_installed w then Some (VClass AttrsL1) else None)
  /\ g !! "AttrsL2" = (if attrs_installed w then Some (VClass AttrsL2) else None)
  /\ g !! "AttrsL3" = (if attrs_installed w then Some (VClass AttrsL3) else None).
Proof. repeat split; glookup. Qed.

End Globals.

Lemma built_init w :
  built w (<["dict" := VRef 5]> ∅)
    (doc_objs DictCls DictCls DictCls (VInt 100) 0
     ++ doc_objs DictCls DictCls DictCls (VInt 100) 3).
Proof.
  split; [split|split; [|split]].
  - repeat split.
  - intros name v. rewrite lookup_insert. case_decide; [|now rewrite lookup_empty].
    intros [= <-]. exists 3, DictCls, DictCls, DictCls, (VInt 100).
    repeat split; auto.
  - intros n1 n2 v. rewrite !lookup_insert.
    repeat case_decide; rewrite ?lookup_empty; congruence.
  - intros name. rewrite lookup_insert. case_decide; [now left|].
    rewrite lookup_empty. now intros [? ?].
  - rewrite lookup_insert_eq. eauto.
Qed.

Section ModuleInit.

Variable w : world.

Local Abbreviation g := (module_globals w).

Lemma register_lib_built m X inst h inst' h' :
  built w inst h -> In (m, X) guards ->
  register g X X (construct X) inst h = (Ok inst', h') ->
  built w inst' h'
  /\ (forall n, is_Some (inst !! n) -> is_Some (inst' !! n))
  /\ (site_packages w !! m = None -> inst' = inst)
  /\ (forall n, n <> X -> inst' !! n = inst !! n)
  /\ (forall impl, site_packages w !! m = Some impl ->
                   ctor_raises impl = None).
Proof.
  intros Hb Hin E.
  rewrite (register_lib w g m X inst h) in E;
    [| now apply globals_guard | apply globals_raw_data | apply Hb].
  destruct (site_packages w !! m) as [impl|] eqn:Hm.
  - destruct (ctor_raises impl) as [e|] eqn:Hc; [discriminate|].
    injection E as <- <-. split; [|split; [|split; [|split]]].
    + apply built_insert; [exact Hb|]. right. left. eauto.
    + intros n Hn. rewrite lookup_insert. now case_decide.
    + discriminate.
    + intros n Hn. now rewrite lookup_insert_ne.
    + now intros impl' [= <-].
  - injection E as <- <-.
    split; [exact Hb|]. split; [auto|]. split; [auto|]. split; [auto|].
    intros impl' Hx. discriminate Hx.
Qed.

Lemma register_attrs_built inst h inst' h' :
  built w inst h ->
  register g "AttrsL1" "Attrs" construct_attrs inst h = (Ok inst', h') ->
  built w inst' h' /\ attrs_installed w = true /\ is_Some (inst' !! "Attrs")
  /\ (forall n, n <> "Attrs" -> inst' !! n = inst !! n).
Proof.
  intros Hb E. destruct (globals_attrs w) as (H1 & H2 & H3).
  rewrite (register_attrs w g inst h H1 H2 H3) in E.
  destruct (attrs_installed w) eqn:Ha; [|discriminate].
  injection E as <- <-. split; [|split; [reflexivity|split]].
  - apply built_insert; [exact Hb|]. right. right. auto.
  - rewrite lookup_insert_eq. eauto.
  - intros n Hn. now rewrite lookup_insert_ne.
Qed.

Ltac step_bind E :=
  unfold Comp.bind at 1 in E;
  match type of E with
  | match ?c with _ => _ end = _ =>
      let E' := fresh "R" in
      destruct c as [[?inst|?e] ?h] eqn:E'; [|discriminate E]
  end.

(** What a module body that runs to its end has built. *)
Lemma module_init_ok g' inst h :
  module_init w [] = (Ok (g', inst), h) ->
  g' = g /\ built w inst h /\ attrs_installed w = true
  /\ is_Some (inst !! "Attrs")
  /\ (forall m X, In (m, X) guards -> site_packages w !! m = None ->
                  inst !! X = None)
  /\ (forall m X impl, In (m, X) guards ->
                       site_packages w !! m = Some impl ->
                       ctor_raises impl = None).
Proof.
  unfold module_init. cbv zeta. intros E.
  unfold Comp.bind at 1 in E. rewrite new_document_eq in E.
  unfold Comp.bind at 1 in E. rewrite new_document_eq in E.
  cbn [length app doc_objs] in E. fold g in E.
  pose proof (built_init w) as B0. cbn [app doc_objs] in B0.
  step_bind E.
  destruct (register_lib_built "lattix" "Lattix" _ _ _ _ B0 ltac:(cbn; tauto) R)
    as (B1 & M1 & N1 & O1 & C1).
  step_bind E.
  destruct (register_lib_built "easydict" "EasyDict" _ _ _ _ B1 ltac:(cbn; tauto) R0)
    as (B2 & M2 & N2 & O2 & C2).
  step_bind E.
  destruct (register_lib_built "addict" "Addict" _ _ _ _ B2 ltac:(cbn; tauto) R1)
    as (B3 & M3 & N3 & O3 & C3).
  step_bind E.
  destruct (register_lib_built "box" "Box" _ _ _ _ B3 ltac:(cbn; tauto) R2)
    as (B4 & M4 & N4 & O4 & C4).
  step_bind E.
  destruct (register_lib_built "treedict" "TreeDict" _ _ _ _ B4 ltac:(cbn; tauto) R3)
    as (B5 & M5 & N5 & O5 & C5).
  step_bind E. destruct (register_attrs_built _ _ _ _ B5 R4) as (B6 & Ha & HA & NA).
  step_bind E.
  destruct (register_lib_built "dotted_dict" "DottedDict" _ _ _ _ B6 ltac:(cbn; tauto) R5)
    as (B7 & M7 & N7 & O7 & C7).
  injection E as <- <- <-.
  split; [reflexivity|]. split; [exact B7|]. split; [exact Ha|].
  split; [now apply M7|]. split.
  - intros m X Hin Hm. cbn in Hin.
    repeat (destruct Hin as [[= <- <-] | Hin]); [ .. | destruct Hin].
    all: rewrite ?N1, ?N2, ?N3, ?N4, ?N5, ?N7 by exact Hm.
    all: rewrite ?O7, ?NA, ?O5, ?O4, ?O3, ?O2, ?O1 by discriminate.
    all: rewrite ?N1, ?N2, ?N3, ?N4, ?N5, ?N7 by exact Hm.
    all: rewrite ?O7, ?NA, ?O5, ?O4, ?O3, ?O2, ?O1 by discriminate.
    all: try (rewrite lookup_insert_ne by discriminate; apply lookup_empty).
  - intros m X impl Hin Hm. cbn in Hin.
    repeat (destruct Hin as [[= <- <-] | Hin]); [ .. | destruct Hin]; eauto.
Qed.

Lemma env_ok_of_built inst h :
  built w inst h -> attrs_installed w = true -> is_Some (inst !! "Attrs") ->
  env_ok g inst.
Proof.
  intros (Hheap & Hinj & Hprov & Hdict) Ha HA.
  split; [|split; [exact Hinj|split; assumption]].
  intros name init_stmt sk sd Hin Hsome.
  pose proof (globals_raw_data w) as Hr. pose proof (globals_dict w) as Hd.
  destruct (globals_attrs w) as (H1 & H2 & H3). rewrite Ha in H1, H2, H3.
  fold g in Hr, Hd, H1, H2, H3.
  assert (Hlib : forall m X kw,
             In (m, X) guards -> is_Some (inst !! X) ->
             kw = [] \/ kw = [("lazy_create", Const (VBool true))] ->
             (forall m', In (m', X) guards -> m' = m) ->
             X <> "dict" -> X <> "Attrs" ->
             init_good g (Expr (Call (Name X) [Name "raw_data"] kw))).
  { intros m X kw HmX HX Hkw Huniq Hnd Hna.
    destruct (Hprov X HX) as [-> | [(m' & impl & Hm' & Hs & Hc) | [-> _]]];
      try congruence.
    apply Huniq in Hm' as ->.
    pose proof (globals_guard w m X HmX) as HgX. fold g in HgX.
    rewrite Hs in HgX. eapply init_good_lib; eassumption. }
  unfold libs in Hin. cbn in Hin.
  repeat (destruct Hin as [[= <- <- <- <-] | Hin]); [ .. | destruct Hin].
  - now apply init_good_dict.
  - apply (Hlib "lattix"); auto; cbn; try tauto; try discriminate.
    intros m' Hm'. cbn in Hm'.
    repeat (destruct Hm' as [[= <-] | Hm']); try reflexivity; try discriminate; destruct Hm'.
  - apply (Hlib "easydict"); auto; cbn; try tauto; try discriminate.
    intros m' Hm'. cbn in Hm'.
    repeat (destruct Hm' as [Hm'' | Hm']); try (injection Hm'' as <-; reflexivity); try discriminate; destruct Hm'.
  - apply (Hlib "addict"); auto; cbn; try tauto; try discriminate.
    intros m' Hm'. cbn in Hm'.
    repeat (destruct Hm' as [Hm'' | Hm']); try (injection Hm'' as <-; reflexivity); try discriminate; destruct Hm'.
  - apply (Hlib "box"); auto; cbn; try tauto; try discriminate.
    intros m' Hm'. cbn in Hm'.
    repeat (destruct Hm' as [Hm'' | Hm']); try (injection Hm'' as <-; reflexivity); try discriminate; destruct Hm'.
  - apply (Hlib "treedict"); auto; cbn; try tauto; try discriminate.
    intros m' Hm'. cbn in Hm'.
    repeat (destruct Hm' as [Hm'' | Hm']); try (injection Hm'' as <-; reflexivity); try discriminate; destruct Hm'.
  - now apply init_good_attrs.
  - apply (Hlib "dotted_dict"); auto; cbn; try tauto; try discriminate.
    intros m' Hm'. cbn in Hm'.
    repeat (destruct Hm' as [Hm'' | Hm']); try (injection Hm'' as <-; reflexivity); try discriminate; destruct Hm'.
Qed.

End ModuleInit.

(** ** Traces *)

Lemma trace_ok_nil done : trace_ok done [].
Proof.
  repeat split.
  - intros ev Hev. now apply elem_of_nil in Hev.
  - intros ev Hev. now apply elem_of_nil in Hev.
  - intros i j evw evr Hi. now rewrite lookup_nil in Hi.
Qed.

Lemma trace_ok_mono (done done' : value -> Prop) tr :
  (forall x, done x -> done' x) -> trace_ok done tr -> trace_ok done' tr.
Proof.
  intros Hsub (Hr & Hw & Ho). repeat split; auto.
  intros ev Hev Hwr. destruct (Hw ev Hev Hwr) as (o & ? & ?). eauto.
Qed.

Lemma seg_ok_cases o seg :
  seg_ok o seg ->
  exists n,
    (forall i ev, seg !! i = Some ev -> is_write (ev_stmt ev) ->
                  n <= i /\ ev_obj ev = Some o)
    /\ (forall j ev, seg !! j = Some ev -> is_read (ev_stmt ev) ->
                     j < n /\ ev_obj ev = Some o /\ observes_100 ev).
Proof.
  intros (inits & reads & writes & -> & Hi & Hr & Hw).
  exists (length inits + length reads).
  rewrite Forall_lookup in Hi, Hr, Hw.
  split; intros i ev Hev Hk.
  - apply lookup_app_Some in Hev as [Hev | (Hge & Hev)].
    { destruct (Hi _ _ Hev) as (_ & Hn). now destruct Hn. }
    apply lookup_app_Some in Hev as [Hev | (Hge' & Hev)].
    { destruct (Hr _ _ Hev) as (_ & Hrd & _).
      now destruct (is_read_not_write _ Hrd). }
    destruct (Hw _ _ Hev) as (Ho & _). split; [lia | exact Ho].
  - apply lookup_app_Some in Hev as [Hev | (Hge & Hev)].
    { destruct (Hi _ _ Hev) as (Hn & _). now destruct Hn. }
    apply lookup_app_Some in Hev as [Hev | (Hge' & Hev)].
    + destruct (Hr _ _ Hev) as (Ho & _ & H100).
      apply lookup_lt_Some in Hev. split; [lia | now split].
    + destruct (Hw _ _ Hev) as (_ & Hwr).
      now destruct (is_read_not_write _ Hk).
Qed.

Lemma trace_ok_app (done : value -> Prop) tr o seg :
  trace_ok done tr -> seg_ok o seg -> ~ done o ->
  trace_ok (fun x => done x \/ x = o) (tr ++ seg).
Proof.
  intros (Hr & Hw & Ho) Hseg Hnew.
  destruct (seg_ok_cases _ _ Hseg) as (n & Hsw & Hsr).
  split; [|split].
  - intros ev Hev Hrd. apply elem_of_app in Hev as [Hev | Hev]; [now apply Hr|].
    apply list_elem_of_lookup in Hev as (j & Hj).
    now destruct (Hsr _ _ Hj Hrd) as (_ & _ & H100).
  - intros ev Hev Hwr. apply elem_of_app in Hev as [Hev | Hev].
    + destruct (Hw ev Hev Hwr) as (o' & ? & ?). eauto.
    + apply list_elem_of_lookup in Hev as (i & Hi).
      destruct (Hsw _ _ Hi Hwr) as (_ & Hobj). eauto.
  - intros i j evw evr Hi Hj Hwr Hrd Hobj.
    apply lookup_app_Some in Hi as [Hi | (Hgi & Hi)];
      apply lookup_app_Some in Hj as [Hj | (Hgj & Hj)].
    + eapply Ho; eassumption.
    + exfalso. destruct (Hsr _ _ Hj Hrd) as (_ & Hoj & _).
      destruct (Hw evw) as (o' & Ho' & Hd); [|assumption|].
      { apply list_elem_of_lookup. eauto. }
      rewrite Ho', Hoj in Hobj. injection Hobj as ->. now apply Hnew.
    + apply lookup_lt_Some in Hj. lia.
    + destruct (Hsw _ _ Hi Hwr) as (Hle & _).
      destruct (Hsr _ _ Hj Hrd) as (Hlt & _). lia.
Qed.

(** ** One turn of the loop *)

Lemma doc_at_frame c3 c2 c1 leaf b' (h junk : heap) b x :
  doc_at c3 c2 c1 leaf b' h -> b' + 3 <= b \/ b + 3 <= b' ->
  doc_at c3 c2 c1 leaf b' (<[b := x]> (h ++ junk)).
Proof.
  intros Hdoc Hne.
  destruct (doc_at_app _ _ _ _ _ _ Hdoc junk) as (H3 & H2 & H1). unfold doc_at.
  rewrite !list_lookup_insert_ne by lia. auto.
Qed.

Lemma render_row_cells name r0 r1 r2 r3 r4 st :
  render_row name (cells r0 r1 r2 r3 r4) st =
  (Ok (row_text name r0 r1 r2 r3 r4), st).
Proof. reflexivity. Qed.

Lemma skipped_spec inst name :
  is_Some (inst !! "dict") -> is_Some (inst !! "Attrs") ->
  skipped inst name = bool_decide (inst !! name = None).
Proof.
  intros Hd Ha. unfold skipped. case_bool_decide as Hn; [|reflexivity].
  destruct (String.eqb_spec name "dict") as [->|_].
  { rewrite Hn in Hd. now destruct Hd. }
  destruct (String.eqb_spec name "Attrs") as [->|_].
  { rewrite Hn in Ha. now destruct Ha. }
  reflexivity.
Qed.

Lemma iteration_good w g inst name init_stmt sk sd (fresh : string -> Prop) st :
  env_ok g inst -> In (name, init_stmt, sk, sd) libs ->
  heap_ok fresh inst (st_heap st) -> fresh name ->
  match inst !! name with
  | None => iteration w g inst (name, init_stmt, sk, sd) st = (Ok tt, st)
  | Some v =>
      exists st' b c3 leaf' junk seg r0 r1 r2 r3 r4,
        v = VRef (S (S b)) /\ 3 <= b
        /\ iteration w g inst (name, init_stmt, sk, sd) st = (Ok tt, st')
        /\ st_heap st' = <[b := leaf_obj c3 leaf']> (st_heap st ++ junk)
        /\ st_trace st' = st_trace st ++ seg
        /\ seg_ok v seg
        /\ runs_of seg = planned init_stmt sk sd
        /\ st_stdout st' = st_stdout st ++ [row_text name r0 r1 r2 r3 r4]
        /\ (sk = false -> r1 = None /\ r3 = None)
        /\ (sd = false -> r2 = None /\ r4 = None)
        /\ heap_ok (fun n => fresh n /\ n <> name) inst (st_heap st')
  end.
Proof.
  intros (Hinit & Hinj & Hd & Ha) Hin (Hraw & Hdocs) Hfresh.
  unfold iteration. cbn [fst]. rewrite (skipped_spec inst name Hd Ha).
  destruct (inst !! name) as [v|] eqn:Hn.
  2: { now rewrite bool_decide_eq_true_2. }
  rewrite bool_decide_eq_false_2 by discriminate.
  destruct (Hdocs name v Hn) as (b & c3 & c2 & c1 & leaf & -> & Hb & Hdoc & _ & Hleaf).
  rewrite (Hleaf Hfresh) in Hdoc.
  assert (Hgood : init_good g init_stmt).
  { eapply Hinit; [exact Hin|]. rewrite Hn. eauto. }
  destruct (measure_good w g inst name init_stmt sk sd c3 c2 c1 b st
              Hgood Hn Hraw Hdoc)
    as (results & st' & seg & junk & leaf' & E & Hheap & Hl & Ht & Ho & Hseg).
  destruct (measure_generic w g inst name init_stmt sk sd st)
    as (r & st2 & seg2 & E2 & Ht2 & _ & HQ).
  rewrite E in E2. injection E2 as <- <-.
  rewrite Ht in Ht2. apply app_inv_head in Ht2 as <-.
  rewrite Hn in HQ. cbn [from_option id is_not_None] in HQ.
  rewrite !andb_true_r in HQ.
  destruct HQ as (Hruns & r0 & r1 & r2 & r3 & r4 & -> & Hk & Hdd).
  unfold Comp.bind. rewrite E, render_row_cells.
  eexists _, b, c3, leaf', junk, seg, r0, r1, r2, r3, r4.
  split; [reflexivity|]. split; [exact Hb|]. split; [reflexivity|].
  cbn [st_heap st_trace st_stdout]. rewrite Ho.
  split; [exact Hheap|]. split; [exact Ht|]. split; [exact Hseg|].
  split; [exact Hruns|]. split; [reflexivity|].
  split; [exact Hk|]. split; [exact Hdd|].
  rewrite Hheap. split.
  - apply doc_at_frame; [exact Hraw | lia].
  - intros n' v' Hn'.
    destruct (Hdocs n' v' Hn') as (b' & d3 & d2 & d1 & leaf0 & -> & Hb' & Hdoc' & Hl' & Hf').
    destruct (decide (n' = name)) as [->|Hne].
    + rewrite Hn in Hn'. injection Hn' as <-.
      exists b, c3, c2, c1, leaf'.
      split; [reflexivity|]. split; [exact Hb|]. split.
      * eapply doc_at_write. apply doc_at_app. exact Hdoc.
      * split; [exact Hl|]. now intros (_ & Hc).
    + exists b', d3, d2, d1, leaf0.
      split; [reflexivity|]. split; [exact Hb'|]. split.
      * apply doc_at_frame; [exact Hdoc'|].
        assert (b' <> b).
        { intros ->. apply Hne. eapply Hinj; eassumption. }
        assert (Hdis := docs_disjoint _ _ _ _ _ _ _ _ _ _ _ Hdoc' Hdoc).
        destruct Hdis; [assumption|lia|lia].
      * split; [exact Hl'|]. intros (Hf & _). now apply Hf'.
Qed.

(** ** The loop *)

Lemma heap_ok_mono (fresh fresh' : string -> Prop) inst h :
  (forall n, fresh' n -> fresh n) -> heap_ok fresh inst h ->
  heap_ok fresh' inst h.
Proof.
  intros Hsub (Hraw & Hdocs). split; [exact Hraw|].
  intros n v Hn.
  destruct (Hdocs n v Hn) as (b & c3 & c2 & c1 & leaf & ? & ? & ? & ? & Hf).
  exists b, c3, c2, c1, leaf.
  split; [assumption|]. split; [assumption|]. split; [assumption|].
  split; [assumption|]. intros Hn'. apply Hf, Hsub, Hn'.
Qed.

Lemma loop_good w g inst l :
  env_ok g inst ->
  (forall e, In e l -> In e libs) ->
  NoDup (map entry_name l) ->
  forall (fresh : string -> Prop) (done : value -> Prop) st,
    heap_ok fresh inst (st_heap st) ->
    (forall e, In e l -> fresh (entry_name e)) ->
    trace_ok done (st_trace st) ->
    (forall e v, In e l -> inst !! entry_name e = Some v -> ~ done v) ->
    exists st' rows,
      for_each (iteration w g inst) l st = (Ok tt, st')
      /\ heap_ok (fun n => fresh n /\ ~ In n (map entry_name l)) inst
                 (st_heap st')
      /\ trace_ok (fun o => done o \/
                            exists e, In e l /\ inst !! entry_name e = Some o)
                  (st_trace st')
      /\ runs_of (st_trace st') = runs_of (st_trace st) ++ flat_map (plan inst) l
      /\ st_stdout st' = st_stdout st ++ rows
      /\ Forall2 row_of (active inst l) rows.
Proof.
  intros Henv. induction l as [|e l IH]; intros Hsub Hnd fresh done st Hheap Hfresh Htr Hdone.
  - exists st, []. cbn. rewrite !app_nil_r.
    split; [reflexivity|]. split.
    { eapply heap_ok_mono; [|exact Hheap]. now intros n (? & _). }
    split. { eapply trace_ok_mono; [|exact Htr]. intros; now left. }
    split; [reflexivity|]. split; [reflexivity|]. constructor.
  - destruct e as [[[name init_stmt] sk] sd].
    cbn [map entry_name fst] in Hnd. apply NoDup_cons in Hnd as (Hnotin & Hnd).
    assert (Hsub' : forall e, In e l -> In e libs) by (intros; apply Hsub; now right).
    pose proof (iteration_good w g inst name init_stmt sk sd fresh st Henv
                  (Hsub _ (or_introl eq_refl)) Hheap
                  (Hfresh _ (or_introl eq_refl))) as Hit.
    destruct Henv as (Hinit & Hinj & Hd & Ha).
    cbn [for_each]. unfold Comp.bind at 1.
    unfold active. cbn [List.filter entry_name fst].
    rewrite (skipped_spec inst name Hd Ha).
    cbn [flat_map plan].
    destruct (inst !! name) as [v|] eqn:Hn.
    + destruct Hit as (st1 & b & c3 & leaf' & junk & seg & r0 & r1 & r2 & r3 & r4
                       & -> & Hb & E & Hh1 & Ht1 & Hseg & Hruns & Ho1 & Hk & Hdd & Hheap1).
      rewrite E. rewrite bool_decide_eq_false_2 by discriminate. cbn [negb].
      destruct (IH Hsub' Hnd (fun n => fresh n /\ n <> name)
                  (fun x => done x \/ x = VRef (S (S b))) st1)
        as (st' & rows & E' & Hheap' & Htr' & Hruns' & Ho' & Hrows).
      * exact Hheap1.
      * intros e He. split; [apply Hfresh; now right|].
        intros Heq. apply Hnotin. rewrite list_elem_of_In, <- Heq.
        now apply in_map.
      * rewrite Ht1. apply trace_ok_app; [exact Htr | exact Hseg|].
        apply (Hdone (name, init_stmt, sk, sd)); [now left | exact Hn].
      * intros e v He Hv [Hdn | ->].
        -- now apply (Hdone e v (or_intror He) Hv).
        -- apply Hnotin. rewrite list_elem_of_In.
           rewrite <- (Hinj _ _ _ Hv Hn). now apply in_map.
      * exists st', (row_text name r0 r1 r2 r3 r4 :: rows).
        split; [exact E'|]. split.
        { eapply heap_ok_mono; [|exact Hheap']. cbn.
          intros n (Hf & Hni). split; [split; [exact Hf|]|]; intros Hx; apply Hni; auto. }
        split.
        { eapply trace_ok_mono; [|exact Htr']. cbn.
          intros x [[Hx | ->] | (e & He & Hx)].
          - now left.
          - right. exists (name, init_stmt, sk, sd). split; [now left|exact Hn].
          - right. exists e. split; [now right|exact Hx]. }
        split. { rewrite Hruns', Ht1, runs_of_app, Hruns. now rewrite <- app_assoc. }
        split. { rewrite Ho', Ho1. now rewrite <- app_assoc. }
        constructor; [|exact Hrows]. cbn. eauto 10.
    + rewrite Hit. rewrite bool_decide_eq_true_2 by reflexivity. cbn [negb app].
      destruct (IH Hsub' Hnd fresh done st)
        as (st' & rows & E' & Hheap' & Htr' & Hruns' & Ho' & Hrows); auto.
      { intros e He. apply Hfresh. now right. }
      { intros e v He. apply Hdone. now right. }
      exists st', rows. split; [exact E'|]. split.
      { eapply heap_ok_mono; [|exact Hheap']. cbn.
        intros n (Hf & Hni). split; auto. }
      split.
      { eapply trace_ok_mono; [|exact Htr']. cbn.
        intros x [Hx | (e & He & Hx)]; [now left|].
        right. exists e. split; [now right|exact Hx]. }
      auto.
Qed.

(** ** The whole run *)

Lemma libs_NoDup : NoDup (map entry_name libs).
Proof. apply (bool_decide_unpack _). vm_compute. exact I. Qed.

Lemma for_each_app {A} (body : A -> M unit) l1 l2 st :
  for_each body (l1 ++ l2) st =
  (for_each body l1 ;;; for_each body l2) st.
Proof.
  revert st. induction l1 as [|x l1 IH]; intros st; [reflexivity|].
  cbn [app for_each]. unfold Comp.bind in *.
  destruct (body x st) as [[[]|e] st1]; [|reflexivity].
  apply IH.
Qed.

Lemma program_crash w e h :
  module_init w [] = (Raise e, h) ->
  program w initial_state =
  (Raise e, {| st_heap := h; st_ticks := 0; st_trace := []; st_stdout := [] |}).
Proof.
  intros E. unfold program, Comp.bind. now rewrite (lift_eq (module_init w) initial_state _ _ E).
Qed.

Lemma program_unfold w g inst h :
  module_init w [] = (Ok (g, inst), h) ->
  program w initial_state =
  for_each (iteration w g inst) libs (loop_start w h).
Proof.
  intros E. unfold program, Comp.bind at 1. rewrite (lift_eq (module_init w) initial_state _ _ E).
  reflexivity.
Qed.

Lemma start_ok w g inst h :
  module_init w [] = (Ok (g, inst), h) ->
  env_ok g inst /\ heap_ok (fun _ => True) inst h.
Proof.
  intros E. destruct (module_init_ok w g inst h E) as (-> & B & Ha & HA & _).
  split; [eapply env_ok_of_built; eassumption | apply B].
Qed.

(** A module body that runs to its end is followed by a main block that
    runs to its end: one row per active entry, the statements timed in the
    order of the plan, every read yielding 100 and no read of an instance
    after a write of it. *)
Lemma program_good w g inst h :
  module_init w [] = (Ok (g, inst), h) ->
  exists st' rows,
    program w initial_state = (Ok tt, st')
    /\ (forall ev, ev ∈ st_trace st' -> is_read (ev_stmt ev) -> observes_100 ev)
    /\ reads_before_writes (st_trace st')
    /\ runs_of (st_trace st') = flat_map (plan inst) libs
    /\ st_stdout st' = banner w ++ rows
    /\ Forall2 row_of (active inst libs) rows.
Proof.
  intros E. rewrite (program_unfold w g inst h E).
  destruct (start_ok w g inst h E) as (Henv & Hheap).
  destruct (loop_good w g inst libs Henv (fun e He => He) libs_NoDup
              (fun _ => True) (fun _ => False) (loop_start w h))
    as (st' & rows & E' & _ & (Hr & _ & Ho) & Hruns & Hout & Hrows).
  - exact Hheap.
  - intros; exact I.
  - apply trace_ok_nil.
  - intros e v _ _ [].
  - exists st', rows. repeat split; assumption.
Qed.

(** ** Isolation of the instances *)

(** A snapshot of a document depends only on its three objects. *)
Lemma snapshot_doc c3 c2 c1 n b (h h' : heap) :
  doc_at c3 c2 c1 (VInt n) b h -> doc_at c3 c2 c1 (VInt n) b h' ->
  forall depth,
    snapshot depth h' (VRef (S (S b))) = snapshot depth h (VRef (S (S b))).
Proof.
  intros (H3 & H2 & H1) (H3' & H2' & H1') depth.
  destruct depth as [|[|[|[|depth]]]]; cbn [snapshot];
    rewrite ?H1, ?H1'; cbn [snapshot map o_slots o_class top_obj fst snd];
    rewrite ?H2, ?H2'; cbn [snapshot map o_slots o_class mid_obj fst snd];
    rewrite ?H3, ?H3'; cbn [snapshot map o_slots o_class leaf_obj fst snd];
    reflexivity.
Qed.

Lemma leaf_is_int (leaf : value) :
  leaf = VInt 100 \/ leaf = VInt 200 \/ leaf = VInt 300 ->
  exists n, leaf = VInt n.
Proof. intros [-> | [-> | ->]]; eauto. Qed.

(** The state before the turn of an entry, and what the turn does to the
    heap. *)
Lemma turn_effect w g inst h pre entry post :
  module_init w [] = (Ok (g, inst), h) ->
  libs = pre ++ entry :: post ->
  exists st1 st2,
    for_each (iteration w g inst) pre (loop_start w h) = (Ok tt, st1)
    /\ iteration w g inst entry st1 = (Ok tt, st2)
    /\ heap_ok (fun _ => False) inst (st_heap st1)
    /\ heap_ok (fun _ => False) inst (st_heap st2)
    /\ (inst !! entry_name entry = None -> st2 = st1)
    /\ (forall v, inst !! entry_name entry = Some v ->
        exists b c x junk,
          v = VRef (S (S b))
          /\ st_heap st2 = <[b := leaf_obj c x]> (st_heap st1 ++ junk)).
Proof.
  intros E Hlibs. destruct (start_ok w g inst h E) as (Henv & Hheap).
  pose proof libs_NoDup as Hnd. rewrite Hlibs, map_app in Hnd.
  apply NoDup_app in Hnd as (Hnd1 & Hsep & Hnd2).
  assert (Hsub : forall e, In e pre -> In e libs).
  { intros e He. rewrite Hlibs. apply in_or_app. now left. }
  destruct (loop_good w g inst pre Henv Hsub Hnd1
              (fun _ => True) (fun _ => False) (loop_start w h))
    as (st1 & rows & E1 & Hheap1 & _).
  - exact Hheap.
  - intros; exact I.
  - apply trace_ok_nil.
  - intros e v _ _ [].
  - destruct entry as [[[name init_stmt] sk] sd].
    assert (Hin : In (name, init_stmt, sk, sd) libs).
    { rewrite Hlibs. apply in_or_app. right. now left. }
    assert (Hfresh : True /\ ~ In name (map entry_name pre)).
    { split; [exact I|]. intros Hx. apply (Hsep name).
      - now apply list_elem_of_In.
      - cbn. left. }
    pose proof (iteration_good w g inst name init_stmt sk sd _ st1 Henv Hin
                  Hheap1 Hfresh) as Hit.
    cbn [entry_name fst].
    destruct (inst !! name) as [v|] eqn:Hn.
    + destruct Hit as (st2 & b & c3 & leaf' & junk & seg & r0 & r1 & r2 & r3 & r4
                       & -> & Hb & E2 & Hh2 & _ & _ & _ & _ & _ & _ & Hheap2).
      exists st1, st2. split; [exact E1|]. split; [exact E2|].
      split. { eapply heap_ok_mono; [|exact Hheap1]. intros ? []. }
      split. { eapply heap_ok_mono; [|exact Hheap2]. intros ? []. }
      split; [discriminate|].
      intros v' [= <-]. exists b, c3, leaf', junk. now split.
    + exists st1, st1. split; [exact E1|]. split; [exact Hit|].
      split. { eapply heap_ok_mono; [|exact Hheap1]. intros ? []. }
      split. { eapply heap_ok_mono; [|exact Hheap1]. intros ? []. }
      split; [reflexivity|]. discriminate.
Qed.

(** ** The loop body and the main block, for any registry *)

(** One turn of the loop, whatever the entry and the state: a skipped entry
    changes nothing; otherwise the turn prints the row of its five cells, or
    an exception outside [Exception] comes out of a measurement and nothing
    is printed. *)
Lemma iteration_generic w g inst name init_stmt sk sd st :
  let obj := default VNone (inst !! name) in
  let k := sk && is_not_None obj in
  let d := sd && is_not_None obj in
  if skipped inst name
  then iteration w g inst (name, init_stmt, sk, sd) st = (Ok tt, st)
  else
    exists r st' seg,
      iteration w g inst (name, init_stmt, sk, sd) st = (r, st')
      /\ st_trace st' = st_trace st ++ seg
      /\ match r with
         | Raise e => is_Exception e = false /\ st_stdout st' = st_stdout st
         | Ok _ =>
             runs_of seg = planned init_stmt k d
             /\ exists r0 r1 r2 r3 r4,
                 st_stdout st' =
                 st_stdout st ++ [row_text name r0 r1 r2 r3 r4]
                 /\ (k = false -> r1 = None /\ r3 = None)
                 /\ (d = false -> r2 = None /\ r4 = None)
         end.
Proof.
  intros obj k d. unfold iteration. cbn [fst].
  destruct (skipped inst name); [reflexivity|].
  destruct (measure_generic w g inst name init_stmt sk sd st)
    as (r & st1 & seg & E & Ht & Ho & HQ).
  unfold Comp.bind. rewrite E. destruct r as [results|e].
  - destruct HQ as (Hruns & r0 & r1 & r2 & r3 & r4 & -> & Hk & Hd).
    rewrite render_row_cells. eexists (Ok tt), _, seg.
    split; [reflexivity|]. cbn [st_trace st_stdout print Comp.modify].
    split; [exact Ht|]. split; [exact Hruns|].
    exists r0, r1, r2, r3, r4. rewrite Ho.
    split; [reflexivity|]. split; assumption.
  - exists (Raise e), st1, seg. split; [reflexivity|].
    split; [exact Ht|]. split; assumption.
Qed.

(** No exception that derives from [Exception] comes out of a turn. *)
Lemma iteration_no_Exception w g inst entry st :
  match iteration w g inst entry st with
  | (Raise e, _) => is_Exception e = false
  | (Ok _, _) => True
  end.
Proof.
  destruct entry as [[[name init_stmt] sk] sd].
  pose proof (iteration_generic w g inst name init_stmt sk sd st) as Hit.
  cbv zeta in Hit. destruct (skipped inst name).
  - rewrite Hit. exact I.
  - destruct Hit as (r & st' & seg & -> & _ & Hr).
    destruct r as [[]|e]; [exact I | apply Hr].
Qed.

Lemma for_each_no_Exception w g inst l st :
  match for_each (iteration w g inst) l st with
  | (Raise e, _) => is_Exception e = false
  | (Ok _, _) => True
  end.
Proof.
  revert st. induction l as [|entry l IH]; intros st; [exact I|].
  cbn [for_each]. unfold Comp.bind.
  pose proof (iteration_no_Exception w g inst entry st) as Hit.
  destruct (iteration w g inst entry st) as [[[]|e] st1]; [apply IH | exact Hit].
Qed.

Lemma main_no_Exception w g inst st :
  match main w g inst st with
  | (Raise e, _) => is_Exception e = false
  | (Ok _, _) => True
  end.
Proof.
  unfold main, Comp.bind. cbn [print Comp.modify].
  apply for_each_no_Exception.
Qed.

(** The loop body on an entry that has no instance: the Init statement is
    timed and nothing else. *)
Lemma measure_no_instance w g inst name init_stmt sk sd st :
  inst !! name = None ->
  measure w g inst (name, init_stmt, sk, sd) st =
  (r <- run w init_stmt Pass (Some g) ;;
   Comp.ret (cells r None None None None)) st.
Proof.
  intros Hn. unfold measure. rewrite Hn. cbn [from_option id is_not_None].
  rewrite !andb_false_r. unfold Comp.bind.
  destruct (run w init_stmt Pass (Some g) st) as [[r|e] st1]; reflexivity.
Qed.

Lemma iteration_no_instance w g inst name init_stmt sk sd st :
  inst !! name = None -> skipped inst name = false ->
  iteration w g inst (name, init_stmt, sk, sd) st =
  (r <- run w init_stmt Pass (Some g) ;;
   print (row_text name r None None None None)) st.
Proof.
  intros Hn Hs. unfold iteration. cbn [fst]. rewrite Hs.
  unfold Comp.bind at 1. rewrite measure_no_instance by exact Hn.
  unfold Comp.bind.
  destruct (run w init_stmt Pass (Some g) st) as [[r|e] st1]; reflexivity.
Qed.

(** A statement that raises makes [run] return [None] or propagate,
    according to the class of the exception. *)
Lemma run_raises w s g st e h :
  exec g s (st_heap st) = (Raise e, h) ->
  run w s Pass (Some g) st =
  (catch e, upd st h 1 [EvRun s (g !! "obj")]).
Proof.
  intros E. rewrite run_char. cbv zeta. cbn [from_option id].
  rewrite exec_Pass.
  now rewrite (exec_times_fail g s ITER_N _ _ _ E ITER_N_pos).
Qed.

(** ** Supporting facts on the measurements *)

(** A key read of a document whose three objects are subscriptable is
    executed [ITER_N] times and yields the leaf each time. *)
Lemma run_read_key_values w c3 c2 c1 leaf b st :
  let o := VRef (S (S b)) in
  doc_at c3 c2 c1 leaf b (st_heap st) -> keyed c3 c2 c1 = true ->
  run w READ_K Pass (Some (obj_env o)) st =
  (Ok (Some (perf_counter w (S (st_ticks st))
             - perf_counter w (st_ticks st))%Q),
   upd st (st_heap st) 2
       (EvRun READ_K (Some o)
        :: map (EvExec READ_K (Some o)) (replicate (N.to_nat ITER_N) leaf))).
Proof.
  intros o Hdoc Hk. rewrite run_char. cbv zeta. cbn [from_option id].
  rewrite obj_env_obj, exec_Pass.
  assert (E : exec (obj_env o) READ_K (st_heap st) = (Ok leaf, st_heap st)).
  { unfold o. rewrite (exec_READ_K _ _ _ _ _ _ Hdoc), Hk. reflexivity. }
  rewrite (exec_times_pure _ _ ITER_N _ _ E). reflexivity.
Qed.

(** The probe of the read-before-write invariant: once the key write has
    been executed, a key read yields 200. *)
Lemma read_after_key_write c3 c2 c1 leaf b h :
  let o := VRef (S (S b)) in
  doc_at c3 c2 c1 leaf b h -> keyed c3 c2 c1 = true ->
  exists h',
    exec (obj_env o) WRITE_K h = (Ok VNone, h')
    /\ exec (obj_env o) READ_K h' = (Ok (VInt 200), h').
Proof.
  intros o Hdoc Hk. exists (<[b := leaf_obj c3 (VInt 200)]> h). unfold o.
  rewrite (exec_WRITE_K _ _ _ _ _ _ Hdoc), Hk. split; [reflexivity|].
  rewrite (exec_READ_K _ _ _ _ _ _ (doc_at_write _ _ _ _ _ _ Hdoc (VInt 200))).
  now rewrite Hk.
Qed.

(** A collaborator library that cannot be imported has no instance, and
    its entry is skipped. *)
Lemma unavailable_library_skipped w g inst h m X :
  module_init w [] = (Ok (g, inst), h) ->
  In (m, X) guards -> site_packages w !! m = None ->
  inst !! X = None /\ skipped inst X = true.
Proof.
  intros E Hin Hm.
  destruct (module_init_ok w g inst h E) as (_ & _ & _ & _ & Hno & _).
  pose proof (Hno m X Hin Hm) as Hn. split; [exact Hn|].
  unfold skipped. rewrite bool_decide_eq_true_2 by exact Hn.
  cbn in Hin.
  repeat (destruct Hin as [[= <- <-] | Hin]; [reflexivity|]).
  destruct Hin.
Qed.

(** Without [attrs] the module body does not reach its end. *)
Lemma module_init_needs_attrs w :
  attrs_installed w = false ->
  exists e h, module_init w [] = (Raise e, h).
Proof.
  intros Ha. destruct (module_init w []) as [[[g inst]|e] h] eqn:E; [|eauto].
  destruct (module_init_ok w g inst h E) as (_ & _ & Ha' & _). congruence.
Qed.

(** The module body in the sample environment [world_lattix]. *)
Lemma module_init_lattix :
  module_init world_lattix [] =
  (Ok (globals_of world_lattix, instances_of world_lattix),
   heap_of world_lattix).
Proof. vm_cast_no_check (eq_refl (module_init world_lattix [])). Qed.

Lemma instances_lattix :
  instances_of world_lattix !! "Lattix" = Some (VRef 8).
Proof. vm_cast_no_check (eq_refl (Some (VRef 8))). Qed.

(** ** The claims *)

(** *** C1: a constructor that always raises *)

(** C1 fails as stated: when the constructor of an importable collaborator
    always raises, building [instances] raises in the module body, and the
    run ends there, nothing having been printed. *)
Lemma failing_constructor_aborts :
  exists st',
    program world_failing_ctor initial_state = (Raise TypeError, st')
    /\ st_stdout st' = [].
Proof.
  eexists. split; [apply program_crash; vm_compute; reflexivity|].
  reflexivity.
Qed.

(** C1, amended: in the main block no measurement error that derives from
    [Exception] is fatal, an exception comes out of it only if it does not
    derive from [Exception]; and for an entry that is processed without an
    instance (["dict"] or ["Attrs"]) and whose Init statement raises an
    exception deriving from [Exception], the row printed has [None], hence
    [N/A], in all five cells. *)
Theorem measurement_errors_not_fatal w g inst :
  (forall st,
      match main w g inst st with
      | (Raise e, _) => is_Exception e = false
      | (Ok _, _) => True
      end)
  /\ (forall name init_stmt sk sd st e h,
         inst !! name = None -> name = "dict" \/ name = "Attrs" ->
         exec g init_stmt (st_heap st) = (Raise e, h) ->
         is_Exception e = true ->
         exists st',
           iteration w g inst (name, init_stmt, sk, sd) st = (Ok tt, st')
           /\ st_stdout st' =
              st_stdout st ++ [row_text name None None None None None]).
Proof.
  split; [apply main_no_Exception|].
  intros name init_stmt sk sd st e h Hn Hname E He.
  rewrite iteration_no_instance; [|exact Hn|].
  - unfold Comp.bind. rewrite (run_raises w init_stmt g st e h E).
    unfold catch. rewrite He. eexists. split; reflexivity.
  - unfold skipped. rewrite bool_decide_eq_true_2 by exact Hn.
    destruct Hname as [-> | ->]; reflexivity.
Qed.

(** The turn of the entry [dict] with no instance and no globals: the Init
    statement raises [NameError] on [raw_data], and the row is all [N/A]. *)
Lemma measurement_errors_not_fatal_witness :
  (∅ : gmap string value) !! "dict" = None
  /\ ("dict" = "dict" \/ "dict" = "Attrs")
  /\ exec ∅ (Expr (construct "dict")) (st_heap initial_state)
     = (Raise NameError, [])
  /\ is_Exception NameError = true
  /\ exists st',
      iteration world_lattix ∅ ∅ ("dict", Expr (construct "dict"), true, false)
        initial_state = (Ok tt, st')
      /\ st_stdout st' =
         st_stdout initial_state
         ++ [row_text "dict" None None None None None].
Proof.
  split; [reflexivity|]. split; [left; reflexivity|].
  split; [reflexivity|]. split; [reflexivity|].
  apply (proj2 (measurement_errors_not_fatal world_lattix ∅ ∅)
           "dict" (Expr (construct "dict")) true false initial_state
           NameError []).
  - reflexivity.
  - left; reflexivity.
  - reflexivity.
  - reflexivity.
Defined.

(** *** C2: a library that cannot be imported *)

(** C2 at the failing input, [attrs] not importable: the guard of [attrs]
    binds [define], not [AttrsL1], so the test [if AttrsL1:] of the module
    body raises [NameError]; the run ends there, nothing having been
    printed. *)
Theorem missing_attrs_NameError :
  exists st',
    program world_no_attrs initial_state = (Raise NameError, st')
    /\ st_stdout st' = [].
Proof.
  eexists. split; [apply program_crash; vm_compute; reflexivity|].
  reflexivity.
Qed.

(** *** C3: the timing primitive *)

(** C3 fails as stated: [run] does not turn every exception into [None].
    A statement that raises [SystemExit], which does not derive from
    [Exception], makes [run] raise [SystemExit]. *)
Lemma run_propagates_SystemExit :
  (run world_lattix (RaiseStmt SystemExit) Pass None initial_state).1
  = Raise SystemExit.
Proof.
  rewrite run_char. cbv zeta. cbn [from_option id]. rewrite exec_Pass.
  rewrite (exec_times_fail timeit_globals (RaiseStmt SystemExit) ITER_N
             (st_heap initial_state) SystemExit (st_heap initial_state)
             eq_refl ITER_N_pos).
  reflexivity.
Qed.

(** C3, amended: [run] returns the difference of the two clock readings
    when the setup and all [ITER_N] executions of the statement return; when
    the setup or an execution raises [e], it returns [None] if [e] derives
    from [Exception] and raises [e] otherwise ([catch e]). *)
Theorem run_sentinel w s setup globals st :
  let ns := default timeit_globals globals in
  match exec ns setup (st_heap st) with
  | (Raise e, _) => (run w s setup globals st).1 = catch e
  | (Ok _, h) =>
      match exec_times ns s ITER_N h with
      | (vs, None, _) =>
          (run w s setup globals st).1 =
          Ok (Some (perf_counter w (S (st_ticks st))
                    - perf_counter w (st_ticks st))%Q)
          /\ length vs = N.to_nat ITER_N
      | (_, Some e, _) => (run w s setup globals st).1 = catch e
      end
  end.
Proof.
  intros ns. rewrite run_char. cbv zeta. fold ns.
  destruct (exec ns setup (st_heap st)) as [[v|e] h]; [|reflexivity].
  destruct (exec_times ns s ITER_N h) as [[vs [e|]] h'] eqn:E; [reflexivity|].
  split; [reflexivity|]. exact (exec_times_length _ _ _ _ _ _ E).
Qed.

(** *** C4: the order of the measurements *)

(** C4 fails as stated: for [Lattix], which supports both styles, the dot
    read is timed before the key write. *)
Lemma dot_read_timed_before_key_write :
  exists st',
    program world_lattix initial_state = (Ok tt, st')
    /\ runs_of (st_trace st') =
       [ Expr (construct "dict"); READ_K; WRITE_K;
         Expr (Call (Name "Lattix") [Name "raw_data"]
                 [("lazy_create", Const (VBool true))]);
         READ_K; READ_D; WRITE_K; WRITE_D;
         Expr construct_attrs; READ_D; WRITE_D ].
Proof.
  destruct (program_good world_lattix (globals_of world_lattix)
              (instances_of world_lattix) (heap_of world_lattix))
    as (st' & rows & E & _ & _ & Hruns & _).
  { exact module_init_lattix. }
  exists st'. split; [exact E|]. rewrite Hruns. vm_compute. reflexivity.
Qed.

(** C4, amended: for an entry with both flags set and an instance, the loop
    body times the Init statement, the key read, the dot read, the key
    write and the dot write, in this order; it returns unless an exception
    outside [Exception] comes out of a measurement. *)
Theorem timing_order w g inst name init_stmt v st :
  inst !! name = Some v -> v <> VNone ->
  exists r st' seg,
    measure w g inst (name, init_stmt, true, true) st = (r, st')
    /\ st_trace st' = st_trace st ++ seg
    /\ match r with
       | Ok _ => runs_of seg = [init_stmt; READ_K; READ_D; WRITE_K; WRITE_D]
       | Raise e => is_Exception e = false
       end.
Proof.
  intros Hn Hv.
  destruct (measure_generic w g inst name init_stmt true true st)
    as (r & st' & seg & E & Ht & _ & HQ).
  exists r, st', seg. split; [exact E|]. split; [exact Ht|].
  destruct r as [results|e]; [|exact HQ].
  destruct HQ as (-> & _). rewrite Hn. cbn [from_option id].
  destruct v; try reflexivity. now destruct Hv.
Qed.

(** The loop body on a [Lattix] entry in the state the module body leaves
    in [world_lattix]. *)
Lemma timing_order_witness :
  instances_of world_lattix !! "Lattix" = Some (VRef 8)
  /\ VRef 8 <> VNone
  /\ exists r st' seg,
      measure world_lattix (globals_of world_lattix)
        (instances_of world_lattix)
        ("Lattix", Expr (construct "Lattix"), true, true)
        (loop_start world_lattix (heap_of world_lattix)) = (r, st')
      /\ st_trace st' =
         st_trace (loop_start world_lattix (heap_of world_lattix)) ++ seg
      /\ match r with
         | Ok _ =>
             runs_of seg =
             [Expr (construct "Lattix"); READ_K; READ_D; WRITE_K; WRITE_D]
         | Raise e => is_Exception e = false
         end.
Proof.
  split; [exact instances_lattix|]. split; [discriminate|].
  apply (timing_order world_lattix (globals_of world_lattix)
           (instances_of world_lattix) "Lattix" (Expr (construct "Lattix"))
           (VRef 8) (loop_start world_lattix (heap_of world_lattix))).
  - exact instances_lattix.
  - discriminate.
Defined.

(** *** C5: reads come before writes *)

(** C5: when the module body runs to its end, so does the main block, and
    in its trace no read of an instance comes after a write of the same
    instance, and every execution of a timed read yielded 100. *)
Theorem reads_observe_100 w g inst h :
  module_init w [] = (Ok (g, inst), h) ->
  exists st',
    program w initial_state = (Ok tt, st')
    /\ reads_before_writes (st_trace st')
    /\ (forall ev, ev ∈ st_trace st' -> is_read (ev_stmt ev) ->
                   observes_100 ev).
Proof.
  intros E.
  destruct (program_good w g inst h E) as (st' & rows & E' & Hr & Ho & _).
  exists st'. split; [exact E'|]. split; [exact Ho | exact Hr].
Qed.

(** The run in [world_lattix]. *)
Lemma reads_observe_100_witness :
  module_init world_lattix [] =
  (Ok (globals_of world_lattix, instances_of world_lattix),
   heap_of world_lattix)
  /\ exists st',
      program world_lattix initial_state = (Ok tt, st')
      /\ reads_before_writes (st_trace st')
      /\ (forall ev, ev ∈ st_trace st' -> is_read (ev_stmt ev) ->
                     observes_100 ev).
Proof.
  split; [exact module_init_lattix|].
  apply (reads_observe_100 world_lattix (globals_of world_lattix)
           (instances_of world_lattix) (heap_of world_lattix)).
  exact module_init_lattix.
Defined.

(** *** C6: five results per entry *)

(** C6: the loop body, when it returns, returns a [results] dict with
    exactly the five keys, in the order init, read_k, read_d, write_k,
    write_d, whatever was measured, and only an exception outside
    [Exception] keeps it from returning; and when the module body runs to
    its end, the main block does too and prints, after the header, one row
    of five cells for each entry that is not skipped, in the order of the
    registry. *)
Theorem five_results w :
  (forall g inst entry st,
      match measure w g inst entry st with
      | (Ok results, _) => map fst results = result_keys
      | (Raise e, _) => is_Exception e = false
      end)
  /\ (forall g inst h,
         module_init w [] = (Ok (g, inst), h) ->
         exists st' rows,
           program w initial_state = (Ok tt, st')
           /\ st_stdout st' = banner w ++ rows
           /\ Forall2 five_cells (active inst libs) rows).
Proof.
  split.
  - intros g inst [[[name init_stmt] sk] sd] st.
    destruct (measure_generic w g inst name init_stmt sk sd st)
      as (r & st' & seg & -> & _ & _ & HQ).
    destruct r as [results|e]; [|exact HQ].
    destruct HQ as (_ & r0 & r1 & r2 & r3 & r4 & -> & _). reflexivity.
  - intros g inst h E.
    destruct (program_good w g inst h E)
      as (st' & rows & E' & _ & _ & _ & Hout & Hrows).
    exists st', rows. split; [exact E'|]. split; [exact Hout|].
    eapply Forall2_impl; [exact Hrows|].
    intros [[[name init_stmt] sk] sd] row
           (r0 & r1 & r2 & r3 & r4 & -> & _).
    exists r0, r1, r2, r3, r4. reflexivity.
Qed.

(** The rows of the run in [world_lattix]. *)
Lemma five_results_witness :
  module_init world_lattix [] =
  (Ok (globals_of world_lattix, instances_of world_lattix),
   heap_of world_lattix)
  /\ exists st' rows,
      program world_lattix initial_state = (Ok tt, st')
      /\ st_stdout st' = banner world_lattix ++ rows
      /\ Forall2 five_cells (active (instances_of world_lattix) libs) rows.
Proof.
  split; [exact module_init_lattix|].
  apply (proj2 (five_results world_lattix) (globals_of world_lattix)
           (instances_of world_lattix) (heap_of world_lattix)).
  exact module_init_lattix.
Defined.

(** *** C7: unsupported access styles *)

(** C7: for an entry whose key flag is unset, the loop body leaves [None]
    under read_k and write_k, and for an entry whose dot flag is unset,
    under read_d and write_d; this whether the entry has an instance or
    not and whatever the Init measurement gave.  (Only an exception outside
    [Exception] keeps the loop body from returning.) *)
Theorem unsupported_style_not_applicable w g inst name init_stmt st :
  (forall sd,
      match measure w g inst (name, init_stmt, false, sd) st with
      | (Ok results, _) =>
          alist_get "read_k" results = Some None
          /\ alist_get "write_k" results = Some None
      | (Raise e, _) => is_Exception e = false
      end)
  /\ (forall sk,
         match measure w g inst (name, init_stmt, sk, false) st with
         | (Ok results, _) =>
             alist_get "read_d" results = Some None
             /\ alist_get "write_d" results = Some None
         | (Raise e, _) => is_Exception e = false
         end).
Proof.
  split.
  - intros sd.
    destruct (measure_generic w g inst name init_stmt false sd st)
      as (r & st' & seg & -> & _ & _ & HQ).
    destruct r as [results|e]; [|exact HQ].
    destruct HQ as (_ & r0 & r1 & r2 & r3 & r4 & -> & Hk & _).
    destruct (Hk eq_refl) as (-> & ->). split; reflexivity.
  - intros sk.
    destruct (measure_generic w g inst name init_stmt sk false st)
      as (r & st' & seg & -> & _ & _ & HQ).
    destruct r as [results|e]; [|exact HQ].
    destruct HQ as (_ & r0 & r1 & r2 & r3 & r4 & -> & _ & Hd).
    destruct Hd as (-> & ->); [apply andb_false_l|]. split; reflexivity.
Qed.

(** *** C8: isolation of the instances *)

(** C8: in a run whose module body ends, the turn of any entry of the
    registry, from the state the turns before it have left, changes
    nothing of what can be reached from [raw_data] nor from the instance of
    any other entry. *)
Theorem turn_isolated w g inst h pre entry post :
  module_init w [] = (Ok (g, inst), h) ->
  libs = pre ++ entry :: post ->
  exists st1 st2,
    for_each (iteration w g inst) pre (loop_start w h) = (Ok tt, st1)
    /\ iteration w g inst entry st1 = (Ok tt, st2)
    /\ (exists rd, g !! "raw_data" = Some rd
        /\ forall depth,
            snapshot depth (st_heap st2) rd = snapshot depth (st_heap st1) rd)
    /\ (forall name v depth,
           name <> entry_name entry -> inst !! name = Some v ->
           snapshot depth (st_heap st2) v = snapshot depth (st_heap st1) v).
Proof.
  intros E Hlibs.
  destruct (turn_effect w g inst h pre entry post E Hlibs)
    as (st1 & st2 & E1 & E2 & (Hraw1 & Hdocs1) & (Hraw2 & Hdocs2)
        & Hnone & Hsome).
  destruct (start_ok w g inst h E) as ((_ & Hinj & _) & _).
  destruct (module_init_ok w g inst h E) as (Hg & _).
  exists st1, st2. split; [exact E1|]. split; [exact E2|]. split.
  - exists (VRef 2). split; [rewrite Hg; apply globals_raw_data|].
    intros depth. exact (snapshot_doc _ _ _ _ _ _ _ Hraw1 Hraw2 depth).
  - intros name v depth Hne Hv.
    destruct (inst !! entry_name entry) as [ve|] eqn:Hentry.
    2: { now rewrite (Hnone eq_refl). }
    destruct (Hsome ve eq_refl) as (b & c & x & junk & -> & Hheap).
    destruct (Hdocs1 name v Hv)
      as (b' & c3 & c2 & c1 & leaf & -> & Hb' & Hdoc' & Hleaf & _).
    destruct (Hdocs1 _ _ Hentry)
      as (b0 & d3 & d2 & d1 & leaf0 & [= <-] & Hb & Hdoc & _).
    destruct (leaf_is_int leaf Hleaf) as (n & ->).
    assert (Hbb : b' <> b).
    { intros ->. apply Hne. exact (Hinj _ _ _ Hv Hentry). }
    apply (snapshot_doc c3 c2 c1 n b'); [exact Hdoc'|].
    rewrite Hheap. apply doc_at_frame; [exact Hdoc'|].
    destruct (docs_disjoint _ _ _ _ _ _ _ _ _ _ _ Hdoc' Hdoc Hbb);
      [left | right]; assumption.
Qed.

(** The turn of [Lattix], after that of [dict], in [world_lattix]. *)
Lemma turn_isolated_witness :
  module_init world_lattix [] =
  (Ok (globals_of world_lattix, instances_of world_lattix),
   heap_of world_lattix)
  /\ libs =
     [("dict", Expr (construct "dict"), true, false)]
     ++ ("Lattix",
         Expr (Call (Name "Lattix") [Name "raw_data"]
                 [("lazy_create", Const (VBool true))]), true, true)
     :: skipn 2 libs
  /\ exists st1 st2,
      for_each
        (iteration world_lattix (globals_of world_lattix)
           (instances_of world_lattix))
        [("dict", Expr (construct "dict"), true, false)]
        (loop_start world_lattix (heap_of world_lattix)) = (Ok tt, st1)
      /\ iteration world_lattix (globals_of world_lattix)
           (instances_of world_lattix)
           ("Lattix",
            Expr (Call (Name "Lattix") [Name "raw_data"]
                    [("lazy_create", Const (VBool true))]), true, true)
           st1 = (Ok tt, st2)
      /\ (exists rd, globals_of world_lattix !! "raw_data" = Some rd
          /\ forall depth,
              snapshot depth (st_heap st2) rd
              = snapshot depth (st_heap st1) rd)
      /\ (forall name v depth,
             name <> "Lattix" ->
             instances_of world_lattix !! name = Some v ->
             snapshot depth (st_heap st2) v = snapshot depth (st_heap st1) v).
Proof.
  split; [exact module_init_lattix|]. split; [reflexivity|].
  apply (turn_isolated world_lattix (globals_of world_lattix)
           (instances_of world_lattix) (heap_of world_lattix)
           [("dict", Expr (construct "dict"), true, false)]
           ("Lattix",
            Expr (Call (Name "Lattix") [Name "raw_data"]
                    [("lazy_create", Const (VBool true))]), true, true)
           (skipn 2 libs)).
  - exact module_init_lattix.
  - reflexivity.
Defined.

(** *** C9: the cells of the table *)

Lemma all_digits_app s t :
  all_digits (s ++ t) = all_digits s && all_digits t.
Proof.
  induction s as [|c s IH]; [reflexivity|].
  transitivity (is_digit c && all_digits (s ++ t)); [reflexivity|].
  rewrite IH. apply andb_assoc.
Qed.

Lemma string_length_app s t :
  String.length (s ++ t) = String.length s + String.length t.
Proof.
  induction s as [|c s IH]; [reflexivity|].
  transitivity (S (String.length (s ++ t))); [reflexivity|].
  now rewrite IH.
Qed.

Lemma is_digit_digit_char n : is_digit (digit_char n) = true.
Proof.
  unfold is_digit, digit_char.
  assert (Hlt : (n mod 10 < 10)%N) by (apply N.mod_lt; discriminate).
  set (m := (n mod 10)%N) in *. clearbody m.
  rewrite N_ascii_embedding by lia.
  apply andb_true_iff. split; apply N.leb_le; lia.
Qed.

Lemma last_digits_length k n : String.length (last_digits k n) = k.
Proof.
  revert n. induction k as [|k IH]; intros n; [reflexivity|].
  cbn [last_digits]. rewrite string_length_app, IH. cbn [String.length]. lia.
Qed.

Lemma last_digits_all k n : all_digits (last_digits k n) = true.
Proof.
  revert n. induction k as [|k IH]; intros n; [reflexivity|].
  cbn [last_digits]. rewrite all_digits_app, IH. cbn [all_digits].
  now rewrite is_digit_digit_char.
Qed.

Lemma string_of_uint_all d : all_digits (NilEmpty.string_of_uint d) = true.
Proof. induction d; cbn; auto. Qed.

Lemma digits_all n : all_digits (digits n) = true.
Proof.
  unfold digits, NilZero.string_of_uint.
  destruct (N.to_uint n) eqn:E; try reflexivity;
    rewrite <- E; apply string_of_uint_all.
Qed.

Lemma digits_nonempty n : digits n <> EmptyString.
Proof.
  unfold digits, NilZero.string_of_uint.
  destruct (N.to_uint n); discriminate.
Qed.

(** The rounding of [format_5f] is to a nearest integer. *)
Lemma round_half_even_nearest num den :
  (0 <= num)%Z ->
  (Z.abs (2 * (Z.of_N (round_half_even num den) * Zpos den - num))
   <= Zpos den)%Z.
Proof.
  intros Hnum. unfold round_half_even.
  pose proof (Z.div_mod num (Zpos den) ltac:(discriminate)) as Hdm.
  pose proof (Z.mod_pos_bound num (Zpos den) ltac:(reflexivity)) as Hr.
  assert (Hq : (0 <= num / Zpos den)%Z) by (apply Z.div_pos; lia).
  set (q := (num / Zpos den)%Z) in *. set (r := (num mod Zpos den)%Z) in *.
  clearbody q r. set (d := Zpos den) in *.
  assert (Hd : (0 < d)%Z) by reflexivity. clearbody d.
  assert (E0 : (q * d - num = - r)%Z) by (rewrite Hdm; ring).
  assert (E1 : ((q + 1) * d - num = d - r)%Z) by (rewrite Hdm; ring).
  destruct (2 * r ?= d)%Z eqn:C;
    [apply Z.compare_eq in C; destruct (Z.even q)
    | change (2 * r < d)%Z in C
    | change (2 * r > d)%Z in C];
    rewrite Z2N.id by lia; rewrite ?E0, ?E1; lia.
Qed.

(** C9: a missing result renders as [N/A]; a present one as a decimal with
    exactly five fractional digits, which denotes the value rounded to the
    nearest multiple of 10^-5; every cell of a row is one or the other; and
    the header names the columns Library, Init, Read(K), Read(D), Write(K),
    Write(D). *)
Theorem cells_rendering :
  format_res None = "N/A"
  /\ (forall v, five_decimals (format_res (Some v)))
  /\ (forall v,
         let n := round_half_even (Z.abs (Qnum v) * 100000) (Qden v) in
         format_res (Some v) =
         ((if (Qnum v <? 0)%Z then "-" else EmptyString)
          ++ digits (n / 100000) ++ "." ++ last_digits 5 n)%string
         /\ (Z.abs (2 * (Z.of_N n * Zpos (Qden v)
                         - Z.abs (Qnum v) * 100000))
             <= Zpos (Qden v))%Z)
  /\ (forall name r0 r1 r2 r3 r4 st,
         render_row name (cells r0 r1 r2 r3 r4) st =
         (Ok (ljust 12 name ++ " | " ++ ljust 8 (format_res r0) ++ " | "
              ++ ljust 8 (format_res r1) ++ " | "
              ++ ljust 8 (format_res r2) ++ " | "
              ++ ljust 8 (format_res r3) ++ " | "
              ++ ljust 8 (format_res r4))%string, st))
  /\ (forall r, format_res r = "N/A" \/ five_decimals (format_res r))
  /\ header =
     "Library      | Init     | Read(K)  | Read(D)  | Write(K) | Write(D)".
Proof.
  assert (H5 : forall v, five_decimals (format_res (Some v))).
  { intros v. cbn [format_res]. unfold format_5f.
    set (n := round_half_even (Z.abs (Qnum v) * 100000) (Qden v)).
    exists (if (Qnum v <? 0)%Z then "-" else EmptyString),
           (digits (n / 100000)), (last_digits 5 n).
    split; [reflexivity|].
    split; [destruct (Qnum v <? 0)%Z; [right | left]; reflexivity|].
    split; [apply digits_nonempty|]. split; [apply digits_all|].
    split; [apply last_digits_all | apply last_digits_length]. }
  split; [reflexivity|]. split; [exact H5|]. split.
  { intros v n. split; [reflexivity|].
    apply round_half_even_nearest. lia. }
  split; [reflexivity|]. split; [|reflexivity].
  intros [v|]; [right; apply H5 | left; reflexivity].
Qed.

(** Some renderings: exact, rounded down, rounded up, and the two kinds of
    tie. *)
Example format_res_samples :
  format_res (Some (1 # 8)%Q) = "0.12500"
  /\ format_res (Some (37 # 3)%Q) = "12.33333"
  /\ format_res (Some (2 # 3)%Q) = "0.66667"
  /\ format_res (Some (1 # 200000)%Q) = "0.00000"
  /\ format_res (Some (3 # 200000)%Q) = "0.00002"
  /\ ljust 8 (format_res None) = "N/A     ".
Proof. repeat split. Qed.

(** *** C10: entries without an instance *)

(** C10: an entry whose name has no instance is skipped, the state being
    left as it is, unless the name is ["dict"] or ["Attrs"]; for these the
    Init statement is timed and the row printed has its result in the Init
    cell and [None] in the four others. *)
Theorem missing_instance_turn w g inst name init_stmt sk sd st :
  inst !! name = None ->
  iteration w g inst (name, init_stmt, sk, sd) st =
  if String.eqb name "dict" || String.eqb name "Attrs"
  then (r <- run w init_stmt Pass (Some g) ;;
        print (row_text name r None None None None)) st
  else (Ok tt, st).
Proof.
  intros Hn.
  destruct (String.eqb name "dict" || String.eqb name "Attrs") eqn:Hx.
  - apply iteration_no_instance; [exact Hn|].
    unfold skipped. rewrite bool_decide_eq_true_2 by exact Hn.
    apply orb_true_iff in Hx as [-> | ->]; [reflexivity|].
    now rewrite andb_false_r.
  - apply orb_false_iff in Hx as (H1 & H2).
    unfold iteration. cbn [fst]. unfold skipped.
    rewrite bool_decide_eq_true_2 by exact Hn. now rewrite H1, H2.
Qed.

(** The turn of the entry [Attrs] when no instance has been built. *)
Lemma missing_instance_turn_witness :
  (∅ : gmap string value) !! "Attrs" = None
  /\ iteration world_lattix ∅ ∅ ("Attrs", Expr construct_attrs, false, true)
       initial_state =
     if String.eqb "Attrs" "dict" || String.eqb "Attrs" "Attrs"
     then (r <- run world_lattix (Expr construct_attrs) Pass (Some ∅) ;;
           print (row_text "Attrs" r None None None None)) initial_state
     else (Ok tt, initial_state).
Proof.
  split; [reflexivity|].
  apply (missing_instance_turn world_lattix ∅ ∅ "Attrs" (Expr construct_attrs)
           false true initial_state).
  reflexivity.
Defined.

(** * Further properties *)

(** ** The timing primitive *)

Lemma exec_times_lt ns s n h vs e h' :
  exec_times ns s n h = (vs, Some e, h') -> length vs < N.to_nat n.
Proof.
  revert vs e h'. induction n as [|n IH] using N.peano_ind; intros vs e h'.
  - cbn. discriminate.
  - rewrite exec_times_succ, N2Nat.inj_succ.
    destruct (exec_times ns s n h) as [[vs0 [e0|]] h0] eqn:E.
    + intros [= <- _ _]. specialize (IH _ _ _ eq_refl). lia.
    + pose proof (exec_times_length _ _ _ _ _ _ E) as Hlen.
      destruct (exec ns s h0) as [[v|e1] h1]; [discriminate|].
      intros [= <- _ _]. lia.
Qed.

(** X1: [run] stops at the first exception.  The trace it leaves holds its
    call and one event per execution that returned; there are [ITER_N] of
    them, and two readings of the clock, exactly when a timing is returned;
    otherwise there are fewer, the setup or an execution having raised, and
    the clock was read once at most.  Nothing is printed. *)
Theorem run_stops_at_first_exception w s setup globals st :
  let ns := default timeit_globals globals in
  exists r st' vs,
    run w s setup globals st = (r, st')
    /\ st_trace st' =
       st_trace st ++ EvRun s (ns !! "obj") :: map (EvExec s (ns !! "obj")) vs
    /\ st_stdout st' = st_stdout st
    /\ match r with
       | Ok (Some _) =>
           length vs = N.to_nat ITER_N /\ st_ticks st' = 2 + st_ticks st
       | _ => length vs < N.to_nat ITER_N /\ st_ticks st' <= 1 + st_ticks st
       end.
Proof.
  intros ns. rewrite run_char. cbv zeta. fold ns.
  pose proof ITER_N_pos as Hpos.
  destruct (exec ns setup (st_heap st)) as [[v|e] h].
  - destruct (exec_times ns s ITER_N h) as [[vs [e|]] h'] eqn:E.
    + pose proof (exec_times_lt _ _ _ _ _ _ _ E) as Hlt.
      eexists _, _, vs. split; [reflexivity|]. split; [reflexivity|].
      split; [reflexivity|]. unfold catch. cbn [st_ticks upd].
      destruct (is_Exception e); split; (exact Hlt || lia).
    + pose proof (exec_times_length _ _ _ _ _ _ E) as Hlen.
      eexists _, _, vs. split; [reflexivity|]. split; [reflexivity|].
      split; [reflexivity|]. split; [exact Hlen | reflexivity].
  - eexists _, _, []. split; [reflexivity|]. split; [reflexivity|].
    split; [reflexivity|]. unfold catch. cbn [st_ticks upd length].
    destruct (is_Exception e); split; lia.
Qed.

Lemma exec_access_unbound s h :
  is_read s \/ is_write s ->
  exec timeit_globals s h = (Raise NameError, h).
Proof. intros [[-> | ->] | [-> | ->]]; reflexivity. Qed.

(** X2: without globals, as [run] is called with its default, the name
    [obj] is unbound in the statement: each of the four access statements
    raises [NameError] at its first execution, and [run] returns [None],
    the heap being left as it was. *)
Theorem run_without_globals w s st :
  is_read s \/ is_write s ->
  run w s Pass None st = (Ok None, upd st (st_heap st) 1 [EvRun s None]).
Proof.
  intros Hs. rewrite run_char. cbv zeta. cbn [from_option id].
  rewrite exec_Pass.
  rewrite (exec_times_fail timeit_globals s ITER_N _ _ _
             (exec_access_unbound s (st_heap st) Hs) ITER_N_pos).
  reflexivity.
Qed.

(** The key read with no globals, from the initial state. *)
Lemma run_without_globals_witness :
  (is_read READ_K \/ is_write READ_K)
  /\ run world_lattix READ_K Pass None initial_state =
     (Ok None, upd initial_state (st_heap initial_state) 1 [EvRun READ_K None]).
Proof.
  split; [left; left; reflexivity|].
  apply (run_without_globals world_lattix READ_K initial_state).
  left; left; reflexivity.
Defined.

Lemma reading_nonneg w d :
  (forall n, (perf_counter w n <= perf_counter w (S n))%Q) ->
  reading w d -> (0 <= d)%Q.
Proof.
  intros Hmono (t & ->). unfold Qminus. rewrite <- Qle_minus_iff. apply Hmono.
Qed.

(** A timing returned by [run] is a difference of consecutive readings. *)
Lemma run_reading w s setup globals st t st' :
  run w s setup globals st = (Ok (Some t), st') -> reading w t.
Proof.
  rewrite run_char. cbv zeta.
  destruct (exec _ setup (st_heap st)) as [[v|e] h].
  - destruct (exec_times _ s ITER_N h) as [[vs [e|]] h'].
    + unfold catch. destruct (is_Exception e); discriminate.
    + intros [= <- _]. now exists (st_ticks st).
  - unfold catch. destruct (is_Exception e); discriminate.
Qed.

(** X3: with a clock that never goes back, a timing returned by [run] is
    not negative. *)
Theorem run_timing_nonnegative w s setup globals st t st' :
  (forall n, (perf_counter w n <= perf_counter w (S n))%Q) ->
  run w s setup globals st = (Ok (Some t), st') ->
  (0 <= t)%Q.
Proof.
  intros Hmono E. eapply reading_nonneg; [exact Hmono|].
  eapply run_reading; exact E.
Qed.

Lemma clock_monotone n : (clock n <= clock (S n))%Q.
Proof. unfold clock, Qle. cbn [Qnum Qden]. lia. Qed.

Lemma run_Pass_lattix :
  run world_lattix Pass Pass None initial_state =
  (Ok (Some (clock 1 - clock 0)%Q),
   upd initial_state [] 2
       (EvRun Pass None :: map (EvExec Pass None)
                               (replicate (N.to_nat ITER_N) VNone))).
Proof.
  rewrite run_char. cbv zeta. cbn [from_option id]. rewrite exec_Pass.
  rewrite (exec_times_pure timeit_globals Pass ITER_N (st_heap initial_state)
             VNone (exec_Pass timeit_globals (st_heap initial_state))).
  reflexivity.
Qed.

(** Timing [pass] in [world_lattix]. *)
Lemma run_timing_nonnegative_witness :
  (forall n, (perf_counter world_lattix n <= perf_counter world_lattix (S n))%Q)
  /\ run world_lattix Pass Pass None initial_state =
     (Ok (Some (clock 1 - clock 0)%Q),
      upd initial_state [] 2
          (EvRun Pass None :: map (EvExec Pass None)
                                  (replicate (N.to_nat ITER_N) VNone)))
  /\ (0 <= clock 1 - clock 0)%Q.
Proof.
  split; [exact clock_monotone|]. split; [exact run_Pass_lattix|].
  apply (run_timing_nonnegative world_lattix Pass Pass None initial_state
           (clock 1 - clock 0)%Q _ clock_monotone run_Pass_lattix).
Defined.

(** ** The table *)

(** X4: the marker [N/A] is the rendering of a missing result and of
    nothing else: no timing renders as [N/A]. *)
Theorem format_res_unambiguous r : format_res r = "N/A" <-> r = None.
Proof.
  split; [|now intros ->].
  destruct r as [v|]; [|reflexivity]. intros H. exfalso.
  cbn [format_res] in H. unfold format_5f in H.
  set (n := round_half_even (Z.abs (Qnum v) * 100000) (Qden v)) in H.
  pose proof (digits_nonempty (n / 100000)) as Hne.
  pose proof (digits_all (n / 100000)) as Hd.
  destruct (digits (n / 100000)) as [|c int]; [now destruct Hne|].
  cbn [all_digits] in Hd. apply andb_true_iff in Hd as (Hc & _).
  destruct (Qnum v <? 0)%Z.
  - change (String "-" (String c (int ++ "." ++ last_digits 5 n)) = "N/A") in H.
    discriminate H.
  - change (String c (int ++ "." ++ last_digits 5 n) = "N/A") in H.
    injection H as -> _. discriminate Hc.
Qed.

Lemma spaces_length n : String.length (spaces n) = n.
Proof. induction n as [|n IH]; [reflexivity|]. cbn. now rewrite IH. Qed.

(** [f"{s:<w}"] pads and never truncates. *)
Lemma ljust_length w s :
  String.length (ljust w s) = Nat.max w (String.length s).
Proof. unfold ljust. rewrite string_length_app, spaces_length. lia. Qed.

Lemma digits_short m : (m < 100)%N -> String.length (digits m) <= 2.
Proof.
  intros Hm. rewrite <- (N2Nat.id m).
  assert (Hk : N.to_nat m < 100) by lia. revert Hk.
  generalize (N.to_nat m). intros k Hk.
  do 100 (destruct k as [|k]; [vm_compute; lia|]). lia.
Qed.

Lemma round_half_even_lt num den k :
  (0 <= num)%Z -> (0 <= k)%Z -> (num < k * Zpos den)%Z ->
  (Z.of_N (round_half_even num den) <= k)%Z.
Proof.
  intros Hnum Hk Hlt.
  pose proof (round_half_even_nearest num den Hnum) as Hn.
  set (n := Z.of_N (round_half_even num den)) in *.
  assert (Hn' : (2 * (n * Zpos den - num) <= Zpos den)%Z) by lia.
  destruct (Z_le_gt_dec n k) as [Hle|Hgt]; [exact Hle|]. exfalso.
  assert (((k + 1) * Zpos den <= n * Zpos den)%Z)
    by (apply Z.mul_le_mono_nonneg_r; lia).
  lia.
Qed.

(** A timing from 0 to 99 seconds renders in 7 or 8 characters. *)
Lemma format_res_fits r : cell_fits r -> String.length (format_res r) <= 8.
Proof.
  destruct r as [v|]; [|cbn; lia]. intros (H0 & H99).
  cbn [format_res]. unfold format_5f.
  unfold Qle in H0. unfold Qlt in H99. cbn [Qnum Qden] in H0, H99.
  assert (Hnum : (0 <= Qnum v)%Z) by lia.
  replace (Qnum v <? 0)%Z with false by (symmetry; apply Z.ltb_ge; exact Hnum).
  rewrite Z.abs_eq by exact Hnum.
  set (n := round_half_even (Qnum v * 100000) (Qden v)).
  assert (Hn : (Z.of_N n <= 9900000)%Z).
  { apply round_half_even_lt; lia. }
  assert (Hq : (n / 100000 < 100)%N).
  { apply N.Div0.div_lt_upper_bound. lia. }
  change (String.length (digits (n / 100000) ++ "." ++ last_digits 5 n) <= 8).
  rewrite !string_length_app, last_digits_length.
  pose proof (digits_short _ Hq). cbn [String.length]. lia.
Qed.

Lemma ljust_fits w s : String.length s <= w -> String.length (ljust w s) = w.
Proof. intros H. rewrite ljust_length. lia. Qed.

(** X5: the rows line up with the header.  A row whose name has at most 12
    characters and whose timings are from 0 to 99 seconds is 67 characters
    wide, as the header is. *)
Theorem row_width name r0 r1 r2 r3 r4 :
  String.length name <= 12 ->
  cell_fits r0 -> cell_fits r1 -> cell_fits r2 -> cell_fits r3 ->
  cell_fits r4 ->
  String.length (row_text name r0 r1 r2 r3 r4) = String.length header.
Proof.
  intros Hname H0 H1 H2 H3 H4.
  replace (String.length header) with 67 by (vm_compute; reflexivity).
  unfold row_text. rewrite !string_length_app.
  rewrite (ljust_fits 12 name Hname).
  rewrite !ljust_fits by (apply format_res_fits; assumption).
  reflexivity.
Qed.

(** A row of [dict] with three timings. *)
Lemma row_width_witness :
  String.length "dict" <= 12
  /\ cell_fits (Some (1 # 8)%Q) /\ cell_fits (Some (1 # 8)%Q)
  /\ cell_fits None /\ cell_fits (Some (37 # 3)%Q) /\ cell_fits None
  /\ String.length
       (row_text "dict" (Some (1 # 8)%Q) (Some (1 # 8)%Q) None
          (Some (37 # 3)%Q) None)
     = String.length header.
Proof.
  assert (F1 : cell_fits (Some (1 # 8)%Q)) by (split; [unfold Qle | unfold Qlt]; cbn; lia).
  assert (F2 : cell_fits (Some (37 # 3)%Q)) by (split; [unfold Qle | unfold Qlt]; cbn; lia).
  split; [cbn; lia|]. split; [exact F1|]. split; [exact F1|].
  split; [exact I|]. split; [exact F2|]. split; [exact I|].
  apply (row_width "dict" (Some (1 # 8)%Q) (Some (1 # 8)%Q) None
           (Some (37 # 3)%Q) None); [cbn; lia | exact F1 | exact F1
           | exact I | exact F2 | exact I].
Defined.

(** ** The module body *)

(** X6: the second guard of [treedict] (the script has two) changes
    nothing: the names bound by the block of imports are those bound with
    [treedict] guarded once. *)
Theorem treedict_guard_redundant w : imports w = imports_once w.
Proof.
  apply map_eq. intros Y. unfold imports, imports_once, import_attrs.
  cbv zeta.
  destruct (attrs_installed w);
    repeat (rewrite lookup_insert || rewrite lookup_import_guard);
    repeat case_decide; congruence.
Qed.

Section ModuleRun.

Variable w : world.

Local Abbreviation g := (module_globals w).

(** A guarded registration when no constructor raises. *)
Lemma register_lib_run m X inst h :
  built w inst h -> In (m, X) guards -> ctors_ok w ->
  exists inst' h' junk,
    register g X X (construct X) inst h = (Ok inst', h')
    /\ (is_Some (site_packages w !! m) -> is_Some (inst' !! X))
    /\ (forall n, n <> X -> inst' !! n = inst !! n)
    /\ h' = h ++ junk.
Proof.
  intros Hb Hin Hc.
  rewrite (register_lib w g m X inst h);
    [| now apply globals_guard | apply globals_raw_data | apply Hb].
  destruct (site_packages w !! m) as [impl|] eqn:Hm.
  - rewrite (Hc m X impl Hin Hm). eexists _, _, _. split; [reflexivity|].
    split; [intros _; rewrite lookup_insert_eq; eauto|].
    split; [|reflexivity]. intros n Hn. now rewrite lookup_insert_ne.
  - exists inst, h, []. split; [reflexivity|].
    split; [intros [? [=]]|]. split; [reflexivity|]. now rewrite app_nil_r.
Qed.

Ltac step_register E B B' M S D m X Hc :=
  let R := fresh "R" in
  let Hin := fresh "Hin" in
  let O := fresh "O" in
  let G := fresh "G" in
  let i := fresh "inst" in
  let hh := fresh "h" in
  let j := fresh "junk" in
  let D1 := fresh "D" in
  let D2 := fresh "D" in
  assert (Hin : In (m, X) guards) by (cbn; tauto);
  destruct (register_lib_run m X _ _ B Hin Hc) as (i & hh & j & R & S & O & G);
  unfold Comp.bind at 1 in E; rewrite R in E;
  destruct (register_lib_built w m X _ _ _ _ B Hin R) as (B' & M & _);
  destruct D as (D1 & D2);
  assert (D : dict_at i hh)
    by (split; [rewrite O by discriminate; exact D1
               | rewrite G; apply doc_at_app; exact D2]);
  clear R Hin O G D1 D2.

(** With [attrs] and constructors that do not raise, the module body runs
    to its end, and every importable collaborator has an instance. *)
Lemma module_init_run :
  attrs_installed w = true -> ctors_ok w ->
  exists inst h,
    module_init w [] = (Ok (g, inst), h)
    /\ (forall m X, In (m, X) guards -> is_Some (site_packages w !! m) ->
                    is_Some (inst !! X))
    /\ dict_at inst h.
Proof.
  intros Ha Hc.
  assert (E : exists r, module_init w [] = r) by eauto.
  destruct E as (r & E). rewrite E. unfold module_init in E. cbv zeta in E.
  unfold Comp.bind at 1 in E. rewrite new_document_eq in E.
  unfold Comp.bind at 1 in E. rewrite new_document_eq in E.
  cbn [length app doc_objs] in E. fold g in E.
  pose proof (built_init w) as B0. cbn [app doc_objs] in B0.
  assert (D : dict_at (<["dict" := VRef 5]> ∅)
                [leaf_obj DictCls (VInt 100); mid_obj DictCls 0;
                 top_obj DictCls 0; leaf_obj DictCls (VInt 100);
                 mid_obj DictCls 3; top_obj DictCls 3]).
  { split; [apply lookup_insert_eq | repeat split]. }
  step_register E B0 B1 M1 S1 D "lattix" "Lattix" Hc.
  step_register E B1 B2 M2 S2 D "easydict" "EasyDict" Hc.
  step_register E B2 B3 M3 S3 D "addict" "Addict" Hc.
  step_register E B3 B4 M4 S4 D "box" "Box" Hc.
  step_register E B4 B5 M5 S5 D "treedict" "TreeDict" Hc.
  destruct (globals_attrs w) as (H1 & H2 & H3).
  assert (R : register g "AttrsL1" "Attrs" construct_attrs inst3 h3 =
              (Ok (<["Attrs" := VRef (S (S (length h3)))]> inst3),
               h3 ++ doc_objs AttrsL3 AttrsL2 AttrsL1 (VInt 100) (length h3))).
  { rewrite (register_attrs w g inst3 h3 H1 H2 H3). now rewrite Ha. }
  unfold Comp.bind at 1 in E. rewrite R in E.
  destruct (register_attrs_built w _ _ _ _ B5 R) as (B6 & _ & _ & NA).
  destruct D as (D1 & D2).
  assert (D : dict_at (<["Attrs" := VRef (S (S (length h3)))]> inst3)
                (h3 ++ doc_objs AttrsL3 AttrsL2 AttrsL1 (VInt 100)
                                (length h3))).
  { split; [rewrite lookup_insert_ne by discriminate; exact D1
           | apply doc_at_app; exact D2]. }
  clear D1 D2.
  step_register E B6 B7 M7 S7 D "dotted_dict" "DottedDict" Hc.
  subst r. eexists _, _. split; [reflexivity|]. split; [|exact D].
  intros m X Hin Hm. cbn in Hin.
  repeat (destruct Hin as [[= <- <-] | Hin]); [ .. | destruct Hin].
  1-5: apply M7; rewrite NA by discriminate; eauto 10.
  auto.
Qed.

End ModuleRun.

(** X7: the module body runs to its end exactly when [attrs] can be
    imported and no importable collaborator has a constructor that raises;
    otherwise the run ends before the header is printed. *)
Theorem module_init_complete_iff w :
  (exists g inst h, module_init w [] = (Ok (g, inst), h))
  <-> attrs_installed w = true /\ ctors_ok w.
Proof.
  split.
  - intros (g & inst & h & E).
    destruct (module_init_ok w g inst h E) as (_ & _ & Ha & _ & _ & Hc).
    split; [exact Ha | exact Hc].
  - intros (Ha & Hc).
    destruct (module_init_run w Ha Hc) as (inst & h & E & _). eauto.
Qed.

(** X8: when the module body has run to its end, the names that have an
    instance are ["dict"], ["Attrs"] and the classes of the collaborators
    that can be imported. *)
Theorem instances_domain w g inst h :
  module_init w [] = (Ok (g, inst), h) ->
  forall name,
    is_Some (inst !! name)
    <-> name = "dict" \/ name = "Attrs"
        \/ exists m, In (m, name) guards /\ is_Some (site_packages w !! m).
Proof.
  intros E name.
  destruct (module_init_ok w g inst h E)
    as (_ & (_ & _ & Hprov & Hdict) & Ha & HA & _ & Hc).
  destruct (module_init_run w Ha Hc) as (inst' & h' & E' & Hdom & _).
  rewrite E in E'. injection E' as _ <- _.
  split.
  - intros Hn. destruct (Hprov name Hn)
      as [-> | [(m & impl & Hin & Hm & _) | (-> & _)]]; auto.
    right. right. exists m. split; [exact Hin|]. rewrite Hm. eauto.
  - intros [-> | [-> | (m & Hin & Hm)]]; auto. exact (Hdom m name Hin Hm).
Qed.

(** The instances in [world_lattix]. *)
Lemma instances_domain_witness :
  module_init world_lattix [] =
  (Ok (globals_of world_lattix, instances_of world_lattix),
   heap_of world_lattix)
  /\ forall name,
      is_Some (instances_of world_lattix !! name)
      <-> name = "dict" \/ name = "Attrs"
          \/ exists m, In (m, name) guards
                       /\ is_Some (site_packages world_lattix !! m).
Proof.
  split; [exact module_init_lattix|].
  apply (instances_domain world_lattix (globals_of world_lattix)
           (instances_of world_lattix) (heap_of world_lattix)).
  exact module_init_lattix.
Defined.

(** ** The loop body, cell by cell *)

Lemma reading_any w : reading w (perf_counter w 1 - perf_counter w 0)%Q.
Proof. now exists 0. Qed.

Lemma reading_at w t :
  reading w (perf_counter w (S t) - perf_counter w t)%Q.
Proof. now exists t. Qed.

(** Timing an Init statement of the registry: the constructions only
    allocate, and the timing is there. *)
Lemma run_init_exact w g init_stmt st :
  init_good g init_stmt -> raw_doc (st_heap st) ->
  exists junk evs,
    run w init_stmt Pass (Some g) st =
    (Ok (Some (perf_counter w (S (st_ticks st))
               - perf_counter w (st_ticks st))%Q),
     upd st (st_heap st ++ junk) 2 evs).
Proof.
  intros (Hnr & Hnw & Hex) Hraw. rewrite run_char. cbv zeta.
  cbn [from_option id]. rewrite exec_Pass.
  destruct (exec_times_inv g init_stmt
              (fun h' => exists junk, h' = st_heap st ++ junk)
              ITER_N (st_heap st)) as (vs & h' & E & junk & ->).
  - intros h0 (junk & ->).
    destruct (Hex (st_heap st ++ junk)) as (v & junk' & E).
    { now apply doc_at_app. }
    exists v, ((st_heap st ++ junk) ++ junk'). split; [exact E|].
    exists (junk ++ junk'). now rewrite app_assoc.
  - exists []. now rewrite app_nil_r.
  - rewrite E. eexists junk, _. reflexivity.
Qed.

Section Cells.

Variable w : world.
Variables (c3 c2 c1 : class_id) (b : nat).

Local Abbreviation o := (VRef (S (S b))).

(** A timed read gives a timing when the classes of the document answer
    to the access style, and [None] otherwise; the heap stays as it is. *)
Lemma run_read_exact s (capable : bool) leaf st :
  doc_at c3 c2 c1 leaf b (st_heap st) ->
  (s = READ_K /\ capable = keyed c3 c2 c1)
  \/ (s = READ_D /\ capable = dotted3 c3 c2 c1) ->
  exists t evs,
    run w s Pass (Some (obj_env o)) st =
    (Ok (cell capable (perf_counter w (S (st_ticks st))
                       - perf_counter w (st_ticks st))%Q),
     upd st (st_heap st) t evs).
Proof.
  intros Hdoc Hs. rewrite run_char. cbv zeta. cbn [from_option id].
  rewrite obj_env_obj, exec_Pass.
  assert (E : exists e, exec (obj_env o) s (st_heap st) =
            (if capable then Ok leaf else Raise e, st_heap st)
            /\ is_Exception e = true).
  { destruct Hs as [[-> ->] | [-> ->]].
    - exists TypeError. split; [|reflexivity]. erewrite exec_READ_K; eauto.
    - exists AttributeError. split; [|reflexivity].
      erewrite exec_READ_D; eauto. }
  destruct E as (e & E & He). destruct capable.
  - rewrite (exec_times_pure _ _ _ _ _ E). eexists _, _. reflexivity.
  - rewrite (exec_times_fail _ _ _ _ _ _ E ITER_N_pos).
    unfold catch. rewrite He. eexists _, _. reflexivity.
Qed.

(** A timed write gives a timing and stores the value when the classes
    answer to the access style; otherwise it gives [None] and the heap
    stays as it is. *)
Lemma run_write_exact s v (capable : bool) leaf st :
  doc_at c3 c2 c1 leaf b (st_heap st) ->
  (s = WRITE_K /\ v = VInt 200 /\ capable = keyed c3 c2 c1)
  \/ (s = WRITE_D /\ v = VInt 300 /\ capable = dotted3 c3 c2 c1) ->
  exists t evs,
    run w s Pass (Some (obj_env o)) st =
    (Ok (cell capable (perf_counter w (S (st_ticks st))
                       - perf_counter w (st_ticks st))%Q),
     upd st (if capable then <[b := leaf_obj c3 v]> (st_heap st)
             else st_heap st) t evs).
Proof.
  intros Hdoc Hs. rewrite run_char. cbv zeta. cbn [from_option id].
  rewrite obj_env_obj, exec_Pass.
  pose proof (doc_at_write _ _ _ _ _ _ Hdoc v) as Hdoc'.
  assert (E : exists e,
            exec (obj_env o) s (st_heap st) =
            (if capable then (Ok VNone, <[b := leaf_obj c3 v]> (st_heap st))
             else (Raise e, st_heap st))
            /\ exec (obj_env o) s (<[b := leaf_obj c3 v]> (st_heap st)) =
               (if capable
                then (Ok VNone, <[b := leaf_obj c3 v]> (st_heap st))
                else (Raise e, <[b := leaf_obj c3 v]> (st_heap st)))
            /\ is_Exception e = true).
  { destruct Hs as [(-> & -> & ->) | (-> & -> & ->)].
    - exists TypeError.
      rewrite (exec_WRITE_K _ _ _ _ _ _ Hdoc), (exec_WRITE_K _ _ _ _ _ _ Hdoc').
      rewrite list_insert_insert_eq. now destruct (keyed c3 c2 c1).
    - exists AttributeError.
      rewrite (exec_WRITE_D _ _ _ _ _ _ Hdoc), (exec_WRITE_D _ _ _ _ _ _ Hdoc').
      rewrite list_insert_insert_eq. now destruct (dotted3 c3 c2 c1). }
  destruct E as (e & E & E' & He). destruct capable.
  - rewrite (exec_times_idem _ _ _ _ _ _ E E' ITER_N_pos).
    eexists _, _. reflexivity.
  - rewrite (exec_times_fail _ _ _ _ _ _ E ITER_N_pos).
    unfold catch. rewrite He. eexists _, _. reflexivity.
Qed.

Lemma phase_read_exact (flag : bool) s capable key results leaf st :
  doc_at c3 c2 c1 leaf b (st_heap st) ->
  (s = READ_K /\ capable = keyed c3 c2 c1)
  \/ (s = READ_D /\ capable = dotted3 c3 c2 c1) ->
  exists d t evs,
    reading w d
    /\ (if flag then
          r <- run w s Pass (Some (obj_env o)) ;;
          Comp.ret (alist_set key r results)
        else Comp.ret results) st =
       (Ok (if flag then alist_set key (cell capable d) results
            else results),
        upd st (st_heap st) t evs).
Proof.
  intros Hdoc Hs. destruct flag.
  - destruct (run_read_exact s capable leaf st Hdoc Hs) as (t & evs & E).
    unfold Comp.bind. rewrite E. eexists _, t, evs.
    split; [apply reading_at | reflexivity].
  - eexists _, 0, []. split; [apply reading_any|]. now rewrite upd_id.
Qed.

Lemma phase_write_exact (flag : bool) s v capable key results leaf st :
  doc_at c3 c2 c1 leaf b (st_heap st) ->
  (s = WRITE_K /\ v = VInt 200 /\ capable = keyed c3 c2 c1)
  \/ (s = WRITE_D /\ v = VInt 300 /\ capable = dotted3 c3 c2 c1) ->
  exists d t evs,
    reading w d
    /\ (if flag then
          r <- run w s Pass (Some (obj_env o)) ;;
          Comp.ret (alist_set key r results)
        else Comp.ret results) st =
       (Ok (if flag then alist_set key (cell capable d) results
            else results),
        upd st (if flag && capable then <[b := leaf_obj c3 v]> (st_heap st)
                else st_heap st) t evs).
Proof.
  intros Hdoc Hs. destruct flag.
  - destruct (run_write_exact s v capable leaf st Hdoc Hs) as (t & evs & E).
    unfold Comp.bind. rewrite E. eexists _, t, evs.
    split; [apply reading_at | reflexivity].
  - eexists _, 0, []. split; [apply reading_any|]. now rewrite upd_id.
Qed.

End Cells.

(** The loop body on an entry whose instance is a document that no
    measurement has written yet: the Init cell holds a timing; a read or
    write cell holds one exactly when the flag of its style is set and the
    classes of the instance answer to the style; and the leaf of the
    instance ends as the last successful write left it. *)
Lemma measure_exact w g inst name init_stmt sk sd c3 c2 c1 b st :
  init_good g init_stmt ->
  inst !! name = Some (VRef (S (S b))) ->
  raw_doc (st_heap st) ->
  doc_at c3 c2 c1 (VInt 100) b (st_heap st) ->
  let k := sk && keyed c3 c2 c1 in
  let d := sd && dotted3 c3 c2 c1 in
  exists d0 d1 d2 d3 d4 st' junk,
    measure w g inst (name, init_stmt, sk, sd) st =
    (Ok (cells (Some d0) (cell k d1) (cell d d2) (cell k d3) (cell d d4)),
     st')
    /\ (reading w d0 /\ reading w d1 /\ reading w d2 /\ reading w d3
        /\ reading w d4)
    /\ st_heap st' = <[b := leaf_obj c3 (final_leaf k d)]> (st_heap st ++ junk)
    /\ st_stdout st' = st_stdout st.
Proof.
  intros Hinit Hinst Hraw Hdoc k d. unfold measure. rewrite Hinst.
  cbn [from_option id is_not_None]. rewrite !andb_true_r.
  destruct (run_init_exact w g init_stmt st Hinit Hraw) as (junk & evs0 & E0).
  unfold Comp.bind at 1. rewrite E0. cbv iota beta zeta.
  set (st1 := upd st (st_heap st ++ junk) 2 evs0).
  assert (Hdoc1 : doc_at c3 c2 c1 (VInt 100) b (st_heap st1))
    by (apply doc_at_app; exact Hdoc).
  set (res0 := alist_set "init" _ _).
  destruct (phase_read_exact w c3 c2 c1 b sk READ_K (keyed c3 c2 c1) "read_k"
              res0 (VInt 100) st1 Hdoc1)
    as (d1 & t1 & evs1 & Hd1 & E1); [left; split; reflexivity|].
  unfold obj_env in E1. unfold Comp.bind at 1. rewrite E1. cbv iota beta.
  set (st2 := upd st1 (st_heap st1) t1 evs1).
  set (res1 := if sk then _ else _).
  destruct (phase_read_exact w c3 c2 c1 b sd READ_D (dotted3 c3 c2 c1)
              "read_d" res1 (VInt 100) st2 Hdoc1)
    as (d2 & t2 & evs2 & Hd2 & E2); [right; split; reflexivity|].
  unfold obj_env in E2. unfold Comp.bind at 1. rewrite E2. cbv iota beta.
  set (st3 := upd st2 (st_heap st2) t2 evs2).
  set (res2 := if sd then _ else _).
  destruct (phase_write_exact w c3 c2 c1 b sk WRITE_K (VInt 200)
              (keyed c3 c2 c1) "write_k" res2 (VInt 100) st3 Hdoc1)
    as (d3 & t3 & evs3 & Hd3 & E3); [left; repeat split; reflexivity|].
  unfold obj_env in E3. unfold Comp.bind at 1. rewrite E3. cbv iota beta.
  fold k.
  set (h4 := if k then _ else _).
  set (st4 := upd st3 h4 t3 evs3).
  set (res3 := if sk then _ else _).
  assert (Hdoc4 : doc_at c3 c2 c1 (if k then VInt 200 else VInt 100) b
                         (st_heap st4)).
  { cbn [st_heap st4 upd]. unfold h4. destruct k; [|exact Hdoc1].
    eapply doc_at_write. exact Hdoc1. }
  destruct (phase_write_exact w c3 c2 c1 b sd WRITE_D (VInt 300)
              (dotted3 c3 c2 c1) "write_d" res3 _ st4 Hdoc4)
    as (d4 & t4 & evs4 & Hd4 & E4); [right; repeat split; reflexivity|].
  unfold obj_env in E4. unfold Comp.bind at 1. rewrite E4. cbv iota beta.
  fold d.
  eexists _, d1, d2, d3, d4, _, junk.
  split; [|split; [|split]].
  - f_equal. f_equal. unfold res3, res2, res1, res0, k, d.
    destruct sk, sd; reflexivity.
  - repeat split; try assumption. apply reading_at.
  - cbn [st_heap upd st4]. unfold final_leaf.
    destruct Hdoc1 as (H3 & _). cbn [st_heap st1 upd] in H3.
    clear E0 E1 E2 E3 E4 Hdoc4. subst h4 k d.
    destruct (sd && dotted3 c3 c2 c1), (sk && keyed c3 c2 c1);
      cbn [st_heap st3 st2 st1 upd].
    + rewrite list_insert_insert_eq. reflexivity.
    + reflexivity.
    + reflexivity.
    + symmetry. apply list_insert_id. exact H3.
  - reflexivity.
Qed.

(** The instance of [dict] when the module body has run to its end. *)
Lemma module_init_dict w g inst h :
  module_init w [] = (Ok (g, inst), h) -> dict_at inst h.
Proof.
  intros E.
  destruct (module_init_ok w g inst h E) as (_ & _ & Ha & _ & _ & Hc).
  destruct (module_init_run w Ha Hc) as (inst' & h' & E' & _ & D).
  rewrite E in E'. injection E' as _ <- <-. exact D.
Qed.

Lemma not_skipped inst name v :
  inst !! name = Some v -> skipped inst name = false.
Proof.
  intros Hn. unfold skipped. rewrite bool_decide_eq_false_2; [reflexivity|].
  rewrite Hn. discriminate.
Qed.

(** X9: the row of an entry whose instance is a document not written yet.
    The Init cell holds a timing; the cell of a read or of a write holds a
    timing exactly when the flag of its style is set in the registry and
    the classes of the instance answer to the style, and [None], rendered
    [N/A], otherwise: a flag that the class does not honour costs the
    cell, not the run. *)
Theorem row_cells w g inst name init_stmt sk sd c3 c2 c1 b st :
  init_good g init_stmt ->
  inst !! name = Some (VRef (S (S b))) ->
  raw_doc (st_heap st) ->
  doc_at c3 c2 c1 (VInt 100) b (st_heap st) ->
  let k := sk && keyed c3 c2 c1 in
  let d := sd && dotted3 c3 c2 c1 in
  exists d0 d1 d2 d3 d4 st',
    iteration w g inst (name, init_stmt, sk, sd) st = (Ok tt, st')
    /\ st_stdout st' =
       st_stdout st
       ++ [row_text name (Some d0) (cell k d1) (cell d d2) (cell k d3)
             (cell d d4)]
    /\ reading w d0 /\ reading w d1 /\ reading w d2 /\ reading w d3
    /\ reading w d4.
Proof.
  intros Hinit Hinst Hraw Hdoc k d.
  destruct (measure_exact w g inst name init_stmt sk sd c3 c2 c1 b st
              Hinit Hinst Hraw Hdoc)
    as (d0 & d1 & d2 & d3 & d4 & st1 & junk & E & Hr & _ & Ho).
  exists d0, d1, d2, d3, d4.
  unfold iteration. cbn [fst]. rewrite (not_skipped _ _ _ Hinst).
  unfold Comp.bind. rewrite E, render_row_cells. eexists.
  split; [reflexivity|]. cbn [st_stdout print Comp.modify]. rewrite Ho.
  split; [reflexivity | exact Hr].
Qed.

(** X10: what a turn leaves in the instance.  After the turn the leaf of
    the instance is 300 when the dot write was done, 200 when only the key
    write was, and still 100 when neither was. *)
Theorem turn_final_value w g inst name init_stmt sk sd c3 c2 c1 b st :
  init_good g init_stmt ->
  inst !! name = Some (VRef (S (S b))) ->
  raw_doc (st_heap st) ->
  doc_at c3 c2 c1 (VInt 100) b (st_heap st) ->
  exists st',
    iteration w g inst (name, init_stmt, sk, sd) st = (Ok tt, st')
    /\ doc_at c3 c2 c1
         (final_leaf (sk && keyed c3 c2 c1) (sd && dotted3 c3 c2 c1)) b
         (st_heap st').
Proof.
  intros Hinit Hinst Hraw Hdoc.
  destruct (measure_exact w g inst name init_stmt sk sd c3 c2 c1 b st
              Hinit Hinst Hraw Hdoc)
    as (d0 & d1 & d2 & d3 & d4 & st1 & junk & E & _ & Hh & _).
  unfold iteration. cbn [fst]. rewrite (not_skipped _ _ _ Hinst).
  unfold Comp.bind. rewrite E, render_row_cells. eexists.
  split; [reflexivity|]. cbn [st_heap print Comp.modify]. rewrite Hh.
  eapply doc_at_write. apply doc_at_app. exact Hdoc.
Qed.

(** X11: timing a construction only allocates.  In a run whose module body
    has ended, timing the Init statement of an entry that has an instance
    gives a timing, and leaves every object that was on the heap as it
    was, the long-lived instances among them. *)
Theorem init_timing_only_allocates w g inst h name init_stmt sk sd st :
  module_init w [] = (Ok (g, inst), h) ->
  In (name, init_stmt, sk, sd) libs -> is_Some (inst !! name) ->
  raw_doc (st_heap st) ->
  exists d junk st',
    run w init_stmt Pass (Some g) st = (Ok (Some d), st')
    /\ reading w d
    /\ st_heap st' = st_heap st ++ junk
    /\ st_stdout st' = st_stdout st.
Proof.
  intros E Hin Hn Hraw.
  destruct (start_ok w g inst h E) as ((Hinit & _) & _).
  destruct (run_init_exact w g init_stmt st
              (Hinit name init_stmt sk sd Hin Hn) Hraw) as (junk & evs & R).
  eexists _, junk, _. split; [exact R|].
  split; [apply reading_at|]. split; reflexivity.
Qed.

(** What the turns of a list of entries print: rows, one per entry at
    most, whatever the outcome. *)
Lemma for_each_rows w g inst l st :
  exists r st' rows,
    for_each (iteration w g inst) l st = (r, st')
    /\ st_stdout st' = st_stdout st ++ rows
    /\ length rows <= length l.
Proof.
  revert st. induction l as [|[[[name init_stmt] sk] sd] l IH]; intros st.
  - exists (Ok tt), st, []. rewrite app_nil_r. repeat split. cbn. lia.
  - cbn [for_each]. unfold Comp.bind.
    pose proof (iteration_generic w g inst name init_stmt sk sd st) as Hit.
    cbv zeta in Hit. destruct (skipped inst name).
    + rewrite Hit. destruct (IH st) as (r & st' & rows & E & Ho & Hl).
      exists r, st', rows. split; [exact E|]. split; [exact Ho|]. cbn. lia.
    + destruct Hit as (r1 & st1 & seg & E1 & _ & Hr). rewrite E1.
      destruct r1 as [[]|e].
      * destruct Hr as (_ & r0 & r1 & r2 & r3 & r4 & Ho1 & _).
        destruct (IH st1) as (r & st' & rows & E & Ho & Hl).
        exists r, st', (row_text name r0 r1 r2 r3 r4 :: rows).
        split; [exact E|]. split; [|cbn; lia].
        rewrite Ho, Ho1, <- app_assoc. reflexivity.
      * destruct Hr as (_ & Ho1). exists (Raise e), st1, [].
        split; [reflexivity|]. split; [now rewrite app_nil_r | cbn; lia].
Qed.

(** X12: the first row is that of [dict].  In every run whose module body
    ends, the table starts with the row of [dict], with timings under
    Init, Read(K) and Write(K) and [N/A] under Read(D) and Write(D). *)
Theorem dict_row_first w g inst h :
  module_init w [] = (Ok (g, inst), h) ->
  exists st' d0 d1 d3 rows,
    program w initial_state = (Ok tt, st')
    /\ st_stdout st' =
       banner w ++ row_text "dict" (Some d0) (Some d1) None (Some d3) None
                 :: rows
    /\ reading w d0 /\ reading w d1 /\ reading w d3.
Proof.
  intros E.
  destruct (program_good w g inst h E) as (st' & rows0 & P & _).
  destruct (start_ok w g inst h E) as ((Hinit & _) & (Hraw & _)).
  destruct (module_init_dict w g inst h E) as (Hd & Hdoc).
  assert (Hin : In ("dict", Expr (construct "dict"), true, false) libs)
    by (left; reflexivity).
  destruct (row_cells w g inst "dict" (Expr (construct "dict")) true false
              DictCls DictCls DictCls 3 (loop_start w h)
              (Hinit _ _ _ _ Hin (ex_intro _ _ Hd)) Hd Hraw Hdoc)
    as (d0 & d1 & d2 & d3 & d4 & st1 & E1 & Ho1 & R0 & R1 & _ & R3 & _).
  rewrite (program_unfold w g inst h E) in P.
  change libs with (("dict", Expr (construct "dict"), true, false)
                    :: tl libs) in P.
  cbn [for_each] in P. unfold Comp.bind in P. rewrite E1 in P.
  destruct (for_each_rows w g inst (tl libs) st1)
    as (r & st2 & rows & E2 & Ho2 & _).
  rewrite E2 in P. injection P as -> ->.
  exists st', d0, d1, d3, rows. split.
  { rewrite (program_unfold w g inst h E).
    change libs with (("dict", Expr (construct "dict"), true, false)
                      :: tl libs).
    cbn [for_each]. unfold Comp.bind. rewrite E1. exact E2. }
  split; [|auto].
  rewrite Ho2, Ho1. cbn [st_stdout loop_start]. rewrite <- app_assoc.
  reflexivity.
Qed.

(** X13: the header comes first.  Whatever the globals, the instances and
    the outcome, the main block prints the four header lines, then at most
    one row per entry of the registry; the rows printed before an
    exception comes out stay printed. *)
Theorem banner_first w g inst st :
  exists r st' rows,
    main w g inst st = (r, st')
    /\ st_stdout st' = st_stdout st ++ banner w ++ rows
    /\ length rows <= length libs.
Proof.
  unfold main, Comp.bind. cbn [print Comp.modify].
  match goal with
  | |- context [for_each _ libs ?s] =>
      destruct (for_each_rows w g inst libs s) as (r & st' & rows & E & Ho & Hl)
  end.
  exists r, st', rows. split; [exact E|]. split; [|exact Hl].
  rewrite Ho. cbn [st_stdout]. unfold banner. rewrite <- !app_assoc.
  reflexivity.
Qed.

(** X14: the exemption of the skip test is idle.  When the module body has
    run to its end, ["dict"] and ["Attrs"] have an instance, so an entry
    is skipped exactly when its name has none. *)
Theorem skip_exemption_idle w g inst h name :
  module_init w [] = (Ok (g, inst), h) ->
  skipped inst name = true <-> inst !! name = None.
Proof.
  intros E.
  destruct (module_init_ok w g inst h E) as (_ & (_ & _ & _ & Hd) & _ & HA & _).
  rewrite (skipped_spec inst name Hd HA). apply bool_decide_eq_true.
Qed.

(** ** Access to the leaf *)

(** X15: write then read.  On a document whose classes answer to key
    access, the key write followed by the key read yields 200; on one whose
    classes answer to dot access, the dot write followed by the dot read
    yields 300; and where they answer to both, a read of either style sees
    the write of the other: the two styles reach the same leaf. *)
Theorem write_then_read c3 c2 c1 leaf b h :
  doc_at c3 c2 c1 leaf b h ->
  let env := obj_env (VRef (S (S b))) in
  let hk := <[b := leaf_obj c3 (VInt 200)]> h in
  let hd := <[b := leaf_obj c3 (VInt 300)]> h in
  (keyed c3 c2 c1 = true ->
   exec env WRITE_K h = (Ok VNone, hk)
   /\ exec env READ_K hk = (Ok (VInt 200), hk))
  /\ (dotted3 c3 c2 c1 = true ->
      exec env WRITE_D h = (Ok VNone, hd)
      /\ exec env READ_D hd = (Ok (VInt 300), hd))
  /\ (keyed c3 c2 c1 = true -> dotted3 c3 c2 c1 = true ->
      exec env READ_D hk = (Ok (VInt 200), hk)
      /\ exec env READ_K hd = (Ok (VInt 300), hd)).
Proof.
  intros Hdoc env hk hd. unfold env, hk, hd.
  pose proof (doc_at_write _ _ _ _ _ _ Hdoc (VInt 200)) as Hdoc2.
  pose proof (doc_at_write _ _ _ _ _ _ Hdoc (VInt 300)) as Hdoc3.
  rewrite (exec_WRITE_K _ _ _ _ _ _ Hdoc), (exec_WRITE_D _ _ _ _ _ _ Hdoc).
  rewrite (exec_READ_K _ _ _ _ _ _ Hdoc2), (exec_READ_D _ _ _ _ _ _ Hdoc2).
  rewrite (exec_READ_K _ _ _ _ _ _ Hdoc3), (exec_READ_D _ _ _ _ _ _ Hdoc3).
  split; [|split].
  - intros ->. split; reflexivity.
  - intros ->. split; reflexivity.
  - intros -> ->. split; reflexivity.
Qed.

(** X16: a timed read changes nothing.  Whether it gives a timing or
    [None], a timed read of either style leaves the heap as it was, and
    prints nothing. *)
Theorem timed_read_pure w c3 c2 c1 leaf b s st :
  doc_at c3 c2 c1 leaf b (st_heap st) -> is_read s ->
  exists r st',
    run w s Pass (Some (obj_env (VRef (S (S b))))) st = (Ok r, st')
    /\ st_heap st' = st_heap st
    /\ st_stdout st' = st_stdout st.
Proof.
  intros Hdoc Hs.
  destruct (run_read_exact w c3 c2 c1 b s
              (match s with
               | Expr (Subscript _ _) => keyed c3 c2 c1
               | _ => dotted3 c3 c2 c1
               end) leaf st Hdoc) as (t & evs & E).
  { destruct Hs as [-> | ->]; [left | right]; split; reflexivity. }
  eexists _, _. split; [exact E|]. split; reflexivity.
Qed.

(** X17: a timed write changes the leaf and nothing else.  Whether it
    gives a timing or [None], a timed write of either style leaves the heap
    as long as it was, and every location but that of the leaf of the
    instance as it was. *)
Theorem timed_write_frame w c3 c2 c1 leaf b s st :
  doc_at c3 c2 c1 leaf b (st_heap st) -> is_write s ->
  exists r st',
    run w s Pass (Some (obj_env (VRef (S (S b))))) st = (Ok r, st')
    /\ length (st_heap st') = length (st_heap st)
    /\ (forall l, l <> b -> st_heap st' !! l = st_heap st !! l)
    /\ st_stdout st' = st_stdout st.
Proof.
  intros Hdoc Hs.
  destruct (run_write_exact w c3 c2 c1 b s
              (match s with
               | AssignItem _ _ _ => VInt 200
               | _ => VInt 300
               end)
              (match s with
               | AssignItem _ _ _ => keyed c3 c2 c1
               | _ => dotted3 c3 c2 c1
               end) leaf st Hdoc) as (t & evs & E).
  { destruct Hs as [-> | ->]; [left | right]; repeat split; reflexivity. }
  eexists _, _. split; [exact E|]. cbn [st_heap st_stdout upd].
  split; [|split; [|reflexivity]].
  - match goal with |- context [if ?c then _ else _] => destruct c end;
      [apply length_insert | reflexivity].
  - intros l Hl.
    match goal with |- context [if ?c then _ else _] => destruct c end;
      [apply list_lookup_insert_ne; congruence | reflexivity].
Qed.

(** X18: a library that cannot be imported gets no row.  In a run whose
    module body has ended, the turn of the entry of a guarded class whose
    library is not importable times nothing and prints nothing. *)
Theorem unavailable_library_no_row w g inst h m X init_stmt sk sd st :
  module_init w [] = (Ok (g, inst), h) ->
  In (m, X) guards -> site_packages w !! m = None ->
  iteration w g inst (X, init_stmt, sk, sd) st = (Ok tt, st).
Proof.
  intros E Hin Hm.
  destruct (unavailable_library_skipped w g inst h m X E Hin Hm) as (_ & Hs).
  unfold iteration. cbn [fst]. now rewrite Hs.
Qed.

(** ** The sample run *)

(** Facts on the state in which the loop starts in [world_lattix]. *)
Lemma lattix_init_good name init_stmt sk sd :
  In (name, init_stmt, sk, sd) libs ->
  is_Some (instances_of world_lattix !! name) ->
  init_good (globals_of world_lattix) init_stmt.
Proof.
  destruct (start_ok _ _ _ _ module_init_lattix) as ((Hinit & _) & _).
  apply Hinit.
Qed.

Lemma lattix_raw_doc : raw_doc (heap_of world_lattix).
Proof.
  destruct (start_ok _ _ _ _ module_init_lattix) as (_ & (H & _)). exact H.
Qed.

Lemma lattix_dict : dict_at (instances_of world_lattix) (heap_of world_lattix).
Proof. exact (module_init_dict _ _ _ _ module_init_lattix). Qed.

Lemma lattix_dict_init_good :
  init_good (globals_of world_lattix) (Expr (construct "dict")).
Proof.
  apply (lattix_init_good "dict" _ true false); [left; reflexivity|].
  destruct lattix_dict as (H & _). rewrite H. eauto.
Qed.

(** The row of [dict] in [world_lattix]. *)
Lemma row_cells_witness :
  init_good (globals_of world_lattix) (Expr (construct "dict"))
  /\ instances_of world_lattix !! "dict" = Some (VRef 5)
  /\ raw_doc (st_heap (loop_start world_lattix (heap_of world_lattix)))
  /\ doc_at DictCls DictCls DictCls (VInt 100) 3
       (st_heap (loop_start world_lattix (heap_of world_lattix)))
  /\ exists d0 d1 d2 d3 d4 st',
      iteration world_lattix (globals_of world_lattix)
        (instances_of world_lattix)
        ("dict", Expr (construct "dict"), true, false)
        (loop_start world_lattix (heap_of world_lattix)) = (Ok tt, st')
      /\ st_stdout st' =
         st_stdout (loop_start world_lattix (heap_of world_lattix))
         ++ [row_text "dict" (Some d0)
               (cell (true && keyed DictCls DictCls DictCls) d1)
               (cell (false && dotted3 DictCls DictCls DictCls) d2)
               (cell (true && keyed DictCls DictCls DictCls) d3)
               (cell (false && dotted3 DictCls DictCls DictCls) d4)]
      /\ reading world_lattix d0 /\ reading world_lattix d1
      /\ reading world_lattix d2 /\ reading world_lattix d3
      /\ reading world_lattix d4.
Proof.
  split; [exact lattix_dict_init_good|].
  split; [exact (proj1 lattix_dict)|].
  split; [exact lattix_raw_doc|].
  split; [exact (proj2 lattix_dict)|].
  exact (row_cells world_lattix (globals_of world_lattix)
           (instances_of world_lattix) "dict" (Expr (construct "dict"))
           true false DictCls DictCls DictCls 3
           (loop_start world_lattix (heap_of world_lattix))
           lattix_dict_init_good (proj1 lattix_dict) lattix_raw_doc
           (proj2 lattix_dict)).
Defined.

(** The turn of [dict] in [world_lattix]: the key write is done, the dot
    write is not. *)
Lemma turn_final_value_witness :
  init_good (globals_of world_lattix) (Expr (construct "dict"))
  /\ instances_of world_lattix !! "dict" = Some (VRef 5)
  /\ raw_doc (st_heap (loop_start world_lattix (heap_of world_lattix)))
  /\ doc_at DictCls DictCls DictCls (VInt 100) 3
       (st_heap (loop_start world_lattix (heap_of world_lattix)))
  /\ exists st',
      iteration world_lattix (globals_of world_lattix)
        (instances_of world_lattix)
        ("dict", Expr (construct "dict"), true, false)
        (loop_start world_lattix (heap_of world_lattix)) = (Ok tt, st')
      /\ doc_at DictCls DictCls DictCls (VInt 200) 3 (st_heap st').
Proof.
  split; [exact lattix_dict_init_good|].
  split; [exact (proj1 lattix_dict)|].
  split; [exact lattix_raw_doc|].
  split; [exact (proj2 lattix_dict)|].
  exact (turn_final_value world_lattix (globals_of world_lattix)
           (instances_of world_lattix) "dict" (Expr (construct "dict"))
           true false DictCls DictCls DictCls 3
           (loop_start world_lattix (heap_of world_lattix))
           lattix_dict_init_good (proj1 lattix_dict) lattix_raw_doc
           (proj2 lattix_dict)).
Defined.

(** Timing the construction of [Lattix] in [world_lattix]. *)
Lemma init_timing_only_allocates_witness :
  module_init world_lattix [] =
  (Ok (globals_of world_lattix, instances_of world_lattix),
   heap_of world_lattix)
  /\ In ("Lattix",
         Expr (Call (Name "Lattix") [Name "raw_data"]
                 [("lazy_create", Const (VBool true))]), true, true) libs
  /\ is_Some (instances_of world_lattix !! "Lattix")
  /\ raw_doc (st_heap (loop_start world_lattix (heap_of world_lattix)))
  /\ exists d junk st',
      run world_lattix
        (Expr (Call (Name "Lattix") [Name "raw_data"]
                 [("lazy_create", Const (VBool true))]))
        Pass (Some (globals_of world_lattix))
        (loop_start world_lattix (heap_of world_lattix)) = (Ok (Some d), st')
      /\ reading world_lattix d
      /\ st_heap st' =
         st_heap (loop_start world_lattix (heap_of world_lattix)) ++ junk
      /\ st_stdout st' =
         st_stdout (loop_start world_lattix (heap_of world_lattix)).
Proof.
  assert (Hin : In ("Lattix",
                    Expr (Call (Name "Lattix") [Name "raw_data"]
                            [("lazy_create", Const (VBool true))]),
                    true, true) libs) by (right; left; reflexivity).
  assert (Hn : is_Some (instances_of world_lattix !! "Lattix"))
    by (rewrite instances_lattix; eauto).
  split; [exact module_init_lattix|]. split; [exact Hin|].
  split; [exact Hn|]. split; [exact lattix_raw_doc|].
  exact (init_timing_only_allocates world_lattix (globals_of world_lattix)
           (instances_of world_lattix) (heap_of world_lattix) "Lattix" _ true
           true (loop_start world_lattix (heap_of world_lattix))
           module_init_lattix Hin Hn lattix_raw_doc).
Defined.

(** The table of the run in [world_lattix]. *)
Lemma dict_row_first_witness :
  module_init world_lattix [] =
  (Ok (globals_of world_lattix, instances_of world_lattix),
   heap_of world_lattix)
  /\ exists st' d0 d1 d3 rows,
      program world_lattix initial_state = (Ok tt, st')
      /\ st_stdout st' =
         banner world_lattix
         ++ row_text "dict" (Some d0) (Some d1) None (Some d3) None :: rows
      /\ reading world_lattix d0 /\ reading world_lattix d1
      /\ reading world_lattix d3.
Proof.
  split; [exact module_init_lattix|].
  exact (dict_row_first world_lattix (globals_of world_lattix)
           (instances_of world_lattix) (heap_of world_lattix)
           module_init_lattix).
Defined.

(** The skip test on [EasyDict], which [world_lattix] cannot import. *)
Lemma skip_exemption_idle_witness :
  module_init world_lattix [] =
  (Ok (globals_of world_lattix, instances_of world_lattix),
   heap_of world_lattix)
  /\ (skipped (instances_of world_lattix) "EasyDict" = true
      <-> instances_of world_lattix !! "EasyDict" = None).
Proof.
  split; [exact module_init_lattix|].
  exact (skip_exemption_idle world_lattix (globals_of world_lattix)
           (instances_of world_lattix) (heap_of world_lattix) "EasyDict"
           module_init_lattix).
Defined.

(** The instance of [dict] in [world_lattix], which answers to key access
    alone. *)
Lemma write_then_read_witness :
  doc_at DictCls DictCls DictCls (VInt 100) 3 (heap_of world_lattix)
  /\ keyed DictCls DictCls DictCls = true
  /\ exec (obj_env (VRef 5)) WRITE_K (heap_of world_lattix) =
     (Ok VNone, <[3 := leaf_obj DictCls (VInt 200)]> (heap_of world_lattix))
  /\ exec (obj_env (VRef 5)) READ_K
       (<[3 := leaf_obj DictCls (VInt 200)]> (heap_of world_lattix)) =
     (Ok (VInt 200),
      <[3 := leaf_obj DictCls (VInt 200)]> (heap_of world_lattix)).
Proof.
  split; [exact (proj2 lattix_dict)|]. split; [reflexivity|].
  exact (proj1 (write_then_read DictCls DictCls DictCls (VInt 100) 3
                  (heap_of world_lattix) (proj2 lattix_dict)) eq_refl).
Defined.

(** The key read of [dict] where the loop starts in [world_lattix]. *)
Lemma timed_read_pure_witness :
  doc_at DictCls DictCls DictCls (VInt 100) 3
    (st_heap (loop_start world_lattix (heap_of world_lattix)))
  /\ is_read READ_K
  /\ exists r st',
      run world_lattix READ_K Pass (Some (obj_env (VRef 5)))
        (loop_start world_lattix (heap_of world_lattix)) = (Ok r, st')
      /\ st_heap st' = st_heap (loop_start world_lattix (heap_of world_lattix))
      /\ st_stdout st'
         = st_stdout (loop_start world_lattix (heap_of world_lattix)).
Proof.
  split; [exact (proj2 lattix_dict)|]. split; [left; reflexivity|].
  exact (timed_read_pure world_lattix DictCls DictCls DictCls (VInt 100) 3
           READ_K (loop_start world_lattix (heap_of world_lattix))
           (proj2 lattix_dict) (or_introl eq_refl)).
Defined.

(** The turn of [EasyDict], which [world_lattix] cannot import. *)
Lemma unavailable_library_no_row_witness :
  module_init world_lattix [] =
  (Ok (globals_of world_lattix, instances_of world_lattix),
   heap_of world_lattix)
  /\ In ("easydict", "EasyDict") guards
  /\ site_packages world_lattix !! "easydict" = None
  /\ iteration world_lattix (globals_of world_lattix)
       (instances_of world_lattix)
       ("EasyDict", Expr (construct "EasyDict"), true, true)
       (loop_start world_lattix (heap_of world_lattix))
     = (Ok tt, loop_start world_lattix (heap_of world_lattix)).
Proof.
  assert (Hin : In ("easydict", "EasyDict") guards)
    by (right; left; reflexivity).
  split; [exact module_init_lattix|]. split; [exact Hin|].
  split; [reflexivity|].
  exact (unavailable_library_no_row world_lattix (globals_of world_lattix)
           (instances_of world_lattix) (heap_of world_lattix) "easydict"
           "EasyDict" (Expr (construct "EasyDict")) true true
           (loop_start world_lattix (heap_of world_lattix))
           module_init_lattix Hin eq_refl).
Defined.

(** The key write of [dict] where the loop starts in [world_lattix]. *)
Lemma timed_write_frame_witness :
  doc_at DictCls DictCls DictCls (VInt 100) 3
    (st_heap (loop_start world_lattix (heap_of world_lattix)))
  /\ is_write WRITE_K
  /\ exists r st',
      run world_lattix WRITE_K Pass (Some (obj_env (VRef 5)))
        (loop_start world_lattix (heap_of world_lattix)) = (Ok r, st')
      /\ length (st_heap st')
         = length (st_heap (loop_start world_lattix (heap_of world_lattix)))
      /\ (forall l, l <> 3 ->
            st_heap st' !! l
            = st_heap (loop_start world_lattix (heap_of world_lattix)) !! l)
      /\ st_stdout st'
         = st_stdout (loop_start world_lattix (heap_of world_lattix)).
Proof.
  split; [exact (proj2 lattix_dict)|]. split; [left; reflexivity|].
  exact (timed_write_frame world_lattix DictCls DictCls DictCls (VInt 100) 3
           WRITE_K (loop_start world_lattix (heap_of world_lattix))
           (proj2 lattix_dict) (or_introl eq_refl)).
Defined.
